(** * itest/loadtest/utils.go: the load-test client fixture

    A shallow embedding of [initClients], [getTapClient] and
    [getBitcoinConn].  The three functions are straight-line Go code that
    talks to the outside (file system, gRPC, the chain backend) and to the
    test runner ([require] aborts the test, [t.Cleanup] registers a
    teardown closure).  They are embedded in a small state-and-abort monad
    over the runner state; every outside call is answered by a [World] of
    oracles that may depend on everything that happened before. *)

From Stdlib Require Import List Ascii String ZArith Bool Lia Arith.
From Stdlib Require Import Strings.Byte DecimalString.
From Stdlib Require DecimalPos DecimalZ.
Import ListNotations.

Local Open Scope string_scope.
Local Open Scope list_scope.

(** ** Go values *)

(** A Go [[]byte]; the nil slice and the empty slice are both [[]]. *)
Definition bytes := list byte.

(** A Go [error] value that is not nil, by its message. *)
Definition error := string.

(** The Go idiom [v, err := f(...)]: [Ok v] when [err == nil]. *)
Inductive result (A : Type) : Type :=
| Ok (v : A)
| Err (e : error).
Arguments Ok {A} v.
Arguments Err {A} e.

(** [fmt.Sprintf("%s:%d", host, port)]. *)
Definition Sprintf_s_d (host : string) (port : Z) : string :=
  host ++ ":" ++ NilZero.string_of_int (Z.to_int port).

(** ** crypto/x509, crypto/tls, credentials *)

Inductive Certificate : Type := DER (raw : bytes).

(** [x509.CertPool]: the certificates added so far. *)
Definition CertPool := list Certificate.

Definition x509_NewCertPool : CertPool := [].

(** [tls.Config], the two fields the credentials constructors set.
    [RootCAs = None] is the nil pool: the host's root set is used. *)
Record tls_Config : Type := {
  ServerName : string;
  RootCAs : option CertPool
}.

(** [&tls.Config{}] *)
Definition tls_Config_zero : tls_Config :=
  {| ServerName := ""; RootCAs := None |}.

Inductive TransportCredentials : Type :=
| credentials_NewTLS (c : tls_Config).

(** [credentials.NewClientTLSFromCert(cp, serverNameOverride)] is
    [NewTLS(&tls.Config{ServerName: serverNameOverride, RootCAs: cp})]. *)
Definition credentials_NewClientTLSFromCert
  (cp : CertPool) (serverNameOverride : string) : TransportCredentials :=
  credentials_NewTLS {| ServerName := serverNameOverride; RootCAs := Some cp |}.

(** ** macaroons *)

Inductive Macaroon : Type := MacaroonOf (raw : bytes).
Inductive MacaroonCredential : Type := MacaroonCredentialOf (m : Macaroon).

(** ** grpc *)

Inductive CallOption : Type :=
| grpc_MaxCallRecvMsgSize (n : Z).

Inductive DialOption : Type :=
| grpc_WithTransportCredentials (creds : TransportCredentials)
| grpc_WithDefaultCallOptions (cos : list CallOption)
| grpc_WithPerRPCCredentials (c : MacaroonCredential).

(** A [*grpc.ClientConn], by the identity of the connection object. *)
Inductive ClientConn : Type := ClientConnAt (id : nat).

(** [lnrpc.MaxGrpcMsgSize], lnd's constant: 200 MiB, as the comment on
    [maxMsgRecvSize] says. *)
Definition lnrpc_MaxGrpcMsgSize : Z := 1 * 1024 * 1024 * 200.

(** utils.go:25-29 *)
Definition maxMsgRecvSize : CallOption :=
  grpc_MaxCallRecvMsgSize lnrpc_MaxGrpcMsgSize.

(** The generated stubs: each keeps the connection it was built on. *)
Inductive TaprootAssetsClient : Type :=
| taprpc_NewTaprootAssetsClient (cc : ClientConn).
Inductive UniverseClient : Type :=
| universerpc_NewUniverseClient (cc : ClientConn).
Inductive MintClient : Type :=
| mintrpc_NewMintClient (cc : ClientConn).
Inductive AssetWalletClient : Type :=
| assetwalletrpc_NewAssetWalletClient (cc : ClientConn).

(** ** btcd rpcclient *)

(** [rpcclient.ConnConfig], the fields utils.go sets. *)
Record ConnConfig : Type := {
  cc_Host : string;
  cc_User : string;
  cc_Pass : string;
  cc_HTTPPostMode : bool;
  cc_DisableTLS : bool;
  cc_Certificates : bytes
}.

(** A [*rpcclient.Client], by the identity of the client object. *)
Inductive Client : Type := ClientAt (id : nat).

(** ** Configuration *)

(** Modelled from the spec: the declarations of [TapConfig],
    [BitcoinConfig], [User] and [Config] are in the package's config file,
    which is not part of the sources at hand.  The fields are the ones
    utils.go reads, with the types its uses give them (spec section 6:
    per participant host, port, TLS certificate path and token path; for
    the chain backend host, port, user, password and TLS certificate
    path). *)
Record TapConfig : Type := {
  tap_Host : string;
  tap_Port : Z;
  tap_TLSPath : string;
  tap_MacPath : string
}.

(** Modelled from the spec: the chain backend's part of the configuration
    (host, port, user, password, TLS certificate path). *)
Record BitcoinConfig : Type := {
  btc_Host : string;
  btc_Port : Z;
  btc_User : string;
  btc_Password : string;
  btc_TLSPath : string
}.

(** Modelled from the spec: a participant, of which utils.go reads the
    configuration of its asset daemon, [cfg.Alice.Tapd]. *)
Record User : Type := { Tapd : TapConfig }.

(** Modelled from the spec: the configuration bundle the fixture takes,
    with the three parts utils.go reads. *)
Record Config : Type := {
  Alice : User;
  Bob : User;
  Bitcoin : BitcoinConfig
}.

(** utils.go:31-37 *)
Record rpcClient : Type := {
  cfg : TapConfig;
  rpc_TaprootAssetsClient : TaprootAssetsClient;
  rpc_UniverseClient : UniverseClient;
  rpc_MintClient : MintClient;
  rpc_AssetWalletClient : AssetWalletClient
}.

(** ** What the fixture does to the outside *)

(** One entry per call that leaves the process, with its arguments and
    what came back. *)
Inductive event : Type :=
| EvReadFile (path : string) (r : result bytes)
| EvDial (target : string) (opts : list DialOption) (r : result ClientConn)
| EvGetInfo (c : TaprootAssetsClient) (r : result unit)
| EvClose (conn : ClientConn) (r : result unit)
| EvNew (config : ConnConfig) (r : result Client)
| EvMineBlocks (client : Client) (num : Z) (numTxs : Z) (r : result unit).

Definition history := list event.

(** The outside.  The calls with an effect are answered from the history
    so far, so the same call may fail once and succeed later; parsing is
    a function of the bytes alone. *)
Record World : Type := {
  (** [os.ReadFile] *)
  os_ReadFile : history -> string -> result bytes;
  (** the certificates [AppendCertsFromPEM] can parse out of a PEM file *)
  pem_certificates : bytes -> list Certificate;
  (** [Macaroon.UnmarshalBinary] on a fresh macaroon *)
  macaroon_UnmarshalBinary : bytes -> result Macaroon;
  (** [macaroons.NewMacaroonCredential] *)
  macaroons_NewMacaroonCredential : Macaroon -> result MacaroonCredential;
  (** [grpc.DialContext] *)
  grpc_DialContext : history -> string -> list DialOption -> result ClientConn;
  (** the [GetInfo] RPC of the asset service; the reply is dropped by the
      caller *)
  rpc_GetInfo : history -> TaprootAssetsClient -> result unit;
  (** [ClientConn.Close] *)
  conn_Close : history -> ClientConn -> result unit;
  (** [rpcclient.New(connCfg, nil)] *)
  rpcclient_New : history -> ConnConfig -> result Client;
  (** what [itest.MineBlocks] meets at the chain backend; [Err] when the
      helper cannot mine and fails the test *)
  itest_MineBlocks : history -> Client -> Z -> Z -> result unit
}.

(** [CertPool.AppendCertsFromPEM]: adds every certificate found and
    reports whether any certificate was parsed. *)
Definition AppendCertsFromPEM (w : World) (cp : CertPool) (pem : bytes)
  : CertPool * bool :=
  (cp ++ pem_certificates w pem,
   match pem_certificates w pem with [] => false | _ :: _ => true end).

(** ** The test runner *)

(** The closures handed to [t.Cleanup], by the place that builds them and
    the variable they capture. *)
Inductive cleanup : Type :=
| CloseConn (conn : ClientConn)      (* utils.go:123-126 *)
| MineOnCleanup (bitcoinClient : Client).   (* utils.go:62-64 *)

(** The part of [*testing.T] and of the outside that the fixture changes:
    what has happened so far and the cleanups registered so far, oldest
    first. *)
Record T : Type := {
  past : history;
  cleanups : list cleanup
}.

(** Why the test was stopped: the failed assertion. *)
Inductive failure : Type :=
| NoErrorFailed (e : error)     (* require.NoError on a non-nil error *)
| TrueFailed.                   (* require.True on false *)

(** A call either returns or stops the test at a line of utils.go. *)
Inductive outcome (A : Type) : Type :=
| Done (a : A)
| Fatal (line : nat) (f : failure).
Arguments Done {A} a.
Arguments Fatal {A} line f.

Definition M (A : Type) : Type := T -> outcome A * T.

Definition ret {A} (a : A) : M A := fun t => (Done a, t).

Definition bind {A B} (m : M A) (k : A -> M B) : M B :=
  fun t =>
    match m t with
    | (Done a, t') => k a t'
    | (Fatal l f, t') => (Fatal l f, t')
    end.

Declare Scope fixture_scope.
Delimit Scope fixture_scope with fixture.
Notation "x <- m ;; k" := (bind m (fun x => k))
  (at level 61, m at next level, right associativity) : fixture_scope.
Notation "m ;;; k" := (bind m (fun _ => k))
  (at level 61, right associativity) : fixture_scope.
Local Open Scope fixture_scope.

(** Record an outside call and hand back its answer. *)
Definition call {A} (answer : history -> A) (ev : A -> event) : M A :=
  fun t =>
    let r := answer (past t) in
    (Done r, {| past := past t ++ [ev r]; cleanups := cleanups t |}).

(** [require.NoError(t, err)] at [line]. *)
Definition require_NoError {A} (line : nat) (r : result A) : M A :=
  fun t =>
    match r with
    | Ok v => (Done v, t)
    | Err e => (Fatal line (NoErrorFailed e), t)
    end.

(** [require.True(t, ok)] at [line]. *)
Definition require_True (line : nat) (ok : bool) : M unit :=
  fun t => if ok then (Done tt, t) else (Fatal line TrueFailed, t).

(** [t.Cleanup(f)]: [c.cleanups = append(c.cleanups, f)]. *)
Definition t_Cleanup (f : cleanup) : M unit :=
  fun t => (Done tt, {| past := past t; cleanups := cleanups t ++ [f] |}).

Section Fixture.

Variable w : World.

(** ** utils.go:69-129 *)
Definition getTapClient (cfg : TapConfig) : M rpcClient :=
  let creds := credentials_NewTLS tls_Config_zero in
  creds <-
    (if negb (tap_TLSPath cfg =? "") then
       r <- call (fun h => os_ReadFile w h (tap_TLSPath cfg))
                 (EvReadFile (tap_TLSPath cfg)) ;;
       tlsCert <- require_NoError 76 r ;;
       let cp := x509_NewCertPool in
       let '(cp, ok) := AppendCertsFromPEM w cp tlsCert in
       require_True 80 ok ;;;
       ret (credentials_NewClientTLSFromCert cp "")
     else ret creds) ;;
  let opts := [ grpc_WithTransportCredentials creds;
                grpc_WithDefaultCallOptions [maxMsgRecvSize] ] in
  opts <-
    (if negb (tap_MacPath cfg =? "") then
       r <- call (fun h => os_ReadFile w h (tap_MacPath cfg))
                 (EvReadFile (tap_MacPath cfg)) ;;
       macBytes <- require_NoError 94 r ;;
       mac <- require_NoError 98 (macaroon_UnmarshalBinary w macBytes) ;;
       macCred <- require_NoError 101
                    (macaroons_NewMacaroonCredential w mac) ;;
       ret (opts ++ [grpc_WithPerRPCCredentials macCred])
     else ret opts) ;;
  let svrAddr := Sprintf_s_d (tap_Host cfg) (tap_Port cfg) in
  r <- call (fun h => grpc_DialContext w h svrAddr opts)
            (EvDial svrAddr opts) ;;
  conn <- require_NoError 108 r ;;
  let assetsClient := taprpc_NewTaprootAssetsClient conn in
  let universeClient := universerpc_NewUniverseClient conn in
  let mintMintClient := mintrpc_NewMintClient conn in
  let assetWalletClient := assetwalletrpc_NewAssetWalletClient conn in
  let client := {| cfg := cfg;
                   rpc_TaprootAssetsClient := assetsClient;
                   rpc_UniverseClient := universeClient;
                   rpc_MintClient := mintMintClient;
                   rpc_AssetWalletClient := assetWalletClient |} in
  t_Cleanup (CloseConn conn) ;;;
  ret client.

(** ** utils.go:131-160 *)
Definition getBitcoinConn (cfg : BitcoinConfig) : M Client :=
  let rpcCert : bytes := [] in
  let disableTLS := (btc_TLSPath cfg =? "") in
  rpcCert <-
    (if negb disableTLS then
       r <- call (fun h => os_ReadFile w h (btc_TLSPath cfg))
                 (EvReadFile (btc_TLSPath cfg)) ;;
       require_NoError 143 r
     else ret rpcCert) ;;
  let connCfg := {| cc_Host := Sprintf_s_d (btc_Host cfg) (btc_Port cfg);
                    cc_User := btc_User cfg;
                    cc_Pass := btc_Password cfg;
                    cc_HTTPPostMode := true;
                    cc_DisableTLS := disableTLS;
                    cc_Certificates := rpcCert |} in
  r <- call (fun h => rpcclient_New w h connCfg) (EvNew connCfg) ;;
  client <- require_NoError 157 r ;;
  ret client.

(** Modelled from the spec: [itest.MineBlocks(t, client, num, numTxs)] is
    in the repository's itest package, outside the sources at hand.  The
    spec takes it as a black-box utility that mines [num] blocks on the
    chain backend and fails the test when it cannot; the blocks it returns
    are dropped by both callers.  [line] is the line of the call in
    utils.go, where the test stops when the helper fails it. *)
Definition MineBlocks (line : nat) (client : Client) (num numTxs : Z)
  : M unit :=
  r <- call (fun h => itest_MineBlocks w h client num numTxs)
            (EvMineBlocks client num numTxs) ;;
  require_NoError line r.

(** [alice.GetInfo(ctx, &taprpc.GetInfoRequest{})]: the method of the
    embedded asset-service stub. *)
Definition GetInfo (c : rpcClient) : M (result unit) :=
  call (fun h => rpc_GetInfo w h (rpc_TaprootAssetsClient c))
       (EvGetInfo (rpc_TaprootAssetsClient c)).

(** ** utils.go:39-67 *)
Definition initClients (cfg : Config) : M (rpcClient * rpcClient * Client) :=
  alice <- getTapClient (Tapd (Alice cfg)) ;;
  r <- GetInfo alice ;;
  require_NoError 46 r ;;;
  bob <- getTapClient (Tapd (Bob cfg)) ;;
  r <- GetInfo bob ;;
  require_NoError 51 r ;;;
  bitcoinClient <- getBitcoinConn (Bitcoin cfg) ;;
  MineBlocks 57 bitcoinClient 1 0 ;;;
  t_Cleanup (MineOnCleanup bitcoinClient) ;;;
  ret (alice, bob, bitcoinClient).

(** The bodies of the closures registered with [t.Cleanup]. *)
Definition run_cleanup (f : cleanup) : M unit :=
  match f with
  | CloseConn conn =>
      r <- call (fun h => conn_Close w h conn) (EvClose conn) ;;
      require_NoError 125 r
  | MineOnCleanup bitcoinClient =>
      MineBlocks 63 bitcoinClient 1 0
  end.

(** The runner at the end of a test, also of one that was stopped by a
    failed assertion: the functions are called one after the other, and a
    function that stops does not keep the rest from being called. *)
Fixpoint run_all (fs : list cleanup) (t : T) : list (outcome unit) * T :=
  match fs with
  | [] => ([], t)
  | f :: fs' =>
      let '(o, t1) := run_cleanup f t in
      let '(os, t2) := run_all fs' t1 in
      (o :: os, t2)
  end.

(** [testing]'s cleanup pass: last added, first called. *)
Definition runCleanup (t : T) : list (outcome unit) * T :=
  run_all (rev (cleanups t)) {| past := past t; cleanups := [] |}.

End Fixture.

(** ** Reading histories *)

Definition is_read (e : event) : bool :=
  match e with EvReadFile _ _ => true | _ => false end.
Definition is_dial (e : event) : bool :=
  match e with EvDial _ _ _ => true | _ => false end.
Definition is_probe (e : event) : bool :=
  match e with EvGetInfo _ _ => true | _ => false end.
Definition is_close (e : event) : bool :=
  match e with EvClose _ _ => true | _ => false end.
Definition is_new (e : event) : bool :=
  match e with EvNew _ _ => true | _ => false end.
Definition is_mine (e : event) : bool :=
  match e with EvMineBlocks _ _ _ _ => true | _ => false end.

(** How many entries of a history are of a kind. *)
Definition count (p : event -> bool) (h : history) : nat :=
  List.length (filter p h).

(** The bundle [getTapClient] assembles on a connection. *)
Definition bundle (c : TapConfig) (conn : ClientConn) : rpcClient :=
  {| cfg := c;
     rpc_TaprootAssetsClient := taprpc_NewTaprootAssetsClient conn;
     rpc_UniverseClient := universerpc_NewUniverseClient conn;
     rpc_MintClient := mintrpc_NewMintClient conn;
     rpc_AssetWalletClient := assetwalletrpc_NewAssetWalletClient conn |}.

(** The runner after more has happened. *)
Definition later (t : T) (h : history) : T :=
  {| past := past t ++ h; cleanups := cleanups t |}.

(** The runner with more cleanups registered. *)
Definition registered (t : T) (fs : list cleanup) : T :=
  {| past := past t; cleanups := cleanups t ++ fs |}.

(** The dial options [getTapClient] can arrive at for a configuration. *)
Definition built_options (c : TapConfig) (opts : list DialOption) : Prop :=
  exists creds,
    (tap_TLSPath c = "" -> creds = credentials_NewTLS tls_Config_zero) /\
    ((tap_MacPath c = "" /\
      opts = [ grpc_WithTransportCredentials creds;
               grpc_WithDefaultCallOptions [maxMsgRecvSize] ]) \/
     (tap_MacPath c <> "" /\
      exists macCred,
        opts = [ grpc_WithTransportCredentials creds;
                 grpc_WithDefaultCallOptions [maxMsgRecvSize];
                 grpc_WithPerRPCCredentials macCred ])).

(** ** Histories and runner states *)

(** What the runner [t'] has seen that [t], an earlier state of it, had
    not. *)
Definition emitted (t t' : T) : history :=
  skipn (List.length (past t)) (past t').

(** The options dialed with when neither credential file is configured. *)
Definition default_options : list DialOption :=
  [ grpc_WithTransportCredentials (credentials_NewTLS tls_Config_zero);
    grpc_WithDefaultCallOptions [maxMsgRecvSize] ].

(** A participant configuration with default trust: no certificate file
    and no token file. *)
Definition default_trust (c : TapConfig) : Prop :=
  tap_TLSPath c = "" /\ tap_MacPath c = "".

(** The connection configuration built at utils.go:147-154. *)
Definition chain_config (c : BitcoinConfig) (rpcCert : bytes) : ConnConfig :=
  {| cc_Host := Sprintf_s_d (btc_Host c) (btc_Port c);
     cc_User := btc_User c;
     cc_Pass := btc_Password c;
     cc_HTTPPostMode := true;
     cc_DisableTLS := (btc_TLSPath c =? "");
     cc_Certificates := rpcCert |}.

(** From the [n]-th call on, every channel that was dialed has the
    cleanup that closes it among the registered ones. *)
Definition covered (n : nat) (t : T) : Prop :=
  (n <= List.length (past t))%nat /\
  forall target opts conn,
    In (EvDial target opts (Ok conn)) (skipn n (past t)) ->
    In (CloseConn conn) (cleanups t).

(** ** The order of the steps *)

(** The two participants, A being Alice and B being Bob. *)
Inductive party : Type := PartyA | PartyB.

(** Where a run of the fixture stands, in the order of section 4.5 of the
    specification: participant A is set up and probed, then participant
    B, then the chain client is constructed, then a block is mined. *)
Inductive stage : Type :=
| Credentials (p : party)                 (* reading files, not yet dialed *)
| Dialed (p : party) (conn : ClientConn)  (* dialed, not yet probed *)
| Chain                                   (* both probed, no chain client *)
| Built (client : Client)                 (* chain client, no block yet *)
| Mined                                   (* all steps done *)
| Stopped.                                (* a call failed *)

(** Where the probe of a participant leads. *)
Definition after_probe (p : party) : stage :=
  match p with PartyA => Credentials PartyB | PartyB => Chain end.

(** Connection objects and client objects are the same when their
    identities are. *)
Definition conn_eqb (a b : ClientConn) : bool :=
  match a, b with ClientConnAt i, ClientConnAt j => Nat.eqb i j end.

Definition client_eqb (a b : Client) : bool :=
  match a, b with ClientAt i, ClientAt j => Nat.eqb i j end.

(** The configuration of a participant. *)
Definition party_config (c : Config) (p : party) : TapConfig :=
  match p with PartyA => Tapd (Alice c) | PartyB => Tapd (Bob c) end.

(** The address a participant is dialed at, and the address the chain
    client is constructed for. *)
Definition party_address (c : Config) (p : party) : string :=
  Sprintf_s_d (tap_Host (party_config c p)) (tap_Port (party_config c p)).

Definition chain_address (c : Config) : string :=
  Sprintf_s_d (btc_Host (Bitcoin c)) (btc_Port (Bitcoin c)).

(** The path is one of the credential files the participant's
    configuration names. *)
Definition credential_path (c : Config) (p : party) (path : string) : bool :=
  negb (path =? "") &&
  ((path =? tap_TLSPath (party_config c p)) ||
   (path =? tap_MacPath (party_config c p))).

(** The calls a stage allows under a configuration, and the stage each
    leads to.  While a participant's credentials are loaded, only that
    participant's files are read and only that participant's address is
    dialed; the probe is on the connection just dialed; the chain stage
    reads the chain certificate and constructs a client for the chain
    address; the block is mined on the client just constructed.  A stage
    takes no call of an earlier or of a later stage, and after a failed
    call nothing is allowed. *)
Definition step (c : Config) (s : stage) (e : event) : option stage :=
  match s, e with
  | Credentials p, EvReadFile path r =>
      if credential_path c p path
      then Some match r with Ok _ => Credentials p | Err _ => Stopped end
      else None
  | Credentials p, EvDial target _ r =>
      if target =? party_address c p
      then Some match r with Ok conn => Dialed p conn | Err _ => Stopped end
      else None
  | Dialed p conn, EvGetInfo (taprpc_NewTaprootAssetsClient conn') r =>
      if conn_eqb conn conn'
      then Some match r with Ok _ => after_probe p | Err _ => Stopped end
      else None
  | Chain, EvReadFile path r =>
      if negb (path =? "") && (path =? btc_TLSPath (Bitcoin c))
      then Some match r with Ok _ => Chain | Err _ => Stopped end
      else None
  | Chain, EvNew config r =>
      if cc_Host config =? chain_address c
      then Some match r with Ok client => Built client | Err _ => Stopped end
      else None
  | Built client, EvMineBlocks client' num numTxs r =>
      if client_eqb client client' && (num =? 1)%Z && (numTxs =? 0)%Z
      then Some match r with Ok _ => Mined | Err _ => Stopped end
      else None
  | _, _ => None
  end.

(** The stage a history leads to from [s], if every call of it is
    allowed where it stands. *)
Fixpoint walk (c : Config) (s : stage) (h : history) : option stage :=
  match h with
  | [] => Some s
  | e :: h' =>
      match step c s e with
      | Some s' => walk c s' h'
      | None => None
      end
  end.

(** ** Runs, taken apart *)

Section Shapes.

Variable w : World.

(** The certificate block of [getTapClient] on its own (utils.go:72-83). *)
Definition tls_block (c : TapConfig) : M TransportCredentials :=
  if negb (tap_TLSPath c =? "") then
    r <- call (fun h => os_ReadFile w h (tap_TLSPath c))
              (EvReadFile (tap_TLSPath c)) ;;
    tlsCert <- require_NoError 76 r ;;
    let cp := x509_NewCertPool in
    let '(cp, ok) := AppendCertsFromPEM w cp tlsCert in
    require_True 80 ok ;;;
    ret (credentials_NewClientTLSFromCert cp "")
  else ret (credentials_NewTLS tls_Config_zero).

(** The token block of [getTapClient] on its own (utils.go:86-104). *)
Definition mac_block (c : TapConfig) (opts : list DialOption)
  : M (list DialOption) :=
  if negb (tap_MacPath c =? "") then
    r <- call (fun h => os_ReadFile w h (tap_MacPath c))
              (EvReadFile (tap_MacPath c)) ;;
    macBytes <- require_NoError 94 r ;;
    mac <- require_NoError 98 (macaroon_UnmarshalBinary w macBytes) ;;
    macCred <- require_NoError 101
                 (macaroons_NewMacaroonCredential w mac) ;;
    ret (opts ++ [grpc_WithPerRPCCredentials macCred])
  else ret opts.

(** The rest of [getTapClient] on its own (utils.go:106-128). *)
Definition dial_block (c : TapConfig) (opts : list DialOption)
  : M rpcClient :=
  let target := Sprintf_s_d (tap_Host c) (tap_Port c) in
  r <- call (fun h => grpc_DialContext w h target opts)
            (EvDial target opts) ;;
  conn <- require_NoError 108 r ;;
  t_Cleanup (CloseConn conn) ;;;
  ret (bundle c conn).

(** Building and probing one participant, as [initClients] does twice. *)
Definition join (c : TapConfig) (line : nat) : M rpcClient :=
  client <- getTapClient w c ;;
  r <- GetInfo w client ;;
  require_NoError line r ;;;
  ret client.

(** What the certificate block can do. *)
Inductive tls_run (c : TapConfig) (t : T)
  : outcome TransportCredentials -> T -> Prop :=
| tls_default :
    tap_TLSPath c = "" ->
    tls_run c t (Done (credentials_NewTLS tls_Config_zero)) t
| tls_unreadable e :
    tap_TLSPath c <> "" ->
    os_ReadFile w (past t) (tap_TLSPath c) = Err e ->
    tls_run c t (Fatal 76 (NoErrorFailed e))
      (later t [EvReadFile (tap_TLSPath c) (Err e)])
| tls_no_certificate pem :
    tap_TLSPath c <> "" ->
    os_ReadFile w (past t) (tap_TLSPath c) = Ok pem ->
    pem_certificates w pem = [] ->
    tls_run c t (Fatal 80 TrueFailed)
      (later t [EvReadFile (tap_TLSPath c) (Ok pem)])
| tls_pool pem :
    tap_TLSPath c <> "" ->
    os_ReadFile w (past t) (tap_TLSPath c) = Ok pem ->
    pem_certificates w pem <> [] ->
    tls_run c t
      (Done (credentials_NewClientTLSFromCert (pem_certificates w pem) ""))
      (later t [EvReadFile (tap_TLSPath c) (Ok pem)]).

(** What the token block can do. *)
Inductive mac_run (c : TapConfig) (opts : list DialOption) (t : T)
  : outcome (list DialOption) -> T -> Prop :=
| mac_none :
    tap_MacPath c = "" ->
    mac_run c opts t (Done opts) t
| mac_unreadable e :
    tap_MacPath c <> "" ->
    os_ReadFile w (past t) (tap_MacPath c) = Err e ->
    mac_run c opts t (Fatal 94 (NoErrorFailed e))
      (later t [EvReadFile (tap_MacPath c) (Err e)])
| mac_undecodable macBytes e :
    tap_MacPath c <> "" ->
    os_ReadFile w (past t) (tap_MacPath c) = Ok macBytes ->
    macaroon_UnmarshalBinary w macBytes = Err e ->
    mac_run c opts t (Fatal 98 (NoErrorFailed e))
      (later t [EvReadFile (tap_MacPath c) (Ok macBytes)])
| mac_unwrappable macBytes mac e :
    tap_MacPath c <> "" ->
    os_ReadFile w (past t) (tap_MacPath c) = Ok macBytes ->
    macaroon_UnmarshalBinary w macBytes = Ok mac ->
    macaroons_NewMacaroonCredential w mac = Err e ->
    mac_run c opts t (Fatal 101 (NoErrorFailed e))
      (later t [EvReadFile (tap_MacPath c) (Ok macBytes)])
| mac_attached macBytes mac macCred :
    tap_MacPath c <> "" ->
    os_ReadFile w (past t) (tap_MacPath c) = Ok macBytes ->
    macaroon_UnmarshalBinary w macBytes = Ok mac ->
    macaroons_NewMacaroonCredential w mac = Ok macCred ->
    mac_run c opts t (Done (opts ++ [grpc_WithPerRPCCredentials macCred]))
      (later t [EvReadFile (tap_MacPath c) (Ok macBytes)]).

(** What the dial block can do (utils.go:106-128). *)
Inductive dial_run (c : TapConfig) (opts : list DialOption) (t : T)
  : outcome rpcClient -> T -> Prop :=
| dial_refused e :
    grpc_DialContext w (past t)
      (Sprintf_s_d (tap_Host c) (tap_Port c)) opts = Err e ->
    dial_run c opts t (Fatal 108 (NoErrorFailed e))
      (later t [EvDial (Sprintf_s_d (tap_Host c) (tap_Port c)) opts (Err e)])
| dial_open conn :
    grpc_DialContext w (past t)
      (Sprintf_s_d (tap_Host c) (tap_Port c)) opts = Ok conn ->
    dial_run c opts t (Done (bundle c conn))
      (registered
         (later t
            [EvDial (Sprintf_s_d (tap_Host c) (tap_Port c)) opts (Ok conn)])
         [CloseConn conn]).

(** A run reads credential files and then either stops on a credential,
    or dials once, as its last call: a failed dial stops the test, a
    dial that went through registers the close of its connection. *)
Inductive tap_run (c : TapConfig) (t : T) : outcome rpcClient -> T -> Prop :=
| tap_stopped reads l f :
    forallb is_read reads = true ->
    In l [76; 80; 94; 98; 101]%nat ->
    (tap_TLSPath c = "" -> l <> 76 /\ l <> 80)%nat ->
    (tap_MacPath c = "" -> l <> 94 /\ l <> 98 /\ l <> 101)%nat ->
    tap_run c t (Fatal l f) (later t reads)
| tap_dial_failed reads opts e :
    forallb is_read reads = true ->
    built_options c opts ->
    grpc_DialContext w (past t ++ reads)
      (Sprintf_s_d (tap_Host c) (tap_Port c)) opts = Err e ->
    tap_run c t (Fatal 108 (NoErrorFailed e))
      (later t (reads ++
         [EvDial (Sprintf_s_d (tap_Host c) (tap_Port c)) opts (Err e)]))
| tap_dialed reads opts conn :
    forallb is_read reads = true ->
    built_options c opts ->
    grpc_DialContext w (past t ++ reads)
      (Sprintf_s_d (tap_Host c) (tap_Port c)) opts = Ok conn ->
    tap_run c t (Done (bundle c conn))
      (registered
         (later t (reads ++
            [EvDial (Sprintf_s_d (tap_Host c) (tap_Port c)) opts (Ok conn)]))
         [CloseConn conn]).

(** What is read before the connection is configured, and the certificate
    bytes that come of it. *)
Inductive chain_material (c : BitcoinConfig) (t : T)
  : history -> bytes -> Prop :=
| material_none :
    btc_TLSPath c = "" -> chain_material c t [] []
| material_read rpcCert :
    btc_TLSPath c <> "" ->
    os_ReadFile w (past t) (btc_TLSPath c) = Ok rpcCert ->
    chain_material c t [EvReadFile (btc_TLSPath c) (Ok rpcCert)] rpcCert.

(** A run of [getBitcoinConn] stops on an unreadable certificate file, or
    configures the connection and ends as its construction does. *)
Inductive btc_run (c : BitcoinConfig) (t : T) : outcome Client -> T -> Prop :=
| btc_unreadable e :
    btc_TLSPath c <> "" ->
    os_ReadFile w (past t) (btc_TLSPath c) = Err e ->
    btc_run c t (Fatal 143 (NoErrorFailed e))
      (later t [EvReadFile (btc_TLSPath c) (Err e)])
| btc_refused reads rpcCert e :
    chain_material c t reads rpcCert ->
    rpcclient_New w (past t ++ reads) (chain_config c rpcCert) = Err e ->
    btc_run c t (Fatal 157 (NoErrorFailed e))
      (later t (reads ++ [EvNew (chain_config c rpcCert) (Err e)]))
| btc_built reads rpcCert client :
    chain_material c t reads rpcCert ->
    rpcclient_New w (past t ++ reads) (chain_config c rpcCert) = Ok client ->
    btc_run c t (Done client)
      (later t (reads ++ [EvNew (chain_config c rpcCert) (Ok client)])).

(** One participant: its bundle is built and then probed; [line] is where
    the probe's error is checked. *)
Inductive joined (c : TapConfig) (line : nat) (t : T)
  : outcome rpcClient -> T -> Prop :=
| joined_stopped l f t1 :
    getTapClient w c t = (Fatal l f, t1) ->
    joined c line t (Fatal l f) t1
| joined_silent client t1 e :
    getTapClient w c t = (Done client, t1) ->
    rpc_GetInfo w (past t1) (rpc_TaprootAssetsClient client) = Err e ->
    joined c line t (Fatal line (NoErrorFailed e))
      (later t1 [EvGetInfo (rpc_TaprootAssetsClient client) (Err e)])
| joined_alive client t1 u :
    getTapClient w c t = (Done client, t1) ->
    rpc_GetInfo w (past t1) (rpc_TaprootAssetsClient client) = Ok u ->
    joined c line t (Done client)
      (later t1 [EvGetInfo (rpc_TaprootAssetsClient client) (Ok u)]).

(** A run of [initClients] is stopped with participant A, with
    participant B, with the chain client or with the first block, or it
    returns with the mining cleanup registered. *)
Inductive init_run (c : Config) (t : T)
  : outcome (rpcClient * rpcClient * Client) -> T -> Prop :=
| init_no_alice l f t1 :
    joined (Tapd (Alice c)) 46 t (Fatal l f) t1 ->
    init_run c t (Fatal l f) t1
| init_no_bob alice t1 l f t2 :
    joined (Tapd (Alice c)) 46 t (Done alice) t1 ->
    joined (Tapd (Bob c)) 51 t1 (Fatal l f) t2 ->
    init_run c t (Fatal l f) t2
| init_no_chain alice t1 bob t2 l f t3 :
    joined (Tapd (Alice c)) 46 t (Done alice) t1 ->
    joined (Tapd (Bob c)) 51 t1 (Done bob) t2 ->
    getBitcoinConn w (Bitcoin c) t2 = (Fatal l f, t3) ->
    init_run c t (Fatal l f) t3
| init_no_block alice t1 bob t2 bitcoinClient t3 e :
    joined (Tapd (Alice c)) 46 t (Done alice) t1 ->
    joined (Tapd (Bob c)) 51 t1 (Done bob) t2 ->
    getBitcoinConn w (Bitcoin c) t2 = (Done bitcoinClient, t3) ->
    itest_MineBlocks w (past t3) bitcoinClient 1 0 = Err e ->
    init_run c t (Fatal 57 (NoErrorFailed e))
      (later t3 [EvMineBlocks bitcoinClient 1 0 (Err e)])
| init_ready alice t1 bob t2 bitcoinClient t3 u :
    joined (Tapd (Alice c)) 46 t (Done alice) t1 ->
    joined (Tapd (Bob c)) 51 t1 (Done bob) t2 ->
    getBitcoinConn w (Bitcoin c) t2 = (Done bitcoinClient, t3) ->
    itest_MineBlocks w (past t3) bitcoinClient 1 0 = Ok u ->
    init_run c t (Done (alice, bob, bitcoinClient))
      (registered (later t3 [EvMineBlocks bitcoinClient 1 0 (Ok u)])
         [MineOnCleanup bitcoinClient]).

(** ** The cleanup pass and the whole test *)

(** What calling a cleanup function adds to a history. *)
Definition cleanup_event (h : history) (f : cleanup) : event :=
  match f with
  | CloseConn conn => EvClose conn (conn_Close w h conn)
  | MineOnCleanup bitcoinClient =>
      EvMineBlocks bitcoinClient 1 0 (itest_MineBlocks w h bitcoinClient 1 0)
  end.

(** What the cleanup pass adds to a history, given the functions in the
    order they are called. *)
Fixpoint teardown_events (h : history) (fs : list cleanup) : history :=
  match fs with
  | [] => []
  | f :: fs' =>
      cleanup_event h f :: teardown_events (h ++ [cleanup_event h f]) fs'
  end.

(** The calls a cleanup function makes when it is called after [h]. *)
Definition calls_of (f : cleanup) (h : history) : history :=
  emitted {| past := h; cleanups := [] |}
          (snd (run_cleanup w f {| past := h; cleanups := [] |})).

(** A test starts with no cleanup registered, calls [initClients], goes
    on with its body if the fixture returned (the body's own calls are
    [body]), and ends, stopped or not, with the cleanup pass.  The result
    is what [initClients] came to, the calls of the setup and the calls
    of the teardown. *)
Definition test_run (c : Config) (h0 body : history)
  : outcome (rpcClient * rpcClient * Client) * history * history :=
  let t0 := {| past := h0; cleanups := [] |} in
  let '(o, t1) := initClients w c t0 in
  let t2 := match o with Done _ => later t1 body | Fatal _ _ => t1 end in
  let '(_, t3) := runCleanup w t2 in
  (o, emitted t0 t1, emitted t2 t3).

(** The three parts of the result of [test_run]. *)
Definition setup_of {A} (x : A * history * history) : history := snd (fst x).
Definition teardown_of {A} (x : A * history * history) : history := snd x.
Definition outcome_of {A} (x : A * history * history) : A := fst (fst x).

(** ** Conditions on the outside *)

(** The file at a path reads as the same bytes whenever it is read. *)
Definition file_holds (path : string) (content : bytes) : Prop :=
  forall h, os_ReadFile w h path = Ok content.

(** The bytes do not make a per-call credential: they do not decode as a
    macaroon, or the decoded macaroon cannot be wrapped. *)
Definition token_rejected (macBytes : bytes) : Prop :=
  (exists e, macaroon_UnmarshalBinary w macBytes = Err e) \/
  (exists mac e, macaroon_UnmarshalBinary w macBytes = Ok mac /\
                 macaroons_NewMacaroonCredential w mac = Err e).

(** The outside answers every dial, probe, construction and mining. *)
Definition responsive : Prop :=
  (forall h target opts, exists conn,
      grpc_DialContext w h target opts = Ok conn) /\
  (forall h s, rpc_GetInfo w h s = Ok tt) /\
  (forall h config, exists client, rpcclient_New w h config = Ok client) /\
  (forall h client, itest_MineBlocks w h client 1 0 = Ok tt).

End Shapes.

(** ** More ways to read histories and cleanups *)

(** The connections opened by the dials of a history that went through,
    in the order they were opened. *)
Fixpoint dialed (h : history) : list ClientConn :=
  match h with
  | [] => []
  | EvDial _ _ (Ok conn) :: h' => conn :: dialed h'
  | _ :: h' => dialed h'
  end.

(** The connections on which a history calls [Close], in order. *)
Fixpoint closed (h : history) : list ClientConn :=
  match h with
  | [] => []
  | EvClose conn _ :: h' => conn :: closed h'
  | _ :: h' => closed h'
  end.

(** The connections a list of cleanups will close, in order. *)
Fixpoint closers (fs : list cleanup) : list ClientConn :=
  match fs with
  | [] => []
  | CloseConn conn :: fs' => conn :: closers fs'
  | MineOnCleanup _ :: fs' => closers fs'
  end.

(** The chain clients a list of cleanups will mine on, in order. *)
Fixpoint miners (fs : list cleanup) : list Client :=
  match fs with
  | [] => []
  | CloseConn _ :: fs' => miners fs'
  | MineOnCleanup bitcoinClient :: fs' => bitcoinClient :: miners fs'
  end.

(** The paths a history reads, in order. *)
Fixpoint paths_read (h : history) : list string :=
  match h with
  | [] => []
  | EvReadFile path _ :: h' => path :: paths_read h'
  | _ :: h' => paths_read h'
  end.


(** The call came back with an error. *)
Definition failed (e : event) : bool :=
  match e with
  | EvReadFile _ (Err _) | EvDial _ _ (Err _) | EvGetInfo _ (Err _)
  | EvClose _ (Err _) | EvNew _ (Err _) | EvMineBlocks _ _ _ (Err _) => true
  | _ => false
  end.

Definition is_Done {A} (o : outcome A) : bool :=
  match o with Done _ => true | Fatal _ _ => false end.

(** The cleanup [initClients] registers itself, which it does only when
    it returns. *)
Definition mining_cleanup (o : outcome (rpcClient * rpcClient * Client))
  : list cleanup :=
  match o with
  | Done (_, _, bitcoinClient) => [MineOnCleanup bitcoinClient]
  | Fatal _ _ => []
  end.

(** From [t] to [t'] the calls [tr] were made, and the cleanups added
    are one close for each connection [tr] opened, followed by [extra]. *)
Definition grows (t t' : T) (tr : history) (extra : list cleanup) : Prop :=
  past t' = past t ++ tr /\
  cleanups t' = cleanups t ++ map CloseConn (dialed tr) ++ extra.

(** A history with no more than so many reads, dials, probes,
    constructions and minings, and with no close. *)
Definition spends (tr : history) (reads dials probes news mines : nat)
  : Prop :=
  (count is_read tr <= reads)%nat /\
  (count is_dial tr <= dials)%nat /\
  (count is_probe tr <= probes)%nat /\
  (count is_new tr <= news)%nat /\
  (count is_mine tr <= mines)%nat /\
  count is_close tr = 0%nat.

(** The error a call came back with, if it did. *)
Definition error_of (e : event) : option error :=
  match e with
  | EvReadFile _ (Err x) | EvDial _ _ (Err x) | EvGetInfo _ (Err x)
  | EvClose _ (Err x) | EvNew _ (Err x) | EvMineBlocks _ _ _ (Err x) => Some x
  | _ => None
  end.

(** The calls [tr] and what they came to, [o], agree on failures: a run
    that returned saw no call fail; a run that was stopped either saw no
    call fail (it rejected what a file held), or its last call, and no
    other, failed, and it was stopped on the error of that call. *)
Definition stops_at_failure {A} (tr : history) (o : outcome A) : Prop :=
  match o with
  | Done _ => existsb failed tr = false
  | Fatal _ f =>
      existsb failed tr = false \/
      exists before e err,
        tr = before ++ [e] /\
        existsb failed before = false /\
        error_of e = Some err /\
        f = NoErrorFailed err
  end.

(** The string has no colon in it. *)
Fixpoint no_colon (s : string) : bool :=
  match s with
  | EmptyString => true
  | String a s' => negb (Ascii.eqb a ":"%char) && no_colon s'
  end.

(** ** Why a run ends *)

(** The bytes read from [path] are a credential that a participant
    configuration names and that [getTapClient] turns down, stopping at
    [line] on [f]: a certificate file with no certificate in it
    (utils.go:80), a token file that does not decode (utils.go:98) or a
    token that cannot be wrapped (utils.go:101). *)
Definition rejected_credential (w : World) (c : TapConfig) (path : string)
  (content : bytes) (line : nat) (f : failure) : Prop :=
  (path = tap_TLSPath c /\ pem_certificates w content = [] /\
   line = 80%nat /\ f = TrueFailed) \/
  (path = tap_MacPath c /\
   ((exists e, macaroon_UnmarshalBinary w content = Err e /\
               line = 98%nat /\ f = NoErrorFailed e) \/
    (exists mac e, macaroon_UnmarshalBinary w content = Ok mac /\
                   macaroons_NewMacaroonCredential w mac = Err e /\
                   line = 101%nat /\ f = NoErrorFailed e))).

(** The three ways a run of the fixture ends, by the stage its calls [tr]
    lead to.  At [Mined] it returned.  At [Stopped] its last call failed
    and it was stopped on that call's error.  At [Credentials p] its last
    call read a credential file of participant [p] and it was stopped
    because it turned the content down.  It ends at no other stage. *)
Definition ends_at {A} (w : World) (c : Config) (tr : history)
  (o : outcome A) (s : stage) : Prop :=
  match s with
  | Mined => exists v, o = Done v
  | Stopped =>
      exists before e line err,
        tr = before ++ [e] /\ error_of e = Some err /\
        o = Fatal line (NoErrorFailed err)
  | Credentials p =>
      exists before path content line f,
        tr = before ++ [EvReadFile path (Ok content)] /\
        o = Fatal line f /\
        rejected_credential w (party_config c p) path content line f
  | _ => False
  end.

(** ** The cleanup pass, read back *)

(** The cleanup function a call of the cleanup pass belongs to: a close
    to the cleanup closing that connection, a mining of one block with no
    transactions to the cleanup mining on that client. *)
Definition cleanup_of_event (e : event) : option cleanup :=
  match e with
  | EvClose conn _ => Some (CloseConn conn)
  | EvMineBlocks bitcoinClient num numTxs _ =>
      if ((num =? 1) && (numTxs =? 0))%Z
      then Some (MineOnCleanup bitcoinClient) else None
  | _ => None
  end.

(** What a cleanup function that made the call [e] came to: it failed at
    the assertion on the call's error (utils.go:125 for a close,
    utils.go:63 for a mining) when the call failed, and returned
    otherwise. *)
Definition cleanup_outcome (e : event) : outcome unit :=
  match e with
  | EvClose _ (Err x) => Fatal 125 (NoErrorFailed x)
  | EvMineBlocks _ _ _ (Err x) => Fatal 63 (NoErrorFailed x)
  | _ => Done tt
  end.

(** ** Concrete outsides and configurations *)

Module Sample.

(** A small file system. *)
Definition files (path : string) : result bytes :=
  if path =? "/tapd/tls.cert" then Ok [x2d; x2d; x42; x45]
  else if path =? "/tapd/admin.macaroon" then Ok [x02; x01; x07]
  else if path =? "/tapd/empty.pem" then Ok [x0a]
  else if path =? "/tapd/garbage.macaroon" then Ok [xff; x00]
  else if path =? "/btcd/rpc.cert" then Ok [x2d; x2d; x43]
  else Err "open: no such file or directory".

(** An outside in which every service answers, except that probes are
    answered by [probe]; a PEM file yields a certificate when it starts
    with a dash, a token decodes when it starts with the version byte 2. *)
Definition world_probing
  (probe : history -> TaprootAssetsClient -> result unit) : World :=
  {| os_ReadFile := fun _ path => files path;
     pem_certificates :=
       fun pem => match pem with x2d :: _ => [DER pem] | _ => [] end;
     macaroon_UnmarshalBinary :=
       fun b => match b with
                | x02 :: _ => Ok (MacaroonOf b)
                | _ => Err "unsupported macaroon version"
                end;
     macaroons_NewMacaroonCredential := fun m => Ok (MacaroonCredentialOf m);
     grpc_DialContext := fun h _ _ => Ok (ClientConnAt (List.length h));
     rpc_GetInfo := probe;
     conn_Close := fun _ _ => Ok tt;
     rpcclient_New := fun h _ => Ok (ClientAt (List.length h));
     itest_MineBlocks := fun _ _ _ _ => Ok tt |}.

Definition world_up : World := world_probing (fun _ _ => Ok tt).

(** No daemon answers a probe. *)
Definition world_deaf : World :=
  world_probing (fun _ _ => Err "rpc error: code = Unavailable").

(** Only the first daemon dialed answers its probe. *)
Definition world_half : World :=
  world_probing (fun h _ =>
    if (2 <=? count is_dial h)%nat
    then Err "rpc error: code = Unavailable" else Ok tt).

Definition tap_plain (port : Z) : TapConfig :=
  {| tap_Host := "localhost"; tap_Port := port;
     tap_TLSPath := ""; tap_MacPath := "" |}.

Definition tap_secure : TapConfig :=
  {| tap_Host := "alice.example"; tap_Port := 10029;
     tap_TLSPath := "/tapd/tls.cert";
     tap_MacPath := "/tapd/admin.macaroon" |}.

Definition tap_empty_pool : TapConfig :=
  {| tap_Host := "alice.example"; tap_Port := 10029;
     tap_TLSPath := "/tapd/empty.pem";
     tap_MacPath := "/tapd/admin.macaroon" |}.

Definition tap_bad_token : TapConfig :=
  {| tap_Host := "alice.example"; tap_Port := 10029;
     tap_TLSPath := "";
     tap_MacPath := "/tapd/garbage.macaroon" |}.

Definition tap_no_token : TapConfig :=
  {| tap_Host := "alice.example"; tap_Port := 10029;
     tap_TLSPath := "/tapd/empty.pem";
     tap_MacPath := "" |}.

Definition btc_plain : BitcoinConfig :=
  {| btc_Host := "localhost"; btc_Port := 18443;
     btc_User := "lightning"; btc_Password := "lightning";
     btc_TLSPath := "" |}.

Definition btc_secure : BitcoinConfig :=
  {| btc_Host := "localhost"; btc_Port := 18443;
     btc_User := "lightning"; btc_Password := "lightning";
     btc_TLSPath := "/btcd/rpc.cert" |}.

Definition config_plain : Config :=
  {| Alice := {| Tapd := tap_plain 10029 |};
     Bob := {| Tapd := tap_plain 10030 |};
     Bitcoin := btc_plain |}.

Definition config_secure : Config :=
  {| Alice := {| Tapd := tap_secure |};
     Bob := {| Tapd := tap_plain 10030 |};
     Bitcoin := btc_secure |}.

(** A test that has just started. *)
Definition fresh : T := {| past := []; cleanups := [] |}.

Definition unavailable : error := "rpc error: code = Unavailable".

(** Participant configurations with one credential file only. *)
Definition tap_token_only : TapConfig :=
  {| tap_Host := "alice.example"; tap_Port := 10029;
     tap_TLSPath := "";
     tap_MacPath := "/tapd/admin.macaroon" |}.

Definition tap_cert_only : TapConfig :=
  {| tap_Host := "bob.example"; tap_Port := 10030;
     tap_TLSPath := "/tapd/tls.cert";
     tap_MacPath := "" |}.

(** Two participants at different addresses, each with a credential
    file of its own kind. *)
Definition config_both : Config :=
  {| Alice := {| Tapd := tap_token_only |};
     Bob := {| Tapd := tap_cert_only |};
     Bitcoin := btc_secure |}.

(** The options these two are dialed with when their files load. *)
Definition token_only_options : list DialOption :=
  [ grpc_WithTransportCredentials (credentials_NewTLS tls_Config_zero);
    grpc_WithDefaultCallOptions [maxMsgRecvSize];
    grpc_WithPerRPCCredentials
      (MacaroonCredentialOf (MacaroonOf [x02; x01; x07])) ].

Definition cert_only_options : list DialOption :=
  [ grpc_WithTransportCredentials
      (credentials_NewClientTLSFromCert [DER [x2d; x2d; x42; x45]] "");
    grpc_WithDefaultCallOptions [maxMsgRecvSize] ].

(** Participant A with a token that does not decode. *)
Definition config_bad_token : Config :=
  {| Alice := {| Tapd := tap_bad_token |};
     Bob := {| Tapd := tap_cert_only |};
     Bitcoin := btc_secure |}.

(** [config_both] with the two participants exchanged. *)
Definition config_swapped : Config :=
  {| Alice := {| Tapd := tap_cert_only |};
     Bob := {| Tapd := tap_token_only |};
     Bitcoin := btc_secure |}.

(** What [initClients] returns on [config_secure] when all goes well. *)
Definition alice_secure : rpcClient := bundle tap_secure (ClientConnAt 2).
Definition bob_secure : rpcClient := bundle (tap_plain 10030) (ClientConnAt 4).
Definition chain_secure : Client := ClientAt 7.

End Sample.

(** ** More outsides *)

Module MoreSamples.

Import Sample.

(** [base] with another chain backend behind [itest.MineBlocks]. *)
Definition with_mining (base : World)
  (mine : history -> Client -> Z -> Z -> result unit) : World :=
  {| os_ReadFile := os_ReadFile base;
     pem_certificates := pem_certificates base;
     macaroon_UnmarshalBinary := macaroon_UnmarshalBinary base;
     macaroons_NewMacaroonCredential := macaroons_NewMacaroonCredential base;
     grpc_DialContext := grpc_DialContext base;
     rpc_GetInfo := rpc_GetInfo base;
     conn_Close := conn_Close base;
     rpcclient_New := rpcclient_New base;
     itest_MineBlocks := mine |}.

(** [base] with channels that close as [close] says. *)
Definition with_close (base : World)
  (close : history -> ClientConn -> result unit) : World :=
  {| os_ReadFile := os_ReadFile base;
     pem_certificates := pem_certificates base;
     macaroon_UnmarshalBinary := macaroon_UnmarshalBinary base;
     macaroons_NewMacaroonCredential := macaroons_NewMacaroonCredential base;
     grpc_DialContext := grpc_DialContext base;
     rpc_GetInfo := rpc_GetInfo base;
     conn_Close := close;
     rpcclient_New := rpcclient_New base;
     itest_MineBlocks := itest_MineBlocks base |}.

(** [base] with a chain backend that refuses every construction. *)
Definition with_no_chain (base : World) : World :=
  {| os_ReadFile := os_ReadFile base;
     pem_certificates := pem_certificates base;
     macaroon_UnmarshalBinary := macaroon_UnmarshalBinary base;
     macaroons_NewMacaroonCredential := macaroons_NewMacaroonCredential base;
     grpc_DialContext := grpc_DialContext base;
     rpc_GetInfo := rpc_GetInfo base;
     conn_Close := conn_Close base;
     rpcclient_New := fun _ _ => Err "rpcclient: invalid configuration";
     itest_MineBlocks := itest_MineBlocks base |}.

(** The chain backend cannot mine. *)
Definition world_no_block : World :=
  with_mining world_up (fun _ _ _ _ => Err "generate: no wallet").

(** The first channel closed reports an error. *)
Definition world_bad_close : World :=
  with_close world_up (fun h _ =>
    match closed h with
    | [] => Err "rpc error: code = Canceled"
    | _ :: _ => Ok tt
    end).

Definition world_no_chain : World := with_no_chain world_up.

(** A certificate path that names no file. *)
Definition tap_missing_cert : TapConfig :=
  {| tap_Host := "alice.example"; tap_Port := 10029;
     tap_TLSPath := "/tapd/missing.cert";
     tap_MacPath := "/tapd/admin.macaroon" |}.

(** A token path that names no file. *)
Definition tap_missing_token : TapConfig :=
  {| tap_Host := "alice.example"; tap_Port := 10029;
     tap_TLSPath := "/tapd/tls.cert";
     tap_MacPath := "/tapd/missing.macaroon" |}.

(** The error of the small file system for a path that names no file. *)
Definition no_such_file : error := "open: no such file or directory".

(** The options [tap_secure] is dialed with when its files load. *)
Definition secure_options : list DialOption :=
  [ grpc_WithTransportCredentials
      (credentials_NewClientTLSFromCert [DER [x2d; x2d; x42; x45]] "");
    grpc_WithDefaultCallOptions [maxMsgRecvSize];
    grpc_WithPerRPCCredentials
      (MacaroonCredentialOf (MacaroonOf [x02; x01; x07])) ].

End MoreSamples.


(** * Facts *)

Section Runs.

Variable w : World.

(** ** The shapes of a run of [getTapClient] *)

Lemma later_nil (t : T) : later t [] = t.
Proof. destruct t; unfold later; simpl; now rewrite app_nil_r. Qed.

Lemma later_later (t : T) (h1 h2 : history) :
  later (later t h1) h2 = later t (h1 ++ h2).
Proof. unfold later; simpl; now rewrite app_assoc. Qed.

Lemma eqb_empty_false (s : string) : (s =? "") = false -> s <> "".
Proof. intros H E; subst; discriminate. Qed.

Lemma eqb_empty_true (s : string) : (s =? "") = true -> s = "".
Proof. apply String.eqb_eq. Qed.

(** [getTapClient] is its three blocks, one after the other. *)
Lemma getTapClient_blocks (c : TapConfig) :
  getTapClient w c =
  (creds <- tls_block w c ;;
   opts <- mac_block w c [ grpc_WithTransportCredentials creds;
                           grpc_WithDefaultCallOptions [maxMsgRecvSize] ] ;;
   dial_block w c opts).
Proof. reflexivity. Qed.

Lemma tls_block_shape (c : TapConfig) (t : T) :
  tls_run w c t (fst (tls_block w c t)) (snd (tls_block w c t)).
Proof.
  unfold tls_block.
  destruct (tap_TLSPath c =? "") eqn:Etls; cbn [negb].
  - apply eqb_empty_true in Etls. now apply tls_default.
  - apply eqb_empty_false in Etls.
    unfold bind, call, require_NoError, require_True, ret,
      AppendCertsFromPEM, x509_NewCertPool.
    cbn [past cleanups].
    destruct (os_ReadFile w (past t) (tap_TLSPath c)) as [pem|e] eqn:Er.
    + destruct (pem_certificates w pem) as [|crt crts] eqn:Ep; simpl.
      * now apply tls_no_certificate.
      * rewrite <- Ep. apply tls_pool; try assumption. congruence.
    + simpl. now apply tls_unreadable.
Qed.

Lemma mac_block_shape (c : TapConfig) (opts : list DialOption) (t : T) :
  mac_run w c opts t (fst (mac_block w c opts t)) (snd (mac_block w c opts t)).
Proof.
  unfold mac_block.
  destruct (tap_MacPath c =? "") eqn:Emac; cbn [negb].
  - apply eqb_empty_true in Emac. now apply mac_none.
  - apply eqb_empty_false in Emac.
    unfold bind, call, require_NoError, ret.
    cbn [past cleanups].
    destruct (os_ReadFile w (past t) (tap_MacPath c)) as [macBytes|e] eqn:Er.
    + destruct (macaroon_UnmarshalBinary w macBytes) as [mac|e] eqn:Eu.
      * destruct (macaroons_NewMacaroonCredential w mac) as [macCred|e] eqn:Ec;
          simpl.
        -- now apply mac_attached with (mac := mac).
        -- now apply mac_unwrappable with (mac := mac).
      * simpl. now apply mac_undecodable.
    + simpl. now apply mac_unreadable.
Qed.

Lemma bind_Done {A B} (m : M A) (k : A -> M B) (t t1 : T) (a : A) :
  m t = (Done a, t1) -> bind m k t = k a t1.
Proof. intros E; unfold bind; now rewrite E. Qed.

Lemma bind_Fatal {A B} (m : M A) (k : A -> M B) (t t1 : T) l f :
  m t = (Fatal l f, t1) -> bind m k t = (Fatal l f, t1).
Proof. intros E; unfold bind; now rewrite E. Qed.

Lemma dial_block_shape (c : TapConfig) (opts : list DialOption) (t : T) :
  dial_run w c opts t (fst (dial_block w c opts t)) (snd (dial_block w c opts t)).
Proof.
  unfold dial_block, bind, call, require_NoError, t_Cleanup, ret.
  cbn [past cleanups].
  destruct (grpc_DialContext w (past t) _ opts) as [conn|e] eqn:E; simpl.
  - now apply dial_open.
  - now apply dial_refused.
Qed.

(** A function of the runner is known by its two results. *)
Lemma run_eq {A} (m : M A) (t : T) : m t = (fst (m t), snd (m t)).
Proof. now destruct (m t). Qed.

(** Take one block of a run apart, by its shape lemma. *)
Ltac run_block shape E :=
  let H := fresh "Hshape" in
  pose proof shape as H;
  match type of H with
  | context [fst (?m ?t)] =>
      destruct (m t) as [? ?] eqn:E; cbn [fst snd] in H;
      inversion H; subst; clear H;
      [ > first [ rewrite (bind_Done _ _ _ _ _ E)
                | rewrite (bind_Fatal _ _ _ _ _ _ E) ] .. ]
  end.

Lemma dial_after (c : TapConfig) (t : T) (reads : history)
      (opts : list DialOption) :
  forallb is_read reads = true ->
  built_options c opts ->
  tap_run w c t (fst (dial_block w c opts (later t reads)))
              (snd (dial_block w c opts (later t reads))).
Proof.
  intros Hr Ho.
  pose proof (dial_block_shape c opts (later t reads)) as H.
  destruct (dial_block w c opts (later t reads)) as [o t1]; cbn [fst snd] in *.
  inversion H; subst; clear H; rewrite later_later.
  - now apply tap_dial_failed.
  - now apply tap_dialed.
Qed.

(** Every run of [getTapClient] has one of the three shapes. *)
Lemma getTapClient_shape (c : TapConfig) (t : T) :
  tap_run w c t (fst (getTapClient w c t)) (snd (getTapClient w c t)).
Proof.
  rewrite getTapClient_blocks.
  run_block (tls_block_shape c t) Etls.
  all: try match goal with
    | |- context [bind (mac_block w ?c0 ?o) _ ?t1] =>
        run_block (mac_block_shape c0 o t1) Emac
    end.
  all: cbn [fst snd]; rewrite ?later_later.
  all: try match goal with
    | |- tap_run w _ ?t0 (fst (dial_block w _ _ ?t0)) _ =>
        rewrite <- (later_nil t0) at 2 3
    end.
  all: try (apply dial_after;
            [ reflexivity
            | eexists; split; cycle 1;
              [ first [ left; split; [assumption | reflexivity]
                      | right; split; [assumption | eexists; reflexivity] ]
              | intro; first [reflexivity | contradiction] ] ]).
  all: apply tap_stopped;
    [ reflexivity
    | simpl; tauto
    | intro; first [contradiction | split; discriminate]
    | intro; first [contradiction | repeat split; discriminate] ].
Qed.

(** ** The shapes of a run of [getBitcoinConn] *)

(** Every run of [getBitcoinConn] has one of the three shapes. *)
Lemma getBitcoinConn_shape (c : BitcoinConfig) (t : T) :
  btc_run w c t (fst (getBitcoinConn w c t)) (snd (getBitcoinConn w c t)).
Proof.
  unfold getBitcoinConn.
  fold (chain_config c []).
  destruct (btc_TLSPath c =? "") eqn:Etls; cbn [negb].
  - apply eqb_empty_true in Etls.
    unfold bind, call, require_NoError, ret; cbn [past cleanups].
    pose proof (material_none w c t Etls) as Hm.
    assert (Ecfg : {| cc_Host := Sprintf_s_d (btc_Host c) (btc_Port c);
                      cc_User := btc_User c; cc_Pass := btc_Password c;
                      cc_HTTPPostMode := true; cc_DisableTLS := true;
                      cc_Certificates := [] |} = chain_config c []).
    { unfold chain_config. rewrite Etls. reflexivity. }
    rewrite Ecfg.
    destruct (rpcclient_New w (past t) (chain_config c [])) as [client|e] eqn:En;
      simpl.
    + apply (btc_built w c t [] [] client Hm). now rewrite app_nil_r.
    + apply (btc_refused w c t [] [] e Hm). now rewrite app_nil_r.
  - pose proof (eqb_empty_false _ Etls) as Hne.
    unfold bind, call, require_NoError, ret; cbn [past cleanups].
    destruct (os_ReadFile w (past t) (btc_TLSPath c)) as [rpcCert|e] eqn:Er;
      simpl.
    + pose proof (material_read w c t rpcCert Hne Er) as Hm.
      assert (Ecfg : {| cc_Host := Sprintf_s_d (btc_Host c) (btc_Port c);
                        cc_User := btc_User c; cc_Pass := btc_Password c;
                        cc_HTTPPostMode := true; cc_DisableTLS := false;
                        cc_Certificates := rpcCert |} = chain_config c rpcCert).
      { unfold chain_config. rewrite Etls. reflexivity. }
      rewrite Ecfg.
      destruct (rpcclient_New w (past t ++ [EvReadFile (btc_TLSPath c) (Ok rpcCert)])
                  (chain_config c rpcCert)) as [client|e] eqn:En; simpl.
      * rewrite <- app_assoc. exact (btc_built w c t _ _ client Hm En).
      * rewrite <- app_assoc. exact (btc_refused w c t _ _ e Hm En).
    + now apply btc_unreadable.
Qed.

(** ** The shapes of a run of [initClients] *)

Lemma join_shape (c : TapConfig) (line : nat) (t : T) :
  joined w c line t (fst (join w c line t)) (snd (join w c line t)).
Proof.
  unfold join.
  destruct (getTapClient w c t) as [[client|l f] t1] eqn:E.
  - rewrite (bind_Done _ _ _ _ _ E).
    unfold bind, GetInfo, call, require_NoError, ret.
    destruct (rpc_GetInfo w (past t1) (rpc_TaprootAssetsClient client))
      as [u|e] eqn:Ep; simpl.
    + now apply joined_alive.
    + now apply joined_silent.
  - rewrite (bind_Fatal _ _ _ _ _ _ E). simpl. now apply joined_stopped.
Qed.

(** [initClients] joins A, joins B, and goes on to the chain backend. *)
Lemma initClients_joins (c : Config) :
  forall t,
    initClients w c t =
    (alice <- join w (Tapd (Alice c)) 46 ;;
     bob <- join w (Tapd (Bob c)) 51 ;;
     bitcoinClient <- getBitcoinConn w (Bitcoin c) ;;
     MineBlocks w 57 bitcoinClient 1 0 ;;;
     t_Cleanup (MineOnCleanup bitcoinClient) ;;;
     ret (alice, bob, bitcoinClient)) t.
Proof.
  intros t. unfold initClients, join, bind.
  destruct (getTapClient w (Tapd (Alice c)) t) as [[alice|l f] t1];
    [|reflexivity].
  destruct (GetInfo w alice t1) as [[r|l f] t1']; [|reflexivity].
  destruct (require_NoError 46 r t1') as [[x|l f] t1'']; [|reflexivity].
  unfold ret. cbv beta iota.
  destruct (getTapClient w (Tapd (Bob c)) t1'') as [[bob|l f] t2];
    [|reflexivity].
  destruct (GetInfo w bob t2) as [[r'|l f] t2']; [|reflexivity].
  destruct (require_NoError 51 r' t2') as [[x'|l f] t2'']; reflexivity.
Qed.

(** Every run of [initClients] has one of the five shapes. *)
Lemma initClients_shape (c : Config) (t : T) :
  init_run w c t (fst (initClients w c t)) (snd (initClients w c t)).
Proof.
  rewrite initClients_joins.
  pose proof (join_shape (Tapd (Alice c)) 46 t) as HA.
  destruct (join w (Tapd (Alice c)) 46 t) as [[alice|l f] t1] eqn:EA;
    cbn [fst snd] in HA.
  2: { rewrite (bind_Fatal _ _ _ _ _ _ EA). now apply init_no_alice. }
  rewrite (bind_Done _ _ _ _ _ EA).
  pose proof (join_shape (Tapd (Bob c)) 51 t1) as HB.
  destruct (join w (Tapd (Bob c)) 51 t1) as [[bob|l f] t2] eqn:EB;
    cbn [fst snd] in HB.
  2: { rewrite (bind_Fatal _ _ _ _ _ _ EB). now apply init_no_bob with alice t1. }
  rewrite (bind_Done _ _ _ _ _ EB).
  destruct (getBitcoinConn w (Bitcoin c) t2) as [[bitcoinClient|l f] t3] eqn:EC.
  2: { rewrite (bind_Fatal _ _ _ _ _ _ EC).
       now apply init_no_chain with alice t1 bob t2. }
  rewrite (bind_Done _ _ _ _ _ EC).
  unfold bind, MineBlocks, bind, call, require_NoError, t_Cleanup, ret.
  destruct (itest_MineBlocks w (past t3) bitcoinClient 1 0) as [u|e] eqn:Em;
    simpl.
  - now apply init_ready with t1 t2.
  - now apply init_no_block with alice t1 bob t2.
Qed.

(** ** What a run added to the history *)

Lemma skipn_length_app {A} (l h : list A) : skipn (List.length l) (l ++ h) = h.
Proof. induction l as [|a l IH]; simpl; auto. Qed.

Lemma emitted_later (t : T) (h : history) : emitted t (later t h) = h.
Proof. unfold emitted, later; simpl. apply skipn_length_app. Qed.

Lemma emitted_registered (t t' : T) (fs : list cleanup) :
  emitted t (registered t' fs) = emitted t t'.
Proof. reflexivity. Qed.



Lemma reads_only (reads : history) (e : event) :
  forallb is_read reads = true -> In e reads -> is_read e = true.
Proof.
  intros H Hin. rewrite forallb_forall in H. now apply H.
Qed.

(** C5: with a certificate path whose file holds no certificate that can
    be parsed, [getTapClient] stops the test at the pool check (line 80);
    reading that file is the only call it has made, so nothing was
    dialed and no cleanup was registered. *)
Theorem getTapClient_empty_pool_is_fatal_before_dial
  (c : TapConfig) (t : T) (pem : bytes) :
  tap_TLSPath c <> "" ->
  os_ReadFile w (past t) (tap_TLSPath c) = Ok pem ->
  pem_certificates w pem = [] ->
  getTapClient w c t =
    (Fatal 80 TrueFailed, later t [EvReadFile (tap_TLSPath c) (Ok pem)]) /\
  count is_dial (emitted t (snd (getTapClient w c t))) = 0%nat.
Proof.
  intros Hp Hr Hc.
  assert (E : getTapClient w c t =
    (Fatal 80 TrueFailed, later t [EvReadFile (tap_TLSPath c) (Ok pem)])).
  { rewrite getTapClient_blocks. apply bind_Fatal.
    pose proof (tls_block_shape c t) as H.
    destruct (tls_block w c t) as [o t1]; cbn [fst snd] in H.
    inversion H; subst; congruence. }
  split; [exact E|]. rewrite E; cbn [snd]. now rewrite emitted_later.
Qed.

(** C6: with a token path whose file does not decode as a macaroon, or
    decodes to one that cannot be wrapped into a credential,
    [getTapClient] stops the test having only read files: nothing was
    dialed and no cleanup was registered.  It stops at the decode (line
    98) or the wrapping (line 101), unless the certificate block before
    it already stopped the test (lines 76 and 80). *)
Theorem getTapClient_bad_token_is_fatal_before_dial
  (c : TapConfig) (t : T) (macBytes : bytes) :
  tap_MacPath c <> "" ->
  file_holds w (tap_MacPath c) macBytes ->
  token_rejected w macBytes ->
  exists l f reads,
    getTapClient w c t = (Fatal l f, later t reads) /\
    forallb is_read reads = true /\
    count is_dial (emitted t (snd (getTapClient w c t))) = 0%nat /\
    In l [76; 80; 98; 101]%nat /\
    (tap_TLSPath c = "" ->
     reads = [EvReadFile (tap_MacPath c) (Ok macBytes)] /\
     ((exists e, macaroon_UnmarshalBinary w macBytes = Err e /\
                 l = 98%nat /\ f = NoErrorFailed e) \/
      (exists mac e, macaroon_UnmarshalBinary w macBytes = Ok mac /\
                     macaroons_NewMacaroonCredential w mac = Err e /\
                     l = 101%nat /\ f = NoErrorFailed e))).
Proof.
  intros Hp Hfile Hrej.
  rewrite getTapClient_blocks.
  run_block (tls_block_shape c t) Etls.
  all: try match goal with
    | |- context [bind (mac_block w ?c0 ?o) _ ?t1] =>
        run_block (mac_block_shape c0 o t1) Emac
    end.
  all: try contradiction.
  all: try match goal with
    | H : os_ReadFile _ _ (tap_MacPath _) = _ |- _ =>
        rewrite Hfile in H; inversion H; subst; clear H
    end.
  all: try (exfalso; destruct Hrej as [[e' He]|[mac' [e' [He Hw]]]];
            congruence).
  all: rewrite ?later_later.
  all: do 3 eexists; split; [reflexivity|]; cbn [snd];
    rewrite emitted_later;
    split; [reflexivity|]; split; [reflexivity|];
    split; [simpl; tauto|]; intros Hnone; try contradiction.
  - split; [reflexivity|]. left. eexists; repeat split; eassumption.
  - split; [reflexivity|]. right. do 2 eexists; repeat split; eassumption.
Qed.

(** An event that is not a read is not among reads. *)
Ltac among_reads Hin :=
  match goal with
  | Hr : forallb is_read ?reads = true |- _ =>
      apply (reads_only _ _ Hr) in Hin; discriminate
  end.

(** C8: whenever [getTapClient] dials, the option list starts with the
    transport credentials, has the receive-size option [maxMsgRecvSize]
    second, and ends there when no token path is configured; with a token
    path one per-call credential follows as the third and last option.
    The dial goes to the address composed of host and port. *)
Theorem getTapClient_dial_options
  (c : TapConfig) (t : T) (target : string) (opts : list DialOption)
  (r : result ClientConn) :
  In (EvDial target opts r) (emitted t (snd (getTapClient w c t))) ->
  target = Sprintf_s_d (tap_Host c) (tap_Port c) /\
  In (grpc_WithDefaultCallOptions [maxMsgRecvSize]) opts /\
  exists creds percall,
    opts = grpc_WithTransportCredentials creds
           :: grpc_WithDefaultCallOptions [maxMsgRecvSize]
           :: percall /\
    (tap_MacPath c = "" -> percall = []) /\
    (tap_MacPath c <> "" ->
     exists macCred, percall = [grpc_WithPerRPCCredentials macCred]).
Proof.
  intros Hin.
  pose proof (getTapClient_shape c t) as H.
  destruct (getTapClient w c t) as [o t']; cbn [fst snd] in *.
  assert (Hopts : forall o',
    built_options c o' ->
    In (grpc_WithDefaultCallOptions [maxMsgRecvSize]) o' /\
    exists creds percall,
      o' = grpc_WithTransportCredentials creds
           :: grpc_WithDefaultCallOptions [maxMsgRecvSize] :: percall /\
      (tap_MacPath c = "" -> percall = []) /\
      (tap_MacPath c <> "" ->
       exists macCred, percall = [grpc_WithPerRPCCredentials macCred])).
  { intros o' [creds [_ [[Hm Ho]|[Hm [macCred Ho]]]]]; subst o'.
    - split; [simpl; tauto|]. exists creds, [].
      split; [reflexivity|]. split; [reflexivity|]. contradiction.
    - split; [simpl; tauto|]. exists creds, [grpc_WithPerRPCCredentials macCred].
      split; [reflexivity|]. split; [contradiction|]. now exists macCred. }
  inversion H; subst; clear H;
    rewrite ?emitted_registered, emitted_later in Hin.
  - among_reads Hin.
  - apply in_app_or in Hin. destruct Hin as [Hin|[Hin|[]]].
    + among_reads Hin.
    + inversion Hin; subst. split; [reflexivity|]. now apply Hopts.
  - apply in_app_or in Hin. destruct Hin as [Hin|[Hin|[]]].
    + among_reads Hin.
    + inversion Hin; subst. split; [reflexivity|]. now apply Hopts.
Qed.

(** C9: [getBitcoinConn] disables TLS exactly when the certificate path is
    empty.  With an empty path it reads nothing and configures the
    connection with TLS disabled and no certificate bytes.  With a path
    it reads the file first: a failed read stops the test (line 143)
    before any connection is configured; otherwise the connection is
    configured with TLS enabled and the bytes read as its certificate. *)
Theorem getBitcoinConn_tls (c : BitcoinConfig) (t : T) :
  (forall config r,
     In (EvNew config r) (emitted t (snd (getBitcoinConn w c t))) ->
     (cc_DisableTLS config = true <-> btc_TLSPath c = "")) /\
  (btc_TLSPath c = "" ->
   exists config r,
     emitted t (snd (getBitcoinConn w c t)) = [EvNew config r] /\
     cc_DisableTLS config = true /\ cc_Certificates config = []) /\
  (btc_TLSPath c <> "" ->
   (exists e,
      os_ReadFile w (past t) (btc_TLSPath c) = Err e /\
      getBitcoinConn w c t =
        (Fatal 143 (NoErrorFailed e),
         later t [EvReadFile (btc_TLSPath c) (Err e)])) \/
   (exists rpcCert config r,
      os_ReadFile w (past t) (btc_TLSPath c) = Ok rpcCert /\
      emitted t (snd (getBitcoinConn w c t)) =
        [EvReadFile (btc_TLSPath c) (Ok rpcCert); EvNew config r] /\
      cc_DisableTLS config = false /\ cc_Certificates config = rpcCert)).
Proof.
  pose proof (getBitcoinConn_shape c t) as H.
  destruct (getBitcoinConn w c t) as [o t']; cbn [fst snd] in *.
  assert (Hflag : forall cert,
            cc_DisableTLS (chain_config c cert) = true <-> btc_TLSPath c = "").
  { intros cert. unfold chain_config; cbn [cc_DisableTLS].
    apply String.eqb_eq. }
  assert (Hoff : btc_TLSPath c <> "" ->
            forall cert, cc_DisableTLS (chain_config c cert) = false).
  { intros Hne cert. unfold chain_config; cbn [cc_DisableTLS].
    now apply String.eqb_neq. }
  inversion H; subst; clear H; rewrite emitted_later.
  - split; [|split].
    + intros config r [Hin|[]]. discriminate.
    + intros Hnone. contradiction.
    + intros _. left. exists e. now split.
  - inversion H0; subst; clear H0; (split; [|split]).
    + intros config r [Hin|[]]. inversion Hin; subst. apply Hflag.
    + intros _. do 2 eexists. split; [reflexivity|].
      split; [now apply Hflag | reflexivity].
    + intros Hne. contradiction.
    + intros config r [Hin|[Hin|[]]]; [discriminate|].
      inversion Hin; subst. apply Hflag.
    + intros Hnone. contradiction.
    + intros _. right. do 3 eexists. split; [eassumption|].
      split; [reflexivity|]. split; [now apply Hoff | reflexivity].
  - inversion H0; subst; clear H0; (split; [|split]).
    + intros config r [Hin|[]]. inversion Hin; subst. apply Hflag.
    + intros _. do 2 eexists. split; [reflexivity|].
      split; [now apply Hflag | reflexivity].
    + intros Hne. contradiction.
    + intros config r [Hin|[Hin|[]]]; [discriminate|].
      inversion Hin; subst. apply Hflag.
    + intros Hnone. contradiction.
    + intros _. right. do 3 eexists. split; [eassumption|].
      split; [reflexivity|]. split; [now apply Hoff | reflexivity].
Qed.

(** ** Plain configurations *)

Lemma getTapClient_plain (c : TapConfig) (t : T) :
  tap_TLSPath c = "" -> tap_MacPath c = "" ->
  getTapClient w c t =
    match grpc_DialContext w (past t)
            (Sprintf_s_d (tap_Host c) (tap_Port c)) default_options with
    | Ok conn =>
        (Done (bundle c conn),
         registered
           (later t [EvDial (Sprintf_s_d (tap_Host c) (tap_Port c))
                       default_options (Ok conn)])
           [CloseConn conn])
    | Err e =>
        (Fatal 108 (NoErrorFailed e),
         later t [EvDial (Sprintf_s_d (tap_Host c) (tap_Port c))
                    default_options (Err e)])
    end.
Proof.
  intros Htls Hmac.
  unfold getTapClient.
  rewrite Htls, Hmac. cbn [String.eqb negb].
  unfold bind, call, require_NoError, t_Cleanup, ret.
  fold default_options. cbn [past cleanups].
  destruct (grpc_DialContext w (past t) _ default_options); reflexivity.
Qed.

Lemma getBitcoinConn_plain (c : BitcoinConfig) (t : T) :
  btc_TLSPath c = "" ->
  getBitcoinConn w c t =
    match rpcclient_New w (past t) (chain_config c []) with
    | Ok client =>
        (Done client, later t [EvNew (chain_config c []) (Ok client)])
    | Err e =>
        (Fatal 157 (NoErrorFailed e),
         later t [EvNew (chain_config c []) (Err e)])
    end.
Proof.
  intros Htls.
  unfold getBitcoinConn, chain_config.
  rewrite Htls. cbn [String.eqb negb].
  unfold bind, call, require_NoError, ret. cbn [past cleanups].
  destruct (rpcclient_New w (past t) _); reflexivity.
Qed.

(** ** The cleanup pass *)

Lemma run_cleanup_later (f : cleanup) (t : T) :
  snd (run_cleanup w f t) = later t [cleanup_event w (past t) f].
Proof.
  destruct f as [conn|bitcoinClient];
    unfold run_cleanup, MineBlocks, bind, call, require_NoError; simpl.
  - now destruct (conn_Close w (past t) conn).
  - now destruct (itest_MineBlocks w (past t) bitcoinClient 1 0).
Qed.

(** The cleanup pass calls every function once, whatever each comes to. *)
Lemma run_all_later (fs : list cleanup) (t : T) :
  snd (run_all w fs t) = later t (teardown_events w (past t) fs).
Proof.
  revert t. induction fs as [|f fs IH]; intros t; simpl.
  - now rewrite later_nil.
  - pose proof (run_cleanup_later f t) as Hf.
    destruct (run_cleanup w f t) as [o t1]; cbn [snd] in Hf.
    specialize (IH t1).
    destruct (run_all w fs t1) as [os t2]; cbn [snd] in *.
    subst t2 t1. now rewrite later_later.
Qed.

Lemma runCleanup_emitted (t : T) :
  emitted t (snd (runCleanup w t)) =
  teardown_events w (past t) (rev (cleanups t)).
Proof.
  unfold runCleanup. rewrite run_all_later.
  unfold emitted, later; simpl. apply skipn_length_app.
Qed.

(** ** A test that uses the fixture *)

Lemma later_registered (t : T) (fs : list cleanup) (h : history) :
  later (registered t fs) h = registered (later t h) fs.
Proof. reflexivity. Qed.

Lemma registered_nil (t : T) : registered t [] = t.
Proof. destruct t; unfold registered; simpl. now rewrite app_nil_r. Qed.

Lemma registered_registered (t : T) (fs gs : list cleanup) :
  registered (registered t fs) gs = registered t (fs ++ gs).
Proof. unfold registered; simpl. now rewrite app_assoc. Qed.

(** Take a successful [joined] apart, for a default-trust participant. *)
Lemma joined_plain_Done (c : TapConfig) (line : nat) (t t1 : T)
      (client : rpcClient) :
  default_trust c ->
  joined w c line t (Done client) t1 ->
  exists conn,
    client = bundle c conn /\
    t1 = registered
           (later t [EvDial (Sprintf_s_d (tap_Host c) (tap_Port c))
                       default_options (Ok conn);
                     EvGetInfo (taprpc_NewTaprootAssetsClient conn) (Ok tt)])
           [CloseConn conn].
Proof.
  intros [Htls Hmac] H. inversion H as [| |client' t' u Hget Hprobe]; subst.
  rewrite (getTapClient_plain c t Htls Hmac) in Hget.
  destruct (grpc_DialContext w (past t) _ default_options) as [conn|e];
    inversion Hget; subst.
  exists conn. split; [reflexivity|]. destruct u.
  cbn [bundle rpc_TaprootAssetsClient].
  rewrite later_registered, later_later. reflexivity.
Qed.

(** Bring a runner state to the form [registered (later t h) fs]. *)
Ltac flatten_state :=
  repeat first [ rewrite later_registered
               | rewrite later_later
               | rewrite registered_registered ];
  cbn [app].

(** A run that returned, on default trust and without TLS to the chain
    backend: the six calls it made and the three cleanups it registered. *)
Lemma initClients_plain_Done
      (c : Config) (t t1 : T)
      (alice bob : rpcClient) (bitcoinClient : Client) :
  default_trust (Tapd (Alice c)) ->
  default_trust (Tapd (Bob c)) ->
  btc_TLSPath (Bitcoin c) = "" ->
  initClients w c t = (Done (alice, bob, bitcoinClient), t1) ->
  exists connA connB,
    alice = bundle (Tapd (Alice c)) connA /\
    bob = bundle (Tapd (Bob c)) connB /\
    t1 = registered
           (later t
              [ EvDial (Sprintf_s_d (tap_Host (Tapd (Alice c)))
                                    (tap_Port (Tapd (Alice c))))
                  default_options (Ok connA);
                EvGetInfo (taprpc_NewTaprootAssetsClient connA) (Ok tt);
                EvDial (Sprintf_s_d (tap_Host (Tapd (Bob c)))
                                    (tap_Port (Tapd (Bob c))))
                  default_options (Ok connB);
                EvGetInfo (taprpc_NewTaprootAssetsClient connB) (Ok tt);
                EvNew (chain_config (Bitcoin c) []) (Ok bitcoinClient);
                EvMineBlocks bitcoinClient 1 0 (Ok tt) ])
           [ CloseConn connA; CloseConn connB; MineOnCleanup bitcoinClient ].
Proof.
  intros HA HB HC E.
  pose proof (initClients_shape c t) as H. rewrite E in H.
  cbn [fst snd] in H.
  inversion H as [| | | |alice' tA bob' tB client' tC u HjA HjB Hbtc Hmine];
    subst; clear H.
  destruct (joined_plain_Done _ _ _ _ _ HA HjA) as [connA [EA EtA]].
  destruct (joined_plain_Done _ _ _ _ _ HB HjB) as [connB [EB EtB]].
  rewrite (getBitcoinConn_plain _ _ HC) in Hbtc.
  destruct (rpcclient_New w (past tB) (chain_config (Bitcoin c) []))
    as [client|e]; inversion Hbtc; subst; clear Hbtc.
  destruct u.
  exists connA, connB.
  split; [reflexivity|]. split; [reflexivity|].
  flatten_state. reflexivity.
Qed.

(** On default trust, without TLS to the chain backend and with an outside
    that answers, [initClients] returns. *)
Lemma initClients_plain_returns (c : Config) (t : T) :
  responsive w ->
  default_trust (Tapd (Alice c)) ->
  default_trust (Tapd (Bob c)) ->
  btc_TLSPath (Bitcoin c) = "" ->
  exists alice bob bitcoinClient,
    fst (initClients w c t) = Done (alice, bob, bitcoinClient).
Proof.
  intros [Hdial [Hprobe [Hnew Hmine]]] [HA1 HA2] [HB1 HB2] HC.
  rewrite initClients_joins.
  assert (Hjoin : forall tc line t0,
            default_trust tc ->
            exists client t1, join w tc line t0 = (Done client, t1)).
  { intros tc line t0 [H1 H2]. unfold join.
    pose proof (getTapClient_plain tc t0 H1 H2) as Eg.
    destruct (Hdial (past t0) (Sprintf_s_d (tap_Host tc) (tap_Port tc))
                default_options) as [conn Ed].
    rewrite Ed in Eg. rewrite (bind_Done _ _ _ _ _ Eg).
    unfold bind, GetInfo, call, require_NoError, ret.
    rewrite Hprobe. do 2 eexists. reflexivity. }
  destruct (Hjoin (Tapd (Alice c)) 46%nat t (conj HA1 HA2)) as [alice [t1 EA]].
  rewrite (bind_Done _ _ _ _ _ EA).
  destruct (Hjoin (Tapd (Bob c)) 51%nat t1 (conj HB1 HB2)) as [bob [t2 EB]].
  rewrite (bind_Done _ _ _ _ _ EB).
  pose proof (getBitcoinConn_plain _ t2 HC) as Eb.
  destruct (Hnew (past t2) (chain_config (Bitcoin c) [])) as [client En].
  rewrite En in Eb. rewrite (bind_Done _ _ _ _ _ Eb).
  unfold bind, MineBlocks, bind, call, require_NoError, t_Cleanup, ret.
  cbn [past later]. rewrite Hmine. cbn [fst].
  do 3 eexists. reflexivity.
Qed.

Lemma outcome_of_test_run (c : Config) (h0 body : history) :
  outcome_of (test_run w c h0 body) =
  fst (initClients w c {| past := h0; cleanups := [] |}).
Proof.
  unfold outcome_of, test_run.
  destruct (initClients w c {| past := h0; cleanups := [] |}) as [o t1].
  now destruct (runCleanup w _).
Qed.

(** C2: take a test on the fixture with both participants on default
    trust and the chain backend without TLS.  If the outside answers, the
    fixture returns.  And whenever it returned, it gave two bundles and
    the chain client; the setup made six calls, the last two being the
    construction of the chain client and, right after it, the mining of
    one block; the teardown mines one block and closes the two channels.
    Blocks are mined twice in all: once at setup and once at teardown. *)
Theorem fixture_mines_at_setup_and_at_teardown
  (c : Config) (h0 body : history) :
  default_trust (Tapd (Alice c)) ->
  default_trust (Tapd (Bob c)) ->
  btc_TLSPath (Bitcoin c) = "" ->
  (responsive w ->
   exists alice bob bitcoinClient,
     outcome_of (test_run w c h0 body) = Done (alice, bob, bitcoinClient)) /\
  (forall alice bob bitcoinClient,
     outcome_of (test_run w c h0 body) = Done (alice, bob, bitcoinClient) ->
     exists connA connB r1 r2 r3,
       alice = bundle (Tapd (Alice c)) connA /\
       bob = bundle (Tapd (Bob c)) connB /\
       setup_of (test_run w c h0 body) =
         [ EvDial (Sprintf_s_d (tap_Host (Tapd (Alice c)))
                               (tap_Port (Tapd (Alice c))))
             default_options (Ok connA);
           EvGetInfo (taprpc_NewTaprootAssetsClient connA) (Ok tt);
           EvDial (Sprintf_s_d (tap_Host (Tapd (Bob c)))
                               (tap_Port (Tapd (Bob c))))
             default_options (Ok connB);
           EvGetInfo (taprpc_NewTaprootAssetsClient connB) (Ok tt);
           EvNew (chain_config (Bitcoin c) []) (Ok bitcoinClient);
           EvMineBlocks bitcoinClient 1 0 (Ok tt) ] /\
       teardown_of (test_run w c h0 body) =
         [ EvMineBlocks bitcoinClient 1 0 r1;
           EvClose connB r2;
           EvClose connA r3 ] /\
       count is_mine (setup_of (test_run w c h0 body)) = 1%nat /\
       count is_mine (teardown_of (test_run w c h0 body)) = 1%nat /\
       count is_mine (setup_of (test_run w c h0 body) ++
                      teardown_of (test_run w c h0 body)) = 2%nat).
Proof.
  intros HA HB HC. split.
  { intros Hw. rewrite outcome_of_test_run.
    now apply initClients_plain_returns. }
  intros alice bob bitcoinClient.
  unfold outcome_of, setup_of, teardown_of, test_run.
  destruct (initClients w c {| past := h0; cleanups := [] |}) as [o t1] eqn:E.
  pose proof (runCleanup_emitted
                match o with Done _ => later t1 body | Fatal _ _ => t1 end)
    as Hdown.
  destruct (runCleanup w match o with Done _ => later t1 body
                                 | Fatal _ _ => t1 end) as [os t3].
  cbn [fst snd] in *. intros Ho. subst o.
  destruct (initClients_plain_Done _ _ _ _ _ _ HA HB HC E)
    as [connA [connB [EA [EB Et1]]]].
  exists connA, connB.
  rewrite Hdown, Et1, emitted_registered, emitted_later.
  cbn [cleanups past later registered app rev teardown_events cleanup_event].
  do 3 eexists.
  split; [exact EA|]. split; [exact EB|].
  split; [reflexivity|]. split; [reflexivity|].
  repeat split; reflexivity.
Qed.

(** ** Counting calls *)

Lemma count_app (p : event -> bool) (h1 h2 : history) :
  count p (h1 ++ h2) = (count p h1 + count p h2)%nat.
Proof. unfold count. now rewrite filter_app, length_app. Qed.

Lemma count_nil (p : event -> bool) : count p [] = 0%nat.
Proof. reflexivity. Qed.

Lemma count_cons (p : event -> bool) (e : event) (h : history) :
  count p (e :: h) = ((if p e then 1 else 0) + count p h)%nat.
Proof. unfold count; simpl. now destruct (p e). Qed.

Lemma reads_count (p : event -> bool) (reads : history) :
  (forall e, is_read e = true -> p e = false) ->
  forallb is_read reads = true -> count p reads = 0%nat.
Proof.
  intros Hp. unfold count.
  induction reads as [|e reads IH]; simpl; [reflexivity|].
  intros H. apply andb_prop in H. destruct H as [He Hr].
  rewrite (Hp e He). auto.
Qed.

Lemma read_is_no_dial e : is_read e = true -> is_dial e = false.
Proof. now destruct e. Qed.
Lemma read_is_no_probe e : is_read e = true -> is_probe e = false.
Proof. now destruct e. Qed.
Lemma read_is_no_new e : is_read e = true -> is_new e = false.
Proof. now destruct e. Qed.
Lemma read_is_no_mine e : is_read e = true -> is_mine e = false.
Proof. now destruct e. Qed.

(** A run of [getTapClient] that returned: what it read, its one dial,
    and the cleanup it left. *)
Lemma getTapClient_Done (c : TapConfig) (t t1 : T) (client : rpcClient) :
  getTapClient w c t = (Done client, t1) ->
  exists reads opts conn,
    forallb is_read reads = true /\
    built_options c opts /\
    client = bundle c conn /\
    t1 = registered
           (later t (reads ++
              [EvDial (Sprintf_s_d (tap_Host c) (tap_Port c)) opts (Ok conn)]))
           [CloseConn conn].
Proof.
  intros E. pose proof (getTapClient_shape c t) as H. rewrite E in H.
  cbn [fst snd] in H. inversion H; subst.
  exists reads, opts, conn. repeat split; assumption.
Qed.

(** Counting the calls of a kind in what a run of [getTapClient] that
    returned has added. *)
Ltac count_calls :=
  repeat first
    [ rewrite count_app
    | rewrite count_cons
    | rewrite count_nil
    | rewrite (reads_count is_dial _ read_is_no_dial) by assumption
    | rewrite (reads_count is_probe _ read_is_no_probe) by assumption
    | rewrite (reads_count is_new _ read_is_no_new) by assumption
    | rewrite (reads_count is_mine _ read_is_no_mine) by assumption ];
  simpl; try reflexivity.

(** C3: when the probe of a participant fails, [initClients] stops the
    test there, and the failed probe is its last call.  When it is the
    probe of participant A (line 46), the run has dialed once, for A,
    and probed once: nothing was read or dialed for participant B, no
    chain client was constructed and no block was mined.  When it is the
    probe of participant B (line 51), no chain client was constructed and
    no block was mined. *)
Theorem initClients_stops_at_failed_probe (c : Config) (t : T) :
  (forall alice t1 e,
     getTapClient w (Tapd (Alice c)) t = (Done alice, t1) ->
     rpc_GetInfo w (past t1) (rpc_TaprootAssetsClient alice) = Err e ->
     initClients w c t =
       (Fatal 46 (NoErrorFailed e),
        later t1 [EvGetInfo (rpc_TaprootAssetsClient alice) (Err e)]) /\
     emitted t (snd (initClients w c t)) =
       emitted t t1 ++ [EvGetInfo (rpc_TaprootAssetsClient alice) (Err e)] /\
     count is_dial (emitted t (snd (initClients w c t))) = 1%nat /\
     count is_probe (emitted t (snd (initClients w c t))) = 1%nat /\
     count is_new (emitted t (snd (initClients w c t))) = 0%nat /\
     count is_mine (emitted t (snd (initClients w c t))) = 0%nat) /\
  (forall alice t1 u bob t2 e,
     getTapClient w (Tapd (Alice c)) t = (Done alice, t1) ->
     rpc_GetInfo w (past t1) (rpc_TaprootAssetsClient alice) = Ok u ->
     getTapClient w (Tapd (Bob c))
       (later t1 [EvGetInfo (rpc_TaprootAssetsClient alice) (Ok u)]) =
       (Done bob, t2) ->
     rpc_GetInfo w (past t2) (rpc_TaprootAssetsClient bob) = Err e ->
     initClients w c t =
       (Fatal 51 (NoErrorFailed e),
        later t2 [EvGetInfo (rpc_TaprootAssetsClient bob) (Err e)]) /\
     count is_dial (emitted t (snd (initClients w c t))) = 2%nat /\
     count is_new (emitted t (snd (initClients w c t))) = 0%nat /\
     count is_mine (emitted t (snd (initClients w c t))) = 0%nat).
Proof.
  split.
  - intros alice t1 e Hget Hprobe.
    assert (E : initClients w c t =
      (Fatal 46 (NoErrorFailed e),
       later t1 [EvGetInfo (rpc_TaprootAssetsClient alice) (Err e)])).
    { unfold initClients. rewrite (bind_Done _ _ _ _ _ Hget).
      unfold bind, GetInfo, call, require_NoError. now rewrite Hprobe. }
    split; [exact E|]. rewrite E; cbn [snd].
    destruct (getTapClient_Done _ _ _ _ Hget)
      as [reads [opts [conn [Hr [_ [_ Et1]]]]]].
    subst t1. flatten_state.
    rewrite !emitted_registered, !emitted_later.
    split; [reflexivity|].
    repeat split; count_calls.
  - intros alice t1 u bob t2 e HgetA HprobeA HgetB HprobeB.
    assert (E : initClients w c t =
      (Fatal 51 (NoErrorFailed e),
       later t2 [EvGetInfo (rpc_TaprootAssetsClient bob) (Err e)])).
    { unfold initClients. rewrite (bind_Done _ _ _ _ _ HgetA).
      unfold bind at 1, GetInfo at 1, call at 1. rewrite HprobeA.
      unfold bind at 1, require_NoError at 1.
      cbv beta iota.
      replace {| past := past t1 ++ _; cleanups := cleanups t1 |}
        with (later t1 [EvGetInfo (rpc_TaprootAssetsClient alice) (Ok u)])
        by reflexivity.
      rewrite (bind_Done _ _ _ _ _ HgetB).
      unfold bind, GetInfo, call, require_NoError. now rewrite HprobeB. }
    split; [exact E|]. rewrite E; cbn [snd].
    destruct (getTapClient_Done _ _ _ _ HgetA)
      as [readsA [optsA [connA [HrA [_ [_ Et1]]]]]].
    subst t1.
    destruct (getTapClient_Done _ _ _ _ HgetB)
      as [readsB [optsB [connB [HrB [_ [_ Et2]]]]]].
    subst t2. flatten_state.
    rewrite emitted_registered, !emitted_later.
    repeat split; count_calls.
Qed.

(** ** Identities of connections and clients *)

Lemma conn_eqb_refl (a : ClientConn) : conn_eqb a a = true.
Proof. destruct a; simpl. apply Nat.eqb_refl. Qed.

Lemma client_eqb_refl (a : Client) : client_eqb a a = true.
Proof. destruct a; simpl. apply Nat.eqb_refl. Qed.

(** A run of [getBitcoinConn] only adds calls. *)
Lemma getBitcoinConn_later (c : BitcoinConfig) (t t1 : T) (o : outcome Client) :
  getBitcoinConn w c t = (o, t1) -> exists tr, t1 = later t tr.
Proof.
  intros E. pose proof (getBitcoinConn_shape c t) as H. rewrite E in H.
  cbn [fst snd] in H.
  inversion H as [e Hne Hr|reads cert e Hm Hn|reads cert client Hm Hn];
    subst; clear H; eexists; reflexivity.
Qed.

(** ** Every dialed channel has its close registered *)

Lemma skipn_app_le {A} (n : nat) (l h : list A) :
  (n <= List.length l)%nat -> skipn n (l ++ h) = skipn n l ++ h.
Proof.
  intros Hn. rewrite skipn_app.
  replace (n - List.length l)%nat with 0%nat by lia. reflexivity.
Qed.

Lemma covered_start (t : T) : covered (List.length (past t)) t.
Proof.
  split; [lia|]. intros target opts conn Hin.
  rewrite skipn_all in Hin. destruct Hin.
Qed.

Lemma covered_later (n : nat) (t : T) (h : history) :
  covered n t ->
  (forall target opts conn, ~ In (EvDial target opts (Ok conn)) h) ->
  covered n (later t h).
Proof.
  intros [Hn Hc] Hh. split.
  - unfold later; simpl. rewrite length_app. lia.
  - intros target opts conn Hin. unfold later in Hin; simpl in *.
    rewrite (skipn_app_le _ _ _ Hn) in Hin.
    apply in_app_or in Hin. destruct Hin as [Hin|Hin].
    + now apply Hc in Hin.
    + now apply Hh in Hin.
Qed.

Lemma covered_registered (n : nat) (t : T) (fs : list cleanup) :
  covered n t -> covered n (registered t fs).
Proof.
  intros [Hn Hc]. split; [exact Hn|].
  intros target opts conn Hin. unfold registered; simpl.
  apply in_or_app. left. now apply (Hc target opts).
Qed.

Lemma covered_dialed (n : nat) (t : T) (reads : history)
      (target : string) (opts : list DialOption) (conn : ClientConn) :
  covered n t ->
  forallb is_read reads = true ->
  covered n (registered (later t (reads ++ [EvDial target opts (Ok conn)]))
                        [CloseConn conn]).
Proof.
  intros [Hn Hc] Hr. split.
  - unfold registered, later; simpl. rewrite length_app. lia.
  - intros target' opts' conn' Hin.
    unfold registered, later in *; simpl in *.
    rewrite (skipn_app_le _ _ _ Hn) in Hin.
    apply in_or_app.
    apply in_app_or in Hin. destruct Hin as [Hin|Hin].
    + left. now apply (Hc target' opts').
    + apply in_app_or in Hin. destruct Hin as [Hin|[Hin|[]]].
      * among_reads Hin.
      * inversion Hin; subst. right. now left.
Qed.

Lemma no_dial_among_reads (reads : history) :
  forallb is_read reads = true ->
  forall target opts conn, ~ In (EvDial target opts (Ok conn)) reads.
Proof. intros Hr target opts conn Hin. among_reads Hin. Qed.

Lemma getTapClient_covered (n : nat) (c : TapConfig) (t : T) :
  covered n t -> covered n (snd (getTapClient w c t)).
Proof.
  intros Hc. pose proof (getTapClient_shape c t) as H.
  destruct (getTapClient w c t) as [o t1]; cbn [fst snd] in *.
  inversion H; subst; clear H.
  - apply covered_later; [assumption|]. now apply no_dial_among_reads.
  - apply covered_later; [assumption|].
    intros target opts' conn Hin.
    apply in_app_or in Hin. destruct Hin as [Hin|[Hin|[]]].
    + among_reads Hin.
    + discriminate.
  - now apply covered_dialed.
Qed.

Lemma joined_covered (n : nat) (c : TapConfig) (line : nat) (t t1 : T)
      (o : outcome rpcClient) :
  joined w c line t o t1 -> covered n t -> covered n t1.
Proof.
  intros H Hc.
  inversion H as [l f t' Hget|client t' e Hget Hprobe|client t' u Hget Hprobe];
    subst; clear H;
    pose proof (getTapClient_covered n c t Hc) as Hc'; rewrite Hget in Hc';
    cbn [snd] in Hc'.
  - exact Hc'.
  - apply covered_later; [assumption|].
    intros target opts conn [Hin|[]]. discriminate.
  - apply covered_later; [assumption|].
    intros target opts conn [Hin|[]]. discriminate.
Qed.

Lemma getBitcoinConn_covered (n : nat) (c : BitcoinConfig) (t t1 : T)
      (o : outcome Client) :
  getBitcoinConn w c t = (o, t1) -> covered n t -> covered n t1.
Proof.
  intros E Hc. pose proof (getBitcoinConn_shape c t) as H. rewrite E in H.
  cbn [fst snd] in H.
  inversion H as [e Hne Hr|reads cert e Hm Hn|reads cert client Hm Hn];
    subst; clear H; (apply covered_later; [assumption|]);
    intros target opts conn Hin.
  - destruct Hin as [Hin|[]]. discriminate.
  - inversion Hm; subst; simpl in Hin; intuition discriminate.
  - inversion Hm; subst; simpl in Hin; intuition discriminate.
Qed.

(** [initClients] keeps every dialed channel covered, however it ends. *)
Lemma initClients_covered (n : nat) (c : Config) (t : T) :
  covered n t -> covered n (snd (initClients w c t)).
Proof.
  intros Hc. pose proof (initClients_shape c t) as H.
  destruct (initClients w c t) as [o t']; cbn [fst snd] in *.
  inversion H as
    [ l f t1 HjA
    | alice t1 l f t2 HjA HjB
    | alice t1 bob t2 l f t3 HjA HjB Hbtc
    | alice t1 bob t2 client t3 e HjA HjB Hbtc Hmine
    | alice t1 bob t2 client t3 u HjA HjB Hbtc Hmine ]; subst; clear H.
  all: pose proof (joined_covered n _ _ _ _ _ HjA Hc) as HcA.
  all: try pose proof (joined_covered n _ _ _ _ _ HjB HcA) as HcB.
  all: try pose proof (getBitcoinConn_covered n _ _ _ _ Hbtc HcB) as HcC.
  all: try assumption.
  - apply covered_later; [assumption|].
    intros target opts conn [Hin|[]]. discriminate.
  - apply covered_registered. apply covered_later; [assumption|].
    intros target opts conn [Hin|[]]. discriminate.
Qed.

(** Every registered cleanup is called in the cleanup pass. *)
Lemma teardown_events_In (f : cleanup) (fs : list cleanup) (h : history) :
  In f fs -> exists h', In (cleanup_event w h' f) (teardown_events w h fs).
Proof.
  revert h. induction fs as [|g fs IH]; intros h Hin; [destruct Hin|].
  destruct Hin as [Hin|Hin].
  - subst g. exists h. now left.
  - destruct (IH (h ++ [cleanup_event w h g]) Hin) as [h' Hh'].
    exists h'. now right.
Qed.

(** C10: [getTapClient] returns with the close of its channel already
    registered, having made no probe: the probe of [initClients] comes
    after.  So in a test that uses the fixture, whether [initClients]
    returned or was stopped at a probe or anywhere else, every channel
    that a dial of the setup opened is closed in the teardown. *)
Theorem dialed_channels_are_closed_at_test_end :
  (forall (tc : TapConfig) (t t1 : T) (client : rpcClient),
     getTapClient w tc t = (Done client, t1) ->
     exists conn,
       client = bundle tc conn /\
       cleanups t1 = cleanups t ++ [CloseConn conn] /\
       count is_probe (emitted t t1) = 0%nat) /\
  (forall (c : Config) (t : T) target opts conn,
     In (EvDial target opts (Ok conn)) (emitted t (snd (initClients w c t))) ->
     In (CloseConn conn) (cleanups (snd (initClients w c t)))) /\
  (forall (c : Config) (h0 body : history) target opts conn,
     In (EvDial target opts (Ok conn)) (setup_of (test_run w c h0 body)) ->
     exists r, In (EvClose conn r) (teardown_of (test_run w c h0 body))).
Proof.
  split; [|split].
  - intros tc t t1 client Hget.
    destruct (getTapClient_Done _ _ _ _ Hget)
      as [reads [opts [conn [Hr [_ [Ecl Et]]]]]].
    exists conn. subst. split; [reflexivity|]. split; [reflexivity|].
    rewrite emitted_registered, emitted_later. count_calls.
  - intros c t target opts conn Hin.
    destruct (initClients_covered _ c t (covered_start t)) as [_ Hc].
    now apply (Hc target opts).
  - intros c h0 body target opts conn.
    unfold setup_of, teardown_of, test_run.
    pose proof (initClients_covered _ c _
                  (covered_start {| past := h0; cleanups := [] |}))
      as [_ Hc].
    destruct (initClients w c {| past := h0; cleanups := [] |}) as [o t1].
    pose proof (runCleanup_emitted
                  match o with Done _ => later t1 body | Fatal _ _ => t1 end)
      as Hdown.
    destruct (runCleanup w match o with Done _ => later t1 body
                                   | Fatal _ _ => t1 end) as [os t3].
    cbn [fst snd] in *. intros Hin.
    apply Hc in Hin. rewrite Hdown.
    assert (Hreg : In (CloseConn conn)
              (rev (cleanups match o with Done _ => later t1 body
                                     | Fatal _ _ => t1 end))).
    { apply in_rev. rewrite rev_involutive. now destruct o. }
    destruct (teardown_events_In _ _
                (past match o with Done _ => later t1 body
                              | Fatal _ _ => t1 end) Hreg) as [h' Hh'].
    eexists. exact Hh'.
Qed.

(** ** What the fixture leaves to the cleanup pass *)

Lemma calls_of_event (f : cleanup) (h : history) :
  calls_of w f h = [cleanup_event w h f].
Proof.
  unfold calls_of. rewrite run_cleanup_later. now rewrite emitted_later.
Qed.

(** A run of [initClients] that returned: its calls and its cleanups. *)
Lemma initClients_Done (c : Config) (t t1 : T)
      (alice bob : rpcClient) (bitcoinClient : Client) :
  initClients w c t = (Done (alice, bob, bitcoinClient), t1) ->
  exists connA connB tr,
    alice = bundle (Tapd (Alice c)) connA /\
    bob = bundle (Tapd (Bob c)) connB /\
    t1 = registered (later t tr)
           [ CloseConn connA; CloseConn connB; MineOnCleanup bitcoinClient ].
Proof.
  intros E. pose proof (initClients_shape c t) as H. rewrite E in H.
  cbn [fst snd] in H.
  inversion H as [| | | |alice' tA bob' tB client' tC u HjA HjB Hbtc Hmine];
    subst; clear H.
  inversion HjA as [| |a tA' uA HgetA HprobeA]; subst; clear HjA.
  inversion HjB as [| |b tB' uB HgetB HprobeB]; subst; clear HjB.
  destruct (getTapClient_Done _ _ _ _ HgetA)
    as [readsA [optsA [connA [_ [_ [EA EtA]]]]]].
  destruct (getTapClient_Done _ _ _ _ HgetB)
    as [readsB [optsB [connB [_ [_ [EB EtB]]]]]].
  destruct (getBitcoinConn_later _ _ _ _ Hbtc) as [trC EtC].
  subst. exists connA, connB. eexists.
  split; [reflexivity|]. split; [reflexivity|].
  flatten_state. reflexivity.
Qed.

(** * Further facts *)

(** ** Reading lists of calls and of cleanups *)

Lemma dialed_app (h1 h2 : history) : dialed (h1 ++ h2) = dialed h1 ++ dialed h2.
Proof.
  induction h1 as [|e h1 IH]; simpl; [reflexivity|].
  destruct e as [| ? ? [conn|err] | | | |]; simpl; now rewrite ?IH.
Qed.

Lemma paths_read_app (h1 h2 : history) :
  paths_read (h1 ++ h2) = paths_read h1 ++ paths_read h2.
Proof.
  induction h1 as [|e h1 IH]; simpl; [reflexivity|].
  destruct e; simpl; now rewrite ?IH.
Qed.

Lemma closers_app (fs gs : list cleanup) :
  closers (fs ++ gs) = closers fs ++ closers gs.
Proof.
  induction fs as [|f fs IH]; simpl; [reflexivity|].
  destruct f; simpl; now rewrite ?IH.
Qed.

Lemma miners_app (fs gs : list cleanup) :
  miners (fs ++ gs) = miners fs ++ miners gs.
Proof.
  induction fs as [|f fs IH]; simpl; [reflexivity|].
  destruct f; simpl; now rewrite ?IH.
Qed.

Lemma closers_CloseConn (conns : list ClientConn) :
  closers (map CloseConn conns) = conns.
Proof. induction conns as [|c conns IH]; simpl; now rewrite ?IH. Qed.

Lemma miners_CloseConn (conns : list ClientConn) :
  miners (map CloseConn conns) = [].
Proof. induction conns as [|c conns IH]; simpl; now rewrite ?IH. Qed.

Lemma closers_rev (fs : list cleanup) : closers (rev fs) = rev (closers fs).
Proof.
  induction fs as [|f fs IH]; simpl; [reflexivity|].
  rewrite closers_app, IH. destruct f; simpl; now rewrite ?app_nil_r.
Qed.

Lemma miners_rev (fs : list cleanup) : miners (rev fs) = rev (miners fs).
Proof.
  induction fs as [|f fs IH]; simpl; [reflexivity|].
  rewrite miners_app, IH. destruct f; simpl; now rewrite ?app_nil_r.
Qed.

Lemma reads_dialed (reads : history) :
  forallb is_read reads = true -> dialed reads = [].
Proof.
  induction reads as [|e reads IH]; simpl; [reflexivity|].
  intros H. apply andb_prop in H. destruct H as [He Hr].
  destruct e; try discriminate. auto.
Qed.

(** ** The three blocks of [getTapClient], one run at a time *)

(** A run of [getTapClient] is a run of its certificate block, then, if
    that returned, of its token block, then, if that returned, of its
    dial block. *)
Lemma getTapClient_stages (c : TapConfig) (t : T) :
  exists o1 t1,
    tls_run w c t o1 t1 /\
    match o1 with
    | Fatal l f => getTapClient w c t = (Fatal l f, t1)
    | Done creds =>
        exists o2 t2,
          mac_run w c [ grpc_WithTransportCredentials creds;
                        grpc_WithDefaultCallOptions [maxMsgRecvSize] ]
                  t1 o2 t2 /\
          match o2 with
          | Fatal l f => getTapClient w c t = (Fatal l f, t2)
          | Done opts =>
              exists o3 t3,
                dial_run w c opts t2 o3 t3 /\
                getTapClient w c t = (o3, t3)
          end
    end.
Proof.
  rewrite getTapClient_blocks.
  pose proof (tls_block_shape c t) as H1.
  destruct (tls_block w c t) as [[creds|l f] t1] eqn:E1; cbn [fst snd] in H1;
    do 2 eexists; (split; [exact H1|]); cbv beta iota.
  2: { now apply bind_Fatal. }
  rewrite (bind_Done _ _ _ _ _ E1).
  pose proof (mac_block_shape c
                [ grpc_WithTransportCredentials creds;
                  grpc_WithDefaultCallOptions [maxMsgRecvSize] ] t1) as H2.
  destruct (mac_block w c _ t1) as [[opts|l f] t2] eqn:E2; cbn [fst snd] in H2;
    do 2 eexists; (split; [exact H2|]); cbv beta iota.
  2: { now apply bind_Fatal. }
  rewrite (bind_Done _ _ _ _ _ E2).
  pose proof (dial_block_shape c opts t2) as H3.
  destruct (dial_block w c opts t2) as [o3 t3]; cbn [fst snd] in H3.
  exists o3, t3. now split.
Qed.

(** Go through every way a run of [getTapClient] can go; [E] names what
    the run came to. *)
Ltac tap_cases c t E :=
  let H := fresh "Hrun" in
  let K := fresh "K" in
  destruct (getTapClient_stages c t) as [? [? [H K]]];
  inversion H; subst; clear H; cbv beta iota in K;
  try (lazymatch type of K with
       | ex _ =>
           destruct K as [? [? [H K]]];
           inversion H; subst; clear H; cbv beta iota in K
       end);
  try (lazymatch type of K with
       | ex _ =>
           destruct K as [? [? [H K]]];
           inversion H; subst; clear H
       end);
  rename K into E; rewrite E; cbn [fst snd];
  flatten_state; rewrite ?emitted_registered, ?emitted_later.

(** Settle whether each configured path is empty, from what is known. *)
Ltac settle_paths :=
  repeat match goal with
    | H : ?p = "" |- context [?p =? ""] => rewrite H
    | H : ?p <> "" |- context [?p =? ""] =>
        rewrite (proj2 (String.eqb_neq p "") H)
    end;
  cbn [String.eqb].

(** X1: a run of [getTapClient] dials at most once, and the cleanups it
    leaves are the ones it found followed by one close for each channel
    it opened; a run that was stopped has opened no channel and has
    registered nothing. *)
Theorem getTapClient_opens_at_most_one_channel (c : TapConfig) (t : T) :
  (count is_dial (emitted t (snd (getTapClient w c t))) <= 1)%nat /\
  cleanups (snd (getTapClient w c t)) =
    cleanups t ++
    map CloseConn (dialed (emitted t (snd (getTapClient w c t)))) /\
  (is_Done (fst (getTapClient w c t)) = false ->
   dialed (emitted t (snd (getTapClient w c t))) = [] /\
   cleanups (snd (getTapClient w c t)) = cleanups t).
Proof.
  tap_cases c t E.
  all: unfold count; cbn [filter is_dial dialed map List.length
                          cleanups later registered is_Done].
  all: rewrite ?app_nil_r.
  all: repeat split; try lia; try discriminate.
Qed.



(** X3: when a file read of [getTapClient] fails, the test is stopped on
    that error and the failed read is the last call: of the certificate
    file (line 76), as the only call, or of the token file (line 94).
    Nothing is dialed and no cleanup is registered. *)
Theorem getTapClient_stops_at_failed_read
  (c : TapConfig) (t : T) (path : string) (e : error) :
  In (EvReadFile path (Err e)) (emitted t (snd (getTapClient w c t))) ->
  exists before,
    emitted t (snd (getTapClient w c t)) = before ++ [EvReadFile path (Err e)] /\
    forallb is_read before = true /\
    cleanups (snd (getTapClient w c t)) = cleanups t /\
    ((fst (getTapClient w c t) = Fatal 76 (NoErrorFailed e) /\
      path = tap_TLSPath c /\ before = []) \/
     (fst (getTapClient w c t) = Fatal 94 (NoErrorFailed e) /\
      path = tap_MacPath c)).
Proof.
  tap_cases c t E.
  all: intros Hin; cbn [In] in Hin.
  all: repeat (destruct Hin as [Hin|Hin];
               [ try discriminate; inversion Hin; subst; clear Hin | ]);
    try contradiction.
  all: match goal with
       | |- exists before, ?L = _ /\ _ => exists (removelast L)
       end.
  all: cbn [removelast app forallb is_read andb cleanups later].
  all: repeat split; try reflexivity.
  all: first [ left; repeat split; reflexivity
             | right; repeat split; reflexivity ].
Qed.

(** X4: with a certificate file that holds at least one certificate, the
    dial of [getTapClient] carries, as its first option, transport
    credentials whose root pool is exactly the certificates parsed from
    that file, with no server name override; without such a file there
    is no dial. *)
Theorem getTapClient_trusts_the_certificate_file
  (c : TapConfig) (t : T) (pem : bytes)
  (target : string) (opts : list DialOption) (r : result ClientConn) :
  tap_TLSPath c <> "" ->
  os_ReadFile w (past t) (tap_TLSPath c) = Ok pem ->
  In (EvDial target opts r) (emitted t (snd (getTapClient w c t))) ->
  pem_certificates w pem <> [] /\
  hd_error opts =
    Some (grpc_WithTransportCredentials
            (credentials_NewTLS
               {| ServerName := ""; RootCAs := Some (pem_certificates w pem) |})).
Proof.
  intros Hne Hr.
  tap_cases c t E.
  all: try contradiction.
  all: try congruence.
  all: intros Hin; cbn [In] in Hin.
  all: repeat (destruct Hin as [Hin|Hin];
               [ try discriminate; inversion Hin; subst; clear Hin | ]);
    try contradiction.
  all: match goal with
       | H1 : os_ReadFile _ ?h ?p = Ok ?a, H2 : os_ReadFile _ ?h ?p = Ok ?b
         |- _ => assert (a = b) by congruence; first [subst a | subst b]
       end.
  all: split; [assumption | reflexivity].
Qed.

(** X5: with a token path, the dial of [getTapClient] has three options,
    the third being the per-call credential made of the macaroon decoded
    from the bytes the run read at that path. *)
Theorem getTapClient_attaches_the_token
  (c : TapConfig) (t : T)
  (target : string) (opts : list DialOption) (r : result ClientConn) :
  tap_MacPath c <> "" ->
  In (EvDial target opts r) (emitted t (snd (getTapClient w c t))) ->
  exists macBytes mac macCred,
    In (EvReadFile (tap_MacPath c) (Ok macBytes))
       (emitted t (snd (getTapClient w c t))) /\
    macaroon_UnmarshalBinary w macBytes = Ok mac /\
    macaroons_NewMacaroonCredential w mac = Ok macCred /\
    nth_error opts 2 = Some (grpc_WithPerRPCCredentials macCred) /\
    List.length opts = 3%nat.
Proof.
  intros Hne.
  tap_cases c t E.
  all: try contradiction.
  all: intros Hin; cbn [In] in Hin.
  all: repeat (destruct Hin as [Hin|Hin];
               [ try discriminate; inversion Hin; subst; clear Hin | ]);
    try contradiction.
  all: do 3 eexists.
  all: (split; [cbn [In]; eauto|]).
  all: (split; [eassumption|]); (split; [eassumption|]).
  all: split; reflexivity.
Qed.

(** X6: the bundle [getTapClient] returns keeps the configuration it was
    given, and its four stubs are all built on one connection: the one
    this run dialed, whose close is the last cleanup registered. *)
Theorem getTapClient_bundle_shares_one_channel
  (c : TapConfig) (t : T) (client : rpcClient) :
  fst (getTapClient w c t) = Done client ->
  cfg client = c /\
  exists conn,
    dialed (emitted t (snd (getTapClient w c t))) = [conn] /\
    rpc_TaprootAssetsClient client = taprpc_NewTaprootAssetsClient conn /\
    rpc_UniverseClient client = universerpc_NewUniverseClient conn /\
    rpc_MintClient client = mintrpc_NewMintClient conn /\
    rpc_AssetWalletClient client = assetwalletrpc_NewAssetWalletClient conn /\
    cleanups (snd (getTapClient w c t)) = cleanups t ++ [CloseConn conn].
Proof.
  intros Hdone.
  destruct (getTapClient w c t) as [o t1] eqn:E. cbn [fst snd] in *. subst o.
  destruct (getTapClient_Done _ _ _ _ E)
    as [reads [opts [conn [Hr [_ [Ecl Et]]]]]].
  subst. split; [reflexivity|]. exists conn.
  rewrite emitted_registered, emitted_later, dialed_app, (reads_dialed _ Hr).
  repeat split; reflexivity.
Qed.


(** ** More on [getBitcoinConn] *)

(** Go through every way a run of [getBitcoinConn] can go. *)
Ltac btc_cases c t :=
  let H := fresh "Hrun" in
  let Hm := fresh "Hmat" in
  pose proof (getBitcoinConn_shape c t) as H;
  destruct (getBitcoinConn w c t) as [? ?]; cbn [fst snd] in *;
  inversion H as [? ? ?|? ? ? Hm ?|? ? ? Hm ?]; subst; clear H;
  try (inversion Hm; subst; clear Hm);
  rewrite ?emitted_later; cbn [app].

(** X7: the connection [getBitcoinConn] asks for is addressed at
    host:port, carries the configured user and password, and is always in
    HTTP POST mode. *)
Theorem getBitcoinConn_connection_config
  (c : BitcoinConfig) (t : T) (config : ConnConfig) (r : result Client) :
  In (EvNew config r) (emitted t (snd (getBitcoinConn w c t))) ->
  cc_Host config = Sprintf_s_d (btc_Host c) (btc_Port c) /\
  cc_User config = btc_User c /\
  cc_Pass config = btc_Password c /\
  cc_HTTPPostMode config = true.
Proof.
  btc_cases c t.
  all: intros Hin; cbn [In] in Hin.
  all: repeat (destruct Hin as [Hin|Hin];
               [ try discriminate; inversion Hin; subst; clear Hin | ]);
    try contradiction.
  all: repeat split; reflexivity.
Qed.

(** X8: a run of [getBitcoinConn] reads at most the one certificate file
    and constructs at most one client, as its last call; it dials,
    probes, closes and mines nothing and registers no cleanup.  It
    returns exactly the client the construction gave, and a refused
    construction stops the test on its error (line 157). *)
Theorem getBitcoinConn_constructs_once (c : BitcoinConfig) (t : T) :
  cleanups (snd (getBitcoinConn w c t)) = cleanups t /\
  (exists rest,
     (if btc_TLSPath c =? "" then [] else [btc_TLSPath c]) =
     paths_read (emitted t (snd (getBitcoinConn w c t))) ++ rest) /\
  emitted t (snd (getBitcoinConn w c t)) =
    filter is_read (emitted t (snd (getBitcoinConn w c t))) ++
    filter is_new (emitted t (snd (getBitcoinConn w c t))) /\
  (count is_new (emitted t (snd (getBitcoinConn w c t))) <= 1)%nat /\
  (forall client,
     fst (getBitcoinConn w c t) = Done client <->
     exists config,
       In (EvNew config (Ok client)) (emitted t (snd (getBitcoinConn w c t)))) /\
  (forall config e,
     In (EvNew config (Err e)) (emitted t (snd (getBitcoinConn w c t))) ->
     fst (getBitcoinConn w c t) = Fatal 157 (NoErrorFailed e)).
Proof.
  btc_cases c t.
  all: unfold count; settle_paths.
  all: cbn [filter is_read is_new paths_read app List.length cleanups later].
  all: split; [reflexivity|].
  all: split; [eexists; reflexivity|].
  all: split; [reflexivity|].
  all: split; [lia|].
  all: split.
  all: try (intros returned; split;
            [ intros Hd; try discriminate; inversion Hd; subst;
              eexists; cbn [In]; eauto
            | intros [config Hin]; cbn [In] in Hin;
              repeat (destruct Hin as [Hin|Hin];
                      [ try discriminate; inversion Hin; subst; clear Hin | ]);
              try contradiction; reflexivity ]).
  all: intros config e' Hin; cbn [In] in Hin;
    repeat (destruct Hin as [Hin|Hin];
            [ try discriminate; inversion Hin; subst; clear Hin | ]);
    try contradiction; reflexivity.
Qed.


(** ** What a run of [initClients] adds *)

Lemma grows_emitted (t t' : T) (tr : history) (extra : list cleanup) :
  grows t t' tr extra -> emitted t t' = tr.
Proof.
  intros [Hp _]. unfold emitted. rewrite Hp. apply skipn_length_app.
Qed.

Lemma grows_trans (t t1 t2 : T) (a b : history) (extra : list cleanup) :
  grows t t1 a [] -> grows t1 t2 b extra -> grows t t2 (a ++ b) extra.
Proof.
  intros [Hp1 Hc1] [Hp2 Hc2]. split.
  - rewrite Hp2, Hp1. now rewrite app_assoc.
  - rewrite Hc2, Hc1, dialed_app, map_app, app_nil_r.
    now rewrite <- !app_assoc.
Qed.

Lemma grows_later (t : T) (h : history) :
  dialed h = [] -> grows t (later t h) h [].
Proof.
  intros Hd. split; [reflexivity|].
  rewrite Hd. cbn [map app later cleanups]. now rewrite app_nil_r.
Qed.

Lemma grows_registered (t t' : T) (tr : history) (fs : list cleanup) :
  grows t t' tr [] -> grows t (registered t' fs) tr fs.
Proof.
  intros [Hp Hc]. split; [exact Hp|].
  cbn [registered cleanups]. rewrite Hc, app_nil_r. now rewrite app_assoc.
Qed.

Lemma spends_app (a b : history) (r1 d1 p1 n1 m1 r2 d2 p2 n2 m2 : nat) :
  spends a r1 d1 p1 n1 m1 -> spends b r2 d2 p2 n2 m2 ->
  spends (a ++ b) (r1 + r2) (d1 + d2) (p1 + p2) (n1 + n2) (m1 + m2).
Proof.
  unfold spends. rewrite !count_app. lia.
Qed.

Lemma spends_le (a : history) (r1 d1 p1 n1 m1 r2 d2 p2 n2 m2 : nat) :
  spends a r1 d1 p1 n1 m1 ->
  (r1 <= r2 -> d1 <= d2 -> p1 <= p2 -> n1 <= n2 -> m1 <= m2 ->
   spends a r2 d2 p2 n2 m2)%nat.
Proof. unfold spends. lia. Qed.

(** What one run of [getTapClient] adds. *)
Lemma getTapClient_profile (c : TapConfig) (t : T) :
  exists tr,
    grows t (snd (getTapClient w c t)) tr [] /\
    spends tr 2 1 0 0 0 /\
    match fst (getTapClient w c t) with
    | Done client => exists conn, dialed tr = [conn] /\ client = bundle c conn
    | Fatal _ _ => dialed tr = []
    end.
Proof.
  tap_cases c t E.
  all: eexists; split;
    [ split; [reflexivity|];
      cbn [cleanups registered later dialed map app]; rewrite ?app_nil_r;
      reflexivity
    | ].
  all: split;
    [ unfold spends, count;
      cbn [filter is_read is_dial is_probe is_new is_mine is_close
           List.length];
      lia
    | ].
  all: cbn [dialed]; try reflexivity; eexists; split; reflexivity.
Qed.

(** What building and probing one participant adds. *)
Lemma joined_profile (c : TapConfig) (line : nat) (t t1 : T)
      (o : outcome rpcClient) :
  joined w c line t o t1 ->
  exists tr,
    grows t t1 tr [] /\
    spends tr 2 1 1 0 0 /\
    match o with
    | Done client => exists conn, dialed tr = [conn] /\ client = bundle c conn
    | Fatal _ _ => True
    end.
Proof.
  intros H.
  destruct (getTapClient_profile c t) as [tr [Hg [Hs Hd]]].
  inversion H as [l f t' Hget|client t' e Hget Hprobe|client t' u Hget Hprobe];
    subst; clear H; rewrite Hget in *; cbn [fst snd] in *.
  - exists tr. split; [exact Hg|]. split; [|exact I].
    apply (spends_le _ _ _ _ _ _ _ _ _ _ _ Hs); lia.
  - eexists. split; [|split; [|exact I]].
    + eapply grows_trans; [exact Hg | now apply grows_later].
    + apply (spends_app _ _ 2 1 0 0 0 0 0 1 0 0 Hs).
      unfold spends, count; simpl; lia.
  - eexists. split; [|split].
    + eapply grows_trans; [exact Hg | now apply grows_later].
    + apply (spends_app _ _ 2 1 0 0 0 0 0 1 0 0 Hs).
      unfold spends, count; simpl; lia.
    + destruct Hd as [conn [Hd Hc]]. exists conn.
      rewrite dialed_app, Hd. split; [reflexivity | exact Hc].
Qed.

(** What one run of [getBitcoinConn] adds. *)
Lemma getBitcoinConn_profile (c : BitcoinConfig) (t t1 : T)
      (o : outcome Client) :
  getBitcoinConn w c t = (o, t1) ->
  exists tr,
    grows t t1 tr [] /\
    spends tr 1 0 0 1 0 /\
    dialed tr = [] /\
    match o with
    | Done client =>
        exists config, In (EvNew config (Ok client)) tr
    | Fatal _ _ => True
    end.
Proof.
  intros E. pose proof (getBitcoinConn_shape c t) as H. rewrite E in H.
  cbn [fst snd] in H.
  inversion H as [e Hne Hr|reads cert e Hm Hn|reads cert client Hm Hn];
    subst; clear H; try (inversion Hm; subst; clear Hm).
  all: eexists; split; [apply grows_later; reflexivity|].
  all: split; [unfold spends, count; simpl; lia|].
  all: split; [reflexivity|].
  all: try exact I.
  all: eexists; cbn [In app]; eauto.
Qed.

(** What one run of [initClients] adds, however it ends. *)
Lemma initClients_profile (c : Config) (t : T) :
  exists tr,
    grows t (snd (initClients w c t)) tr
          (mining_cleanup (fst (initClients w c t))) /\
    spends tr 5 2 2 1 1 /\
    match fst (initClients w c t) with
    | Done (alice, bob, bitcoinClient) =>
        exists connA connB config,
          dialed tr = [connA; connB] /\
          alice = bundle (Tapd (Alice c)) connA /\
          bob = bundle (Tapd (Bob c)) connB /\
          In (EvNew config (Ok bitcoinClient)) tr
    | Fatal _ _ => True
    end.
Proof.
  pose proof (initClients_shape c t) as H.
  destruct (initClients w c t) as [o t']; cbn [fst snd] in *.
  inversion H as
    [ l f t1 HjA
    | alice t1 l f t2 HjA HjB
    | alice t1 bob t2 l f t3 HjA HjB Hbtc
    | alice t1 bob t2 client t3 e HjA HjB Hbtc Hmine
    | alice t1 bob t2 client t3 u HjA HjB Hbtc Hmine ]; subst; clear H.
  all: destruct (joined_profile _ _ _ _ _ HjA) as [trA [GA [SA WA]]].
  all: try destruct (joined_profile _ _ _ _ _ HjB) as [trB [GB [SB WB]]].
  all: try destruct (getBitcoinConn_profile _ _ _ _ Hbtc)
             as [trC [GC [SC [DC WC]]]].
  all: cbn [mining_cleanup].
  - exists trA. split; [exact GA|]. split; [|exact I].
    apply (spends_le _ _ _ _ _ _ _ _ _ _ _ SA); lia.
  - exists (trA ++ trB). split; [|split; [|exact I]].
    + exact (grows_trans _ _ _ _ _ _ GA GB).
    + apply (spends_le _ _ _ _ _ _ _ _ _ _ _
               (spends_app _ _ _ _ _ _ _ _ _ _ _ _ SA SB)); lia.
  - exists ((trA ++ trB) ++ trC). split; [|split; [|exact I]].
    + exact (grows_trans _ _ _ _ _ _ (grows_trans _ _ _ _ _ _ GA GB) GC).
    + apply (spends_le _ _ _ _ _ _ _ _ _ _ _
               (spends_app _ _ _ _ _ _ _ _ _ _ _ _
                  (spends_app _ _ _ _ _ _ _ _ _ _ _ _ SA SB) SC)); lia.
  - exists (((trA ++ trB) ++ trC) ++ [EvMineBlocks client 1 0 (Err e)]).
    split; [|split; [|exact I]].
    + apply (grows_trans _ _ _ _ _ _
               (grows_trans _ _ _ _ _ _ (grows_trans _ _ _ _ _ _ GA GB) GC)).
      now apply grows_later.
    + assert (SM : forall r, spends [EvMineBlocks client 1 0 r] 0 0 0 0 1)
        by (intros r; unfold spends, count; simpl; lia).
      apply (spends_le _ _ _ _ _ _ _ _ _ _ _
               (spends_app _ _ _ _ _ _ _ _ _ _ _ _
                  (spends_app _ _ _ _ _ _ _ _ _ _ _ _
                     (spends_app _ _ _ _ _ _ _ _ _ _ _ _ SA SB) SC)
                  (SM _))); lia.
  - exists (((trA ++ trB) ++ trC) ++ [EvMineBlocks client 1 0 (Ok u)]).
    split; [|split].
    + apply grows_registered.
      apply (grows_trans _ _ _ _ _ _
               (grows_trans _ _ _ _ _ _ (grows_trans _ _ _ _ _ _ GA GB) GC)).
      now apply grows_later.
    + assert (SM : forall r, spends [EvMineBlocks client 1 0 r] 0 0 0 0 1)
        by (intros r; unfold spends, count; simpl; lia).
      apply (spends_le _ _ _ _ _ _ _ _ _ _ _
               (spends_app _ _ _ _ _ _ _ _ _ _ _ _
                  (spends_app _ _ _ _ _ _ _ _ _ _ _ _
                     (spends_app _ _ _ _ _ _ _ _ _ _ _ _ SA SB) SC)
                  (SM _))); lia.
    + destruct WA as [connA [DA EA]]. destruct WB as [connB [DB EB]].
      destruct WC as [config Hin].
      exists connA, connB, config.
      rewrite !dialed_app, DA, DB, DC. cbn [dialed app].
      split; [reflexivity|]. split; [exact EA|]. split; [exact EB|].
      apply in_or_app. left. apply in_or_app. now right.
Qed.


(** The cleanups a run of [initClients] leaves. *)
Lemma initClients_cleanups_shape (c : Config) (t : T) :
  cleanups (snd (initClients w c t)) =
    cleanups t ++
    map CloseConn (dialed (emitted t (snd (initClients w c t)))) ++
    mining_cleanup (fst (initClients w c t)).
Proof.
  destruct (initClients_profile c t) as [tr [G _]].
  rewrite (grows_emitted _ _ _ _ G). now destruct G.
Qed.

(** X9: however a run of [initClients] ends, the cleanups it leaves are
    the ones it found, followed by one close for each channel it opened,
    in the order the channels were opened, followed, only when it
    returned, by the mining cleanup on the client it returns. *)
Theorem initClients_cleanups_match_dials (c : Config) (t : T) :
  cleanups (snd (initClients w c t)) =
    cleanups t ++
    map CloseConn (dialed (emitted t (snd (initClients w c t)))) ++
    mining_cleanup (fst (initClients w c t)).
Proof.
  destruct (initClients_profile c t) as [tr [[Hpast Hcleanups] _]].
  assert (Htr : emitted t (snd (initClients w c t)) = tr).
  { unfold emitted. rewrite Hpast. apply skipn_length_app. }
  rewrite Htr. exact Hcleanups.
Qed.

(** X10: the setup of [initClients] reads at most five files, dials at
    most twice, probes at most twice, constructs at most one chain
    client, mines at most once, and closes nothing: the channels it
    opened are still open when it ends. *)
Theorem initClients_setup_budget (c : Config) (t : T) :
  (count is_read (emitted t (snd (initClients w c t))) <= 5)%nat /\
  (count is_dial (emitted t (snd (initClients w c t))) <= 2)%nat /\
  (count is_probe (emitted t (snd (initClients w c t))) <= 2)%nat /\
  (count is_new (emitted t (snd (initClients w c t))) <= 1)%nat /\
  (count is_mine (emitted t (snd (initClients w c t))) <= 1)%nat /\
  count is_close (emitted t (snd (initClients w c t))) = 0%nat.
Proof.
  destruct (initClients_profile c t) as [tr [G [S _]]].
  rewrite (grows_emitted _ _ _ _ G). exact S.
Qed.

(** X11: what [initClients] returns is what it built: the first bundle
    carries Alice's configuration and is on the first channel dialed, the
    second carries Bob's and is on the second, and the chain client is
    the one a construction of this run gave; it dialed exactly twice. *)
Theorem initClients_returns_what_it_built
  (c : Config) (t : T) (alice bob : rpcClient) (bitcoinClient : Client) :
  fst (initClients w c t) = Done (alice, bob, bitcoinClient) ->
  exists connA connB config,
    dialed (emitted t (snd (initClients w c t))) = [connA; connB] /\
    alice = bundle (Tapd (Alice c)) connA /\
    bob = bundle (Tapd (Bob c)) connB /\
    In (EvNew config (Ok bitcoinClient))
       (emitted t (snd (initClients w c t))).
Proof.
  intros Hdone.
  destruct (initClients_profile c t) as [tr [G [_ W]]].
  rewrite (grows_emitted _ _ _ _ G). rewrite Hdone in W. exact W.
Qed.

(** ** The cleanup pass, call by call *)

Lemma closed_teardown_events (fs : list cleanup) (h : history) :
  closed (teardown_events w h fs) = closers fs.
Proof.
  revert h. induction fs as [|f fs IH]; intros h; [reflexivity|].
  destruct f; cbn [teardown_events cleanup_event closed closers];
    now rewrite IH.
Qed.

Lemma mines_teardown_events (fs : list cleanup) (h : history) :
  count is_mine (teardown_events w h fs) = List.length (miners fs).
Proof.
  revert h. induction fs as [|f fs IH]; intros h; [reflexivity|].
  destruct f; cbn [teardown_events cleanup_event miners];
    rewrite count_cons, IH; reflexivity.
Qed.

Lemma teardown_events_kinds (fs : list cleanup) (h : history) :
  forallb (fun e => is_close e || is_mine e) (teardown_events w h fs) = true.
Proof.
  revert h. induction fs as [|f fs IH]; intros h; [reflexivity|].
  destruct f; cbn [teardown_events cleanup_event forallb is_close is_mine orb];
    now rewrite IH.
Qed.

(** The two parts of a test on the fixture, by the run of [initClients]
    in it. *)
Lemma test_run_parts (c : Config) (h0 body : history) :
  let t0 := {| past := h0; cleanups := [] |} in
  setup_of (test_run w c h0 body) = emitted t0 (snd (initClients w c t0)) /\
  exists h,
    teardown_of (test_run w c h0 body) =
    teardown_events w h (rev (cleanups (snd (initClients w c t0)))).
Proof.
  intros t0. unfold setup_of, teardown_of, test_run. fold t0.
  destruct (initClients w c t0) as [o t1].
  pose proof (runCleanup_emitted
                match o with Done _ => later t1 body | Fatal _ _ => t1 end)
    as Hdown.
  destruct (runCleanup w match o with Done _ => later t1 body
                                 | Fatal _ _ => t1 end) as [os t3].
  cbn [fst snd] in *. split; [reflexivity|].
  rewrite Hdown. destruct o; eexists; reflexivity.
Qed.

(** X12: in a test on the fixture, however the setup ended, the teardown
    closes exactly the channels the setup opened, each once, the last
    opened first. *)
Theorem teardown_closes_what_setup_dialed (c : Config) (h0 body : history) :
  closed (teardown_of (test_run w c h0 body)) =
  rev (dialed (setup_of (test_run w c h0 body))).
Proof.
  destruct (test_run_parts c h0 body) as [Hs [h Hd]].
  rewrite Hs, Hd, closed_teardown_events, closers_rev.
  rewrite initClients_cleanups_shape.
  cbn [cleanups app].
  rewrite closers_app, closers_CloseConn.
  destruct (fst (initClients w c {| past := h0; cleanups := [] |}))
    as [[[a b] bc]|l f]; cbn [mining_cleanup closers]; now rewrite app_nil_r.
Qed.


(** X13: in a test on the fixture, the teardown mines one block when
    [initClients] returned and none when it was stopped, also when it was
    stopped by its own first mining; and the teardown makes no call
    other than closes and minings. *)
Theorem teardown_mines_iff_fixture_returned (c : Config) (h0 body : history) :
  count is_mine (teardown_of (test_run w c h0 body)) =
    (if is_Done (outcome_of (test_run w c h0 body)) then 1 else 0)%nat /\
  forallb (fun e => is_close e || is_mine e)
          (teardown_of (test_run w c h0 body)) = true.
Proof.
  destruct (test_run_parts c h0 body) as [_ [h Hd]].
  rewrite Hd, outcome_of_test_run.
  split; [|apply teardown_events_kinds].
  rewrite mines_teardown_events, miners_rev, length_rev.
  rewrite initClients_cleanups_shape. cbn [cleanups app].
  rewrite miners_app, miners_CloseConn. cbn [app].
  destruct (fst (initClients w c {| past := h0; cleanups := [] |}))
    as [[[a b] bc]|l f]; reflexivity.
Qed.

(** How the calls of cleanups come out, for any list of them. *)
Lemma run_all_outcomes (fs : list cleanup) (t : T) :
  map is_Done (fst (run_all w fs t)) =
    map (fun e => negb (failed e)) (teardown_events w (past t) fs) /\
  forall l f,
    In (Fatal l f) (fst (run_all w fs t)) ->
    exists e,
      f = NoErrorFailed e /\
      ((l = 125%nat /\
        exists conn, In (EvClose conn (Err e))
                        (teardown_events w (past t) fs)) \/
       (l = 63%nat /\
        exists bitcoinClient,
          In (EvMineBlocks bitcoinClient 1 0 (Err e))
             (teardown_events w (past t) fs))).
Proof.
  revert t. induction fs as [|g fs IH]; intros t.
  - split; [reflexivity|]. intros l f [].
  - cbn [run_all teardown_events].
    pose proof (run_cleanup_later g t) as Hg.
    assert (Ho : fst (run_cleanup w g t) =
                 match cleanup_event w (past t) g with
                 | EvClose _ (Err e) => Fatal 125 (NoErrorFailed e)
                 | EvMineBlocks _ _ _ (Err e) => Fatal 63 (NoErrorFailed e)
                 | _ => Done tt
                 end).
    { destruct g as [conn|bc];
        unfold run_cleanup, MineBlocks, bind, call, require_NoError;
        cbn [cleanup_event past].
      - now destruct (conn_Close w (past t) conn) as [[]|e].
      - now destruct (itest_MineBlocks w (past t) bc 1 0) as [[]|e]. }
    destruct (run_cleanup w g t) as [o t1]; cbn [fst snd] in *. subst t1 o.
    specialize (IH (later t [cleanup_event w (past t) g])).
    destruct (run_all w fs (later t [cleanup_event w (past t) g]))
      as [os t2]; cbn [fst snd] in *.
    cbn [later past] in IH. destruct IH as [IH1 IH2].
    split.
    + cbn [map]. rewrite IH1. f_equal.
      destruct g as [conn|bc]; cbn [cleanup_event].
      * now destruct (conn_Close w (past t) conn).
      * now destruct (itest_MineBlocks w (past t) bc 1 0).
    + intros l f [Hhd|Htl].
      * destruct g as [conn|bc]; cbn [cleanup_event] in *.
        -- destruct (conn_Close w (past t) conn) as [[]|e]; [discriminate|].
           inversion Hhd; subst. exists e. split; [reflexivity|].
           left. split; [reflexivity|]. exists conn. now left.
        -- destruct (itest_MineBlocks w (past t) bc 1 0) as [[]|e];
             [discriminate|].
           inversion Hhd; subst. exists e. split; [reflexivity|].
           right. split; [reflexivity|]. exists bc. now left.
      * destruct (IH2 l f Htl) as [e [Hf [[Hl [conn Hin]]|[Hl [bc Hin]]]]];
          exists e; (split; [exact Hf|]).
        -- left. split; [exact Hl|]. exists conn. now right.
        -- right. split; [exact Hl|]. exists bc. now right.
Qed.

(** The calls of the cleanup pass, read back as the cleanups called. *)
Lemma teardown_events_cleanups (fs : list cleanup) (h : history) :
  map cleanup_of_event (teardown_events w h fs) = map Some fs.
Proof.
  revert h. induction fs as [|g fs IH]; intros h; [reflexivity|].
  cbn [teardown_events map]. rewrite IH. f_equal.
  now destruct g.
Qed.

(** What each cleanup of the pass came to, by the call it made. *)
Lemma run_all_cleanup_outcomes (fs : list cleanup) (t : T) :
  fst (run_all w fs t) = map cleanup_outcome (teardown_events w (past t) fs).
Proof.
  revert t. induction fs as [|g fs IH]; intros t; [reflexivity|].
  cbn [run_all teardown_events map].
  pose proof (run_cleanup_later g t) as Hg.
  assert (Ho : fst (run_cleanup w g t) =
               cleanup_outcome (cleanup_event w (past t) g)).
  { destruct g as [conn|bc];
      unfold run_cleanup, MineBlocks, bind, call, require_NoError;
      cbn [cleanup_event past cleanup_outcome].
    - now destruct (conn_Close w (past t) conn) as [[]|e].
    - now destruct (itest_MineBlocks w (past t) bc 1 0) as [[]|e]. }
  destruct (run_cleanup w g t) as [o t1]; cbn [fst snd] in *. subst t1 o.
  specialize (IH (later t [cleanup_event w (past t) g])).
  destruct (run_all w fs (later t [cleanup_event w (past t) g]))
    as [os t2]; cbn [fst snd] in *.
  cbn [later past] in IH. now rewrite IH.
Qed.

(** X14: the cleanup pass calls every registered cleanup once, last added
    first, closes and minings alike: read back as cleanups, the calls it
    makes are the registered cleanups in reverse, each call being the
    outside's answer to that cleanup at the history as it then stands.
    Each cleanup comes out as its one outside call does: a close that
    returns an error fails the test on that error at line 125, a mining
    that fails does at line 63, every other cleanup returns, and no
    failure keeps the later cleanups from being called. *)
Theorem cleanup_pass_reports_failures (t : T) :
  List.length (fst (runCleanup w t)) = List.length (cleanups t) /\
  closed (emitted t (snd (runCleanup w t))) = rev (closers (cleanups t)) /\
  map is_Done (fst (runCleanup w t)) =
    map (fun e => negb (failed e)) (emitted t (snd (runCleanup w t))) /\
  (forall l f,
    In (Fatal l f) (fst (runCleanup w t)) ->
    exists e,
      f = NoErrorFailed e /\
      ((l = 125%nat /\
        exists conn,
          In (EvClose conn (Err e)) (emitted t (snd (runCleanup w t)))) \/
       (l = 63%nat /\
        exists bitcoinClient,
          In (EvMineBlocks bitcoinClient 1 0 (Err e))
             (emitted t (snd (runCleanup w t)))))) /\
  map cleanup_of_event (emitted t (snd (runCleanup w t))) =
    map Some (rev (cleanups t)) /\
  emitted t (snd (runCleanup w t)) =
    teardown_events w (past t) (rev (cleanups t)) /\
  fst (runCleanup w t) =
    map cleanup_outcome (emitted t (snd (runCleanup w t))) /\
  past (snd (runCleanup w t)) =
    past t ++ emitted t (snd (runCleanup w t)).
Proof.
  rewrite runCleanup_emitted. unfold runCleanup.
  destruct (run_all_outcomes (rev (cleanups t))
              {| past := past t; cleanups := [] |}) as [H1 H2].
  cbn [past] in *.
  split; [|split; [|split; [|split; [|split; [|split; [|split]]]]]].
  - rewrite <- (length_map is_Done), H1, length_map.
    rewrite <- (length_rev (cleanups t)).
    generalize (rev (cleanups t)) (past t).
    induction l as [|g l IH]; intros h; simpl; [reflexivity|].
    now rewrite IH.
  - now rewrite closed_teardown_events, closers_rev.
  - exact H1.
  - exact H2.
  - apply teardown_events_cleanups.
  - reflexivity.
  - apply (run_all_cleanup_outcomes (rev (cleanups t))
             {| past := past t; cleanups := [] |}).
  - rewrite run_all_later. reflexivity.
Qed.

(** ** The dial address *)

Lemma no_colon_uint (d : Decimal.uint) :
  no_colon (NilEmpty.string_of_uint d) = true.
Proof. induction d; simpl; auto. Qed.

Lemma no_colon_port (port : Z) :
  no_colon (NilZero.string_of_int (Z.to_int port)) = true.
Proof.
  destruct port as [|p|p]; [reflexivity| |];
    unfold Z.to_int, NilZero.string_of_int, NilZero.string_of_uint;
    pose proof (DecimalPos.Unsigned.to_uint_nonnil p) as Hn;
    destruct (Pos.to_uint p) eqn:Ep; try contradiction;
    rewrite <- ?Ep; cbn [no_colon]; rewrite ?Ep;
    try apply (no_colon_uint (_ u)); simpl; apply no_colon_uint.
Qed.

Lemma port_digits_inj (p q : Z) :
  NilZero.string_of_int (Z.to_int p) = NilZero.string_of_int (Z.to_int q) ->
  p = q.
Proof.
  intros H. apply DecimalZ.to_int_inj.
  assert (Hnn : forall z, Z.to_int z <> Decimal.Pos Decimal.Nil /\
                          Z.to_int z <> Decimal.Neg Decimal.Nil).
  { intros [|z|z]; simpl; split; try discriminate;
      intros E; inversion E as [E'];
      now apply (DecimalPos.Unsigned.to_uint_nonnil z). }
  destruct (Hnn p) as [Hp1 Hp2]. destruct (Hnn q) as [Hq1 Hq2].
  pose proof (NilZero.isi _ Hp1 Hp2) as Ip.
  pose proof (NilZero.isi _ Hq1 Hq2) as Iq.
  rewrite H in Ip. congruence.
Qed.

Lemma split_at_last_colon (a b x y : string) :
  no_colon x = true -> no_colon y = true ->
  (a ++ ":" ++ x)%string = (b ++ ":" ++ y)%string -> a = b /\ x = y.
Proof.
  intros Hx Hy. revert b.
  induction a as [|ch a IH]; intros [|ch' b] H; simpl in H.
  - inversion H. now split.
  - inversion H as [[Hc Hrest]]. subst.
    exfalso. clear -Hx.
    induction b as [|d b IHb]; simpl in Hx.
    + discriminate.
    + apply andb_prop in Hx. now apply IHb.
  - inversion H as [[Hc Hrest]]. subst.
    exfalso. clear -Hy.
    induction a as [|d a IHa]; simpl in Hy.
    + discriminate.
    + apply andb_prop in Hy. now apply IHa.
  - inversion H as [[Hc Hrest]]. subst.
    destruct (IH b Hrest) as [Hab Hxy]. subst. now split.
Qed.

(** X15: the address dialed determines host and port: two configurations
    are given the same address only when they name the same host and the
    same port, whatever the host string is. *)
Theorem Sprintf_s_d_inj (host1 host2 : string) (port1 port2 : Z) :
  Sprintf_s_d host1 port1 = Sprintf_s_d host2 port2 ->
  host1 = host2 /\ port1 = port2.
Proof.
  unfold Sprintf_s_d. intros H.
  destruct (split_at_last_colon _ _ _ _
              (no_colon_port port1) (no_colon_port port2) H) as [Hh Hp].
  split; [exact Hh|]. now apply port_digits_inj.
Qed.


(** ** A failed call is the last call *)

Lemma stops_after_clean {A} (a b : history) (o : outcome A) :
  existsb failed a = false ->
  stops_at_failure b o -> stops_at_failure (a ++ b) o.
Proof.
  intros Ha. destruct o as [x|l f]; cbn [stops_at_failure].
  - intros Hb. now rewrite existsb_app, Ha, Hb.
  - intros [Hb|[before [e [err [Hb [Hc [He Hf]]]]]]].
    + left. now rewrite existsb_app, Ha, Hb.
    + right. exists (a ++ before), e, err.
      rewrite Hb, app_assoc, existsb_app, Ha, Hc. repeat split; assumption.
Qed.

Lemma stops_weaken {A B} (tr : history) (l : nat) (f : failure) :
  stops_at_failure tr (@Fatal A l f) -> forall l', stops_at_failure tr (@Fatal B l' f).
Proof. intros H l'. exact H. Qed.

Lemma getTapClient_halts (c : TapConfig) (t : T) :
  stops_at_failure (emitted t (snd (getTapClient w c t)))
                   (fst (getTapClient w c t)).
Proof.
  tap_cases c t E.
  all: cbn [stops_at_failure existsb failed orb].
  all: try reflexivity.
  all: first [ left; reflexivity
             | right;
               match goal with
               | |- exists before e err, ?L = _ /\ _ =>
                   exists (removelast L), (last L (EvReadFile "" (Ok [])))
               end;
               eexists; cbn [removelast last app existsb failed orb error_of];
               repeat split; reflexivity ].
Qed.

Lemma joined_halts (c : TapConfig) (line : nat) (t t1 : T)
      (o : outcome rpcClient) :
  joined w c line t o t1 -> stops_at_failure (emitted t t1) o.
Proof.
  intros H.
  pose proof (getTapClient_halts c t) as Hh.
  destruct (getTapClient_profile c t) as [tr [G _]].
  inversion H as [l f t' Hget|client t' e Hget Hprobe|client t' u Hget Hprobe];
    subst; clear H; rewrite Hget in *; cbn [fst snd] in *.
  - exact Hh.
  - rewrite (grows_emitted _ _ _ _ G) in Hh.
    assert (Ge : emitted t (later t' [EvGetInfo (rpc_TaprootAssetsClient client)
                                        (Err e)]) =
                 tr ++ [EvGetInfo (rpc_TaprootAssetsClient client) (Err e)]).
    { unfold emitted, later; cbn [past]. destruct G as [Gp _].
      rewrite Gp, <- app_assoc. apply skipn_length_app. }
    rewrite Ge. right. do 3 eexists. repeat split; try reflexivity. exact Hh.
  - rewrite (grows_emitted _ _ _ _ G) in Hh.
    assert (Ge : emitted t (later t' [EvGetInfo (rpc_TaprootAssetsClient client)
                                        (Ok u)]) =
                 tr ++ [EvGetInfo (rpc_TaprootAssetsClient client) (Ok u)]).
    { unfold emitted, later; cbn [past]. destruct G as [Gp _].
      rewrite Gp, <- app_assoc. apply skipn_length_app. }
    rewrite Ge. cbn [stops_at_failure] in *.
    now rewrite existsb_app, Hh.
Qed.

Lemma getBitcoinConn_halts (c : BitcoinConfig) (t : T) :
  stops_at_failure (emitted t (snd (getBitcoinConn w c t)))
                   (fst (getBitcoinConn w c t)).
Proof.
  btc_cases c t.
  all: cbn [stops_at_failure existsb failed orb].
  all: try reflexivity.
  all: right;
    match goal with
    | |- exists before e err, ?L = _ /\ _ =>
        exists (removelast L), (last L (EvReadFile "" (Ok [])))
    end;
    eexists; cbn [removelast last app existsb failed orb error_of];
    repeat split; reflexivity.
Qed.

Lemma emitted_trans (t t1 t2 : T) (a b : history) (x y : list cleanup) :
  grows t t1 a x -> grows t1 t2 b y ->
  emitted t t2 = emitted t t1 ++ emitted t1 t2.
Proof.
  intros [P1 _] [P2 _]. unfold emitted.
  rewrite P2, P1, <- app_assoc, !skipn_length_app.
  now rewrite app_assoc, skipn_length_app.
Qed.

Lemma initClients_halts (c : Config) (t : T) :
  stops_at_failure (emitted t (snd (initClients w c t)))
                   (fst (initClients w c t)).
Proof.
  pose proof (initClients_shape c t) as H.
  destruct (initClients w c t) as [o t']; cbn [fst snd] in *.
  inversion H as
    [ l f t1 HjA
    | alice t1 l f t2 HjA HjB
    | alice t1 bob t2 l f t3 HjA HjB Hbtc
    | alice t1 bob t2 client t3 e HjA HjB Hbtc Hmine
    | alice t1 bob t2 client t3 u HjA HjB Hbtc Hmine ]; subst; clear H.
  all: pose proof (joined_halts _ _ _ _ _ HjA) as HA.
  all: destruct (joined_profile _ _ _ _ _ HjA) as [trA [GA _]].
  all: try pose proof (joined_halts _ _ _ _ _ HjB) as HB.
  all: try destruct (joined_profile _ _ _ _ _ HjB) as [trB [GB _]].
  all: try (pose proof (getBitcoinConn_halts (Bitcoin c) t2) as HC;
            rewrite Hbtc in HC; cbn [fst snd] in HC).
  all: try destruct (getBitcoinConn_profile _ _ _ _ Hbtc) as [trC [GC _]].
  - exact (stops_weaken _ _ _ HA _).
  - rewrite (emitted_trans _ _ _ _ _ _ _ GA GB).
    apply stops_after_clean; [exact HA|]. exact (stops_weaken _ _ _ HB _).
  - pose proof (grows_trans _ _ _ _ _ _ GA GB) as GAB.
    rewrite (emitted_trans _ _ _ _ _ _ _ GAB GC),
            (emitted_trans _ _ _ _ _ _ _ GA GB).
    apply stops_after_clean; [now rewrite existsb_app, HA, HB|].
    exact (stops_weaken _ _ _ HC _).
  - pose proof (grows_trans _ _ _ _ _ _
                  (grows_trans _ _ _ _ _ _ GA GB) GC) as GABC.
    assert (GM : grows t3 (later t3 [EvMineBlocks client 1 0 (Err e)])
                   [EvMineBlocks client 1 0 (Err e)] [])
      by now apply grows_later.
    rewrite (emitted_trans _ _ _ _ _ _ _ GABC GM),
            (grows_emitted _ _ _ _ GABC), emitted_later.
    rewrite (grows_emitted _ _ _ _ GA) in HA.
    rewrite (grows_emitted _ _ _ _ GB) in HB.
    rewrite (grows_emitted _ _ _ _ GC) in HC.
    right. do 3 eexists. split; [reflexivity|].
    split; [now rewrite !existsb_app, HA, HB, HC|].
    split; reflexivity.
  - pose proof (grows_trans _ _ _ _ _ _
                  (grows_trans _ _ _ _ _ _ GA GB) GC) as GABC.
    assert (GM : grows t3 (later t3 [EvMineBlocks client 1 0 (Ok u)])
                   [EvMineBlocks client 1 0 (Ok u)] [])
      by now apply grows_later.
    rewrite emitted_registered.
    rewrite (emitted_trans _ _ _ _ _ _ _ GABC GM),
            (grows_emitted _ _ _ _ GABC), emitted_later.
    rewrite (grows_emitted _ _ _ _ GA) in HA.
    rewrite (grows_emitted _ _ _ _ GB) in HB.
    rewrite (grows_emitted _ _ _ _ GC) in HC.
    cbn [stops_at_failure] in *.
    now rewrite !existsb_app, HA, HB, HC.
Qed.

(** X16: no run of [initClients] goes on after a call that failed.  When
    a call of the setup, whichever it is, comes back with an error, it is
    the last call of the setup, no earlier call had failed, and the test
    is stopped on that very error.  A setup that returned saw no call
    fail. *)
Theorem initClients_stops_at_first_failure (c : Config) (t : T) :
  (is_Done (fst (initClients w c t)) = true ->
   existsb failed (emitted t (snd (initClients w c t))) = false) /\
  (forall e,
     In e (emitted t (snd (initClients w c t))) ->
     failed e = true ->
     exists before l err,
       emitted t (snd (initClients w c t)) = before ++ [e] /\
       existsb failed before = false /\
       error_of e = Some err /\
       fst (initClients w c t) = Fatal l (NoErrorFailed err)).
Proof.
  pose proof (initClients_halts c t) as H.
  destruct (fst (initClients w c t)) as [v|l f];
    cbn [stops_at_failure is_Done] in *.
  - split; [intros _; exact H|].
    intros e Hin Hf. exfalso.
    assert (Hex : existsb failed (emitted t (snd (initClients w c t))) = true)
      by (apply existsb_exists; now exists e).
    congruence.
  - split; [discriminate|].
    intros e Hin Hf.
    destruct H as [H|[before [e' [err [Htr [Hc [He Hfe]]]]]]].
    + exfalso.
      assert (Hex : existsb failed (emitted t (snd (initClients w c t))) = true)
        by (apply existsb_exists; now exists e).
      congruence.
    + rewrite Htr in Hin. apply in_app_or in Hin.
      destruct Hin as [Hin|[Hin|[]]].
      * exfalso.
        assert (Hex : existsb failed before = true)
          by (apply existsb_exists; now exists e).
        congruence.
      * subst e'. exists before, l, err. subst f. repeat split; assumption.
Qed.

(** X17: [getTapClient] returns a bundle whenever its credentials load
    and the dial goes through: each path is either empty or names a file
    that reads and holds what is expected (at least one certificate; a
    macaroon that decodes and wraps). *)
Theorem getTapClient_returns_when_credentials_load (c : TapConfig) (t : T) :
  (tap_TLSPath c = "" \/
   exists pem,
     os_ReadFile w (past t) (tap_TLSPath c) = Ok pem /\
     pem_certificates w pem <> []) ->
  (tap_MacPath c = "" \/
   exists macBytes mac macCred,
     file_holds w (tap_MacPath c) macBytes /\
     macaroon_UnmarshalBinary w macBytes = Ok mac /\
     macaroons_NewMacaroonCredential w mac = Ok macCred) ->
  (forall h opts, exists conn,
     grpc_DialContext w h (Sprintf_s_d (tap_Host c) (tap_Port c)) opts =
     Ok conn) ->
  exists conn, fst (getTapClient w c t) = Done (bundle c conn).
Proof.
  intros Htls Hmac Hdial.
  tap_cases c t E.
  all: try (eexists; reflexivity).
  all: exfalso.
  all: try match goal with
    | H : grpc_DialContext _ ?h _ ?o = Err _ |- _ =>
        destruct (Hdial h o) as [conn' Hd]; congruence
    end.
  all: destruct Htls as [Htls|[pem' [Hr' Hp']]]; try contradiction;
    try congruence.
  all: destruct Hmac as [Hmac|[b' [m' [cr' [Hf' [Hu' Hw']]]]]];
    try contradiction.
  all: try match goal with
    | H : os_ReadFile _ _ (tap_MacPath _) = _ |- _ => rewrite Hf' in H
    end.
  all: try congruence.
Qed.


(** ** The order of the steps *)

Lemma walk_app (c : Config) (s : stage) (h1 h2 : history) :
  walk c s (h1 ++ h2) =
  match walk c s h1 with Some s' => walk c s' h2 | None => None end.
Proof.
  revert s. induction h1 as [|e h1 IH]; intros s; simpl; [reflexivity|].
  destruct (step c s e); auto.
Qed.

Lemma credential_path_tls (c : Config) (p : party) :
  tap_TLSPath (party_config c p) <> "" ->
  credential_path c p (tap_TLSPath (party_config c p)) = true.
Proof.
  intros H. unfold credential_path.
  rewrite (proj2 (String.eqb_neq _ "") H), String.eqb_refl. reflexivity.
Qed.

Lemma credential_path_mac (c : Config) (p : party) :
  tap_MacPath (party_config c p) <> "" ->
  credential_path c p (tap_MacPath (party_config c p)) = true.
Proof.
  intros H. unfold credential_path.
  rewrite (proj2 (String.eqb_neq _ "") H), String.eqb_refl.
  now rewrite orb_true_r.
Qed.

Lemma party_address_eqb (c : Config) (p : party) :
  (Sprintf_s_d (tap_Host (party_config c p)) (tap_Port (party_config c p))
   =? party_address c p) = true.
Proof. apply String.eqb_refl. Qed.

(** Calls made before do not change why a run ended. *)
Lemma ends_at_prepend {A} (c : Config) (a b : history) (o : outcome A)
      (s : stage) :
  ends_at w c b o s -> ends_at w c (a ++ b) o s.
Proof.
  destruct s; cbn [ends_at]; try tauto.
  - intros [before [path [content [line [f [E H]]]]]].
    exists (a ++ before), path, content, line, f.
    rewrite E, app_assoc. tauto.
  - intros [before [e [line [err [E H]]]]].
    exists (a ++ before), e, line, err. rewrite E, app_assoc. tauto.
Qed.

(** Why a run was stopped does not depend on what it would have
    returned. *)
Lemma ends_at_Fatal {A B} (c : Config) (tr : history) (l : nat) (f : failure)
      (s : stage) :
  ends_at w c tr (@Fatal A l f) s -> ends_at w c tr (@Fatal B l f) s.
Proof.
  destruct s; cbn [ends_at]; try tauto.
  - intros [before [path [content [line [f' [E [Ho H]]]]]]].
    inversion Ho; subst. exists before, path, content, line, f'. tauto.
  - intros [v Hv]. discriminate.
  - intros [before [e [line [err [E [He Ho]]]]]].
    inversion Ho; subst. exists before, e, line, err. tauto.
Qed.

(** One run of [getTapClient] for a participant, as the walk sees it. *)
Lemma getTapClient_walk (c : Config) (p : party) (t : T) :
  exists s,
    walk c (Credentials p)
      (emitted t (snd (getTapClient w (party_config c p) t))) = Some s /\
    match fst (getTapClient w (party_config c p) t) with
    | Done client =>
        exists conn, client = bundle (party_config c p) conn /\
                     s = Dialed p conn
    | Fatal l f =>
        ends_at w c (emitted t (snd (getTapClient w (party_config c p) t)))
          (@Fatal unit l f) s
    end.
Proof.
  tap_cases (party_config c p) t E.
  all: eexists; split;
    [ repeat (cbn [walk step app];
              first [ rewrite credential_path_tls by assumption
                    | rewrite credential_path_mac by assumption
                    | rewrite party_address_eqb ]);
      cbn [walk step app]; reflexivity
    | ].
  all: try (eexists; split; reflexivity).
  all: cbn [ends_at]; unfold rejected_credential.
  all: try solve [ exists (@nil event); do 3 eexists;
                   repeat split; reflexivity ].
  all: try solve [ eexists (cons _ nil); do 3 eexists;
                   repeat split; reflexivity ].
  all: try solve [ eexists (cons _ (cons _ nil)); do 3 eexists;
                   repeat split; reflexivity ].
  all: try solve [ exists (@nil event); do 4 eexists;
                   split; [reflexivity|]; split; [reflexivity|];
                   left; repeat split; assumption ].
  all: try solve [ exists (@nil event); do 4 eexists;
                   split; [reflexivity|]; split; [reflexivity|];
                   right; split; [reflexivity|]; left;
                   eexists; repeat split; eassumption ].
  all: try solve [ exists (@nil event); do 4 eexists;
                   split; [reflexivity|]; split; [reflexivity|];
                   right; split; [reflexivity|]; right;
                   do 2 eexists; repeat split; eassumption ].
  all: try solve [ eexists (cons _ nil); do 4 eexists;
                   split; [reflexivity|]; split; [reflexivity|];
                   right; split; [reflexivity|]; left;
                   eexists; repeat split; eassumption ].
  all: try solve [ eexists (cons _ nil); do 4 eexists;
                   split; [reflexivity|]; split; [reflexivity|];
                   right; split; [reflexivity|]; right;
                   do 2 eexists; repeat split; eassumption ].
Qed.

(** One participant's part of a run, as the walk sees it. *)
Lemma joined_walk (c : Config) (p : party) (line : nat) (t t1 : T)
      (o : outcome rpcClient) :
  joined w (party_config c p) line t o t1 ->
  exists s,
    walk c (Credentials p) (emitted t t1) = Some s /\
    match o with
    | Done _ => s = after_probe p
    | Fatal l f => ends_at w c (emitted t t1) (@Fatal unit l f) s
    end.
Proof.
  intros H.
  destruct (getTapClient_walk c p t) as [s [W K]].
  destruct (getTapClient_profile (party_config c p) t) as [tr [G _]].
  inversion H as [l f t' Hget|client t' e Hget Hprobe|client t' u Hget Hprobe];
    subst; clear H; rewrite Hget in *; cbn [fst snd] in *.
  - exists s. now split.
  - destruct K as [conn [-> ->]].
    rewrite (emitted_trans _ _ _ _ _ _ _ G
               (grows_later t' [EvGetInfo _ (Err e)] eq_refl)).
    rewrite emitted_later, walk_app, W.
    cbn [walk step bundle rpc_TaprootAssetsClient].
    rewrite conn_eqb_refl. exists Stopped. split; [reflexivity|].
    cbn [ends_at]. do 4 eexists. repeat split; reflexivity.
  - destruct K as [conn [-> ->]].
    rewrite (emitted_trans _ _ _ _ _ _ _ G
               (grows_later t' [EvGetInfo _ (Ok u)] eq_refl)).
    rewrite emitted_later, walk_app, W.
    cbn [walk step bundle rpc_TaprootAssetsClient].
    rewrite conn_eqb_refl. eexists. split; reflexivity.
Qed.

(** The chain client's part of a run, as the walk sees it. *)
Lemma getBitcoinConn_walk (c : Config) (t t1 : T) (o : outcome Client) :
  getBitcoinConn w (Bitcoin c) t = (o, t1) ->
  exists s,
    walk c Chain (emitted t t1) = Some s /\
    match o with
    | Done client => s = Built client
    | Fatal l f => ends_at w c (emitted t t1) (@Fatal unit l f) s
    end.
Proof.
  intros E. pose proof (getBitcoinConn_shape (Bitcoin c) t) as H.
  rewrite E in H. cbn [fst snd] in H.
  inversion H as [e Hne Hr|reads cert e Hm Hn|reads cert client Hm Hn];
    subst; clear H; try (inversion Hm; subst; clear Hm).
  all: rewrite emitted_later; cbn [walk step app chain_config cc_Host].
  all: repeat match goal with
         | H : ?p <> "" |- context [?p =? ""] =>
             rewrite (proj2 (String.eqb_neq p "") H)
         end.
  all: unfold chain_address; rewrite ?String.eqb_refl;
    cbn [negb andb walk step chain_config cc_Host];
    rewrite ?String.eqb_refl.
  all: eexists; split; [reflexivity|]; try reflexivity.
  all: cbn [ends_at].
  all: first [ solve [ exists (@nil event); do 3 eexists;
                       repeat split; reflexivity ]
             | solve [ eexists (cons _ nil); do 3 eexists;
                       repeat split; reflexivity ] ].
Qed.

(** C4: the calls of any run of [initClients], in the order they were
    made, go through the stages in their fixed order, each stage bound
    to its own part of the configuration: only participant A's
    credential files are read and then A's address is dialed, then A's
    connection is probed; only then participant B's credential files are
    read and B's address is dialed, then B's connection is probed; only
    then the chain certificate is read and a client for the chain address
    is constructed; then one block is mined on that client.  No call of a
    later stage comes before a call of an earlier one.  The run returns
    exactly when its calls have gone through all the stages.  A run that
    was stopped made an initial part of these calls and had a cause to
    stop where it did: its last call failed and it was stopped on that
    call's error, or its last call read a credential file of the
    participant whose stage it was in and the content was turned down.
    No run ends without having made a call. *)
Theorem initClients_steps_in_order (c : Config) (t : T) :
  exists s,
    walk c (Credentials PartyA) (emitted t (snd (initClients w c t))) =
      Some s /\
    ((exists v, fst (initClients w c t) = Done v) <-> s = Mined) /\
    ends_at w c (emitted t (snd (initClients w c t)))
      (fst (initClients w c t)) s /\
    emitted t (snd (initClients w c t)) <> [].
Proof.
  pose proof (initClients_shape c t) as H.
  destruct (initClients w c t) as [o t']; cbn [fst snd] in *.
  assert (exists s,
            walk c (Credentials PartyA) (emitted t t') = Some s /\
            ends_at w c (emitted t t') o s) as [s [W K]].
  { inversion H as
      [ l f t1 HjA
      | alice t1 l f t2 HjA HjB
      | alice t1 bob t2 l f t3 HjA HjB Hbtc
      | alice t1 bob t2 client t3 e HjA HjB Hbtc Hmine
      | alice t1 bob t2 client t3 u HjA HjB Hbtc Hmine ]; subst; clear H.
    all: destruct (joined_profile _ _ _ _ _ HjA) as [trA [GA _]].
    all: destruct (joined_walk c PartyA _ _ _ _ HjA) as [sA [WA KA]].
    all: try (destruct (joined_profile _ _ _ _ _ HjB) as [trB [GB _]];
              destruct (joined_walk c PartyB _ _ _ _ HjB) as [sB [WB KB]]).
    all: try (destruct (getBitcoinConn_profile _ _ _ _ Hbtc)
                as [trC [GC _]];
              destruct (getBitcoinConn_walk c _ _ _ Hbtc) as [sC [WC KC]]).
    all: cbn [after_probe] in *; subst.
    - exists sA. split; [exact WA | now apply (@ends_at_Fatal unit)].
    - exists sB. rewrite (emitted_trans _ _ _ _ _ _ _ GA GB), walk_app, WA.
      split; [exact WB|].
      apply ends_at_prepend. now apply (@ends_at_Fatal unit).
    - exists sC.
      rewrite (emitted_trans _ _ _ _ _ _ _ (grows_trans _ _ _ _ _ _ GA GB) GC).
      rewrite (emitted_trans _ _ _ _ _ _ _ GA GB), !walk_app, WA, WB.
      split; [exact WC|].
      apply ends_at_prepend. now apply (@ends_at_Fatal unit).
    - exists Stopped.
      pose proof (grows_trans _ _ _ _ _ _
                    (grows_trans _ _ _ _ _ _ GA GB) GC) as G3.
      rewrite (emitted_trans _ _ _ _ _ _ _ G3
                 (grows_later t3 [EvMineBlocks client 1 0 (Err e)] eq_refl)).
      rewrite (emitted_trans _ _ _ _ _ _ _
                 (grows_trans _ _ _ _ _ _ GA GB) GC).
      rewrite (emitted_trans _ _ _ _ _ _ _ GA GB), emitted_later.
      rewrite !walk_app, WA, WB, WC.
      cbn [walk step]. rewrite client_eqb_refl. cbn [andb Z.eqb].
      split; [reflexivity|].
      cbn [ends_at]. do 4 eexists. repeat split; reflexivity.
    - exists Mined.
      pose proof (grows_trans _ _ _ _ _ _
                    (grows_trans _ _ _ _ _ _ GA GB) GC) as G3.
      rewrite emitted_registered.
      rewrite (emitted_trans _ _ _ _ _ _ _ G3
                 (grows_later t3 [EvMineBlocks client 1 0 (Ok u)] eq_refl)).
      rewrite (emitted_trans _ _ _ _ _ _ _
                 (grows_trans _ _ _ _ _ _ GA GB) GC).
      rewrite (emitted_trans _ _ _ _ _ _ _ GA GB), emitted_later.
      rewrite !walk_app, WA, WB, WC.
      cbn [walk step]. rewrite client_eqb_refl. cbn [andb Z.eqb].
      split; [reflexivity|].
      cbn [ends_at]. eexists. reflexivity. }
  exists s. split; [exact W|]. split; [|split; [exact K|]].
  - split.
    + intros [v ->]. destruct s; cbn [ends_at] in K; try tauto.
      * destruct K as [? [? [? [? [? [_ [K _]]]]]]]. discriminate.
      * destruct K as [? [? [? [? [_ [_ K]]]]]]. discriminate.
    + intros ->. exact K.
  - intros E. rewrite E in *. cbn [walk] in W. inversion W; subst.
    cbn [ends_at] in K.
    destruct K as [before [? [? [? [? [K _]]]]]].
    destruct before; discriminate.
Qed.


(** ** What the fixture leaves to the cleanup pass, however it ends *)

(** C1, as the code has it.  The close of a participant's channel is
    registered by [getTapClient], not by [initClients]: a run of
    [getTapClient] leaves one close for each channel it opened; a dial
    that went through is its last call, it returns the bundle on that
    connection, and the close of that connection is the one cleanup it
    has added.  So every run of [initClients], returned or stopped,
    leaves the closes of the channels it opened, in the order they were
    opened, followed by the one cleanup [initClients] registers itself,
    and that only when it returns.  That cleanup mines one block and does
    nothing else; a close cleanup closes its connection and does nothing
    else.  The teardown of a test, however its setup ended, calls these
    cleanups last added first.  A fixture that returned has registered
    three cleanups, the close of A's channel, the close of B's channel
    and the mining; its teardown mines one block, closes B's channel and
    closes A's channel, and makes no other call: nothing closes the chain
    client. *)
Theorem fixture_cleanups (c : Config) (h0 body : history) :
  (forall (p : TapConfig) (t : T),
     cleanups (snd (getTapClient w p t)) =
       cleanups t ++
       map CloseConn (dialed (emitted t (snd (getTapClient w p t)))) /\
     forall target opts conn,
       In (EvDial target opts (Ok conn))
          (emitted t (snd (getTapClient w p t))) ->
       fst (getTapClient w p t) = Done (bundle p conn) /\
       (exists reads,
          forallb is_read reads = true /\
          emitted t (snd (getTapClient w p t)) =
            reads ++ [EvDial target opts (Ok conn)]) /\
       cleanups (snd (getTapClient w p t)) =
         cleanups t ++ [CloseConn conn]) /\
  (forall t : T,
     cleanups (snd (initClients w c t)) =
       cleanups t ++
       map CloseConn (dialed (emitted t (snd (initClients w c t)))) ++
       mining_cleanup (fst (initClients w c t))) /\
  (forall (bitcoinClient : Client) (h : history),
     calls_of w (MineOnCleanup bitcoinClient) h =
       [ EvMineBlocks bitcoinClient 1 0
           (itest_MineBlocks w h bitcoinClient 1 0) ]) /\
  (forall (conn : ClientConn) (h : history),
     calls_of w (CloseConn conn) h = [ EvClose conn (conn_Close w h conn) ]) /\
  map cleanup_of_event (teardown_of (test_run w c h0 body)) =
    map Some
      (rev (map CloseConn (dialed (setup_of (test_run w c h0 body))) ++
            mining_cleanup (outcome_of (test_run w c h0 body)))) /\
  (forall (alice bob : rpcClient) (bitcoinClient : Client),
     outcome_of (test_run w c h0 body) = Done (alice, bob, bitcoinClient) ->
     exists connA connB r1 r2 r3,
       alice = bundle (Tapd (Alice c)) connA /\
       bob = bundle (Tapd (Bob c)) connB /\
       cleanups (snd (initClients w c {| past := h0; cleanups := [] |})) =
         [ CloseConn connA; CloseConn connB; MineOnCleanup bitcoinClient ] /\
       teardown_of (test_run w c h0 body) =
         [ EvMineBlocks bitcoinClient 1 0 r1;
           EvClose connB r2;
           EvClose connA r3 ]).
Proof.
  split; [|split; [|split; [|split; [|split]]]].
  - intros p t. split.
    + destruct (getTapClient_profile p t) as [tr [G _]].
      rewrite (grows_emitted _ _ _ _ G). destruct G as [_ G].
      now rewrite G, app_nil_r.
    + intros target opts conn Hin.
      pose proof (getTapClient_shape p t) as H.
      destruct (getTapClient w p t) as [o t1]; cbn [fst snd] in *.
      inversion H as [reads l f Hr|reads o' e Hr Hb Hd|reads o' conn' Hr Hb Hd];
        subst; clear H;
        rewrite ?emitted_registered, emitted_later in Hin.
      * among_reads Hin.
      * apply in_app_or in Hin. destruct Hin as [Hin|[Hin|[]]];
          [among_reads Hin | discriminate].
      * apply in_app_or in Hin. destruct Hin as [Hin|[Hin|[]]];
          [among_reads Hin|].
        inversion Hin; subst.
        rewrite emitted_registered, emitted_later.
        split; [reflexivity|]. split; [|reflexivity].
        exists reads. now split.
  - intros t. apply initClients_cleanups_shape.
  - intros bitcoinClient h. apply calls_of_event.
  - intros conn h. apply calls_of_event.
  - destruct (test_run_parts c h0 body) as [Hs [h Ht]].
    cbv zeta in Hs. rewrite Ht, Hs, teardown_events_cleanups.
    rewrite (initClients_cleanups_shape c {| past := h0; cleanups := [] |}).
    now rewrite outcome_of_test_run.
  - unfold outcome_of, setup_of, teardown_of, test_run.
    destruct (initClients w c {| past := h0; cleanups := [] |})
      as [o t1] eqn:E.
    pose proof (runCleanup_emitted
                  match o with Done _ => later t1 body | Fatal _ _ => t1 end)
      as Hdown.
    destruct (runCleanup w match o with Done _ => later t1 body
                                   | Fatal _ _ => t1 end) as [os t3].
    cbn [fst snd] in *. intros alice bob bitcoinClient Ho. subst o.
    destruct (initClients_Done _ _ _ _ _ _ E)
      as [connA [connB [tr [EA [EB Et1]]]]].
    exists connA, connB.
    rewrite Hdown, Et1.
    cbn [cleanups past later registered app rev teardown_events cleanup_event].
    do 3 eexists.
    split; [exact EA|]. split; [exact EB|].
    split; reflexivity.
Qed.


(** ** A credential path left empty *)

(** C7: an empty credential path is never an error; it switches its
    block off.  With no certificate path and no token path,
    [getTapClient] reads no file and goes straight to the dial, with the
    transport credentials of an empty TLS configuration and no per-call
    credential; the run ends as the dial does, so only a refused dial
    (line 108) can stop it.  With the certificate path alone empty and a
    token that loads, the token file is the only file read and the dial
    is made with the transport credentials of an empty TLS configuration,
    the receive-size option and the token's per-call credential; the run
    ends as the dial does.  With the token path alone empty and a
    certificate file that loads, the certificate file is the only file
    read and the dial is made with the credentials trusting that file's
    certificates and the receive-size option, and with no per-call
    credential; the run ends as the dial does.  A run with no certificate
    path that was stopped was stopped by the token block (lines 94, 98,
    101), having read the configured token file and nothing else, or by
    the dial (line 108); a run with no token path that was stopped was
    stopped by the certificate block (lines 76, 80), having read the
    configured certificate file and nothing else, or by the dial.  In
    particular a run with no certificate path never stops in the
    certificate block, and a run with no token path never stops in the
    token block. *)
Theorem getTapClient_without_credentials (c : TapConfig) (t : T) :
  (tap_TLSPath c = "" -> tap_MacPath c = "" ->
   let target := Sprintf_s_d (tap_Host c) (tap_Port c) in
   getTapClient w c t =
     match grpc_DialContext w (past t) target default_options with
     | Ok conn =>
         (Done (bundle c conn),
          registered (later t [EvDial target default_options (Ok conn)])
            [CloseConn conn])
     | Err e =>
         (Fatal 108 (NoErrorFailed e),
          later t [EvDial target default_options (Err e)])
     end) /\
  (forall l f t',
     getTapClient w c t = (Fatal l f, t') ->
     (tap_TLSPath c = "" -> l <> 76 /\ l <> 80)%nat /\
     (tap_MacPath c = "" -> l <> 94 /\ l <> 98 /\ l <> 101)%nat) /\
  (forall macBytes mac macCred,
     tap_TLSPath c = "" -> tap_MacPath c <> "" ->
     os_ReadFile w (past t) (tap_MacPath c) = Ok macBytes ->
     macaroon_UnmarshalBinary w macBytes = Ok mac ->
     macaroons_NewMacaroonCredential w mac = Ok macCred ->
     let target := Sprintf_s_d (tap_Host c) (tap_Port c) in
     let read := EvReadFile (tap_MacPath c) (Ok macBytes) in
     let opts := [ grpc_WithTransportCredentials
                     (credentials_NewTLS tls_Config_zero);
                   grpc_WithDefaultCallOptions [maxMsgRecvSize];
                   grpc_WithPerRPCCredentials macCred ] in
     getTapClient w c t =
       match grpc_DialContext w (past t ++ [read]) target opts with
       | Ok conn =>
           (Done (bundle c conn),
            registered (later t [read; EvDial target opts (Ok conn)])
              [CloseConn conn])
       | Err e =>
           (Fatal 108 (NoErrorFailed e),
            later t [read; EvDial target opts (Err e)])
       end) /\
  (forall pem,
     tap_MacPath c = "" -> tap_TLSPath c <> "" ->
     os_ReadFile w (past t) (tap_TLSPath c) = Ok pem ->
     pem_certificates w pem <> [] ->
     let target := Sprintf_s_d (tap_Host c) (tap_Port c) in
     let read := EvReadFile (tap_TLSPath c) (Ok pem) in
     let opts := [ grpc_WithTransportCredentials
                     (credentials_NewClientTLSFromCert
                        (pem_certificates w pem) "");
                   grpc_WithDefaultCallOptions [maxMsgRecvSize] ] in
     getTapClient w c t =
       match grpc_DialContext w (past t ++ [read]) target opts with
       | Ok conn =>
           (Done (bundle c conn),
            registered (later t [read; EvDial target opts (Ok conn)])
              [CloseConn conn])
       | Err e =>
           (Fatal 108 (NoErrorFailed e),
            later t [read; EvDial target opts (Err e)])
       end) /\
  (forall l f,
     fst (getTapClient w c t) = Fatal l f ->
     (l = 108%nat ->
      exists reads opts e,
        forallb is_read reads = true /\
        emitted t (snd (getTapClient w c t)) =
          reads ++
          [EvDial (Sprintf_s_d (tap_Host c) (tap_Port c)) opts (Err e)] /\
        f = NoErrorFailed e) /\
     (tap_TLSPath c = "" ->
      In l [94; 98; 101; 108]%nat /\
      (l <> 108%nat ->
       tap_MacPath c <> "" /\
       exists r,
         emitted t (snd (getTapClient w c t)) =
           [EvReadFile (tap_MacPath c) r] /\
         r = os_ReadFile w (past t) (tap_MacPath c) /\
         match r with
         | Err e => l = 94%nat /\ f = NoErrorFailed e
         | Ok macBytes =>
             token_rejected w macBytes /\ (l = 98 \/ l = 101)%nat
         end)) /\
     (tap_MacPath c = "" ->
      In l [76; 80; 108]%nat /\
      (l <> 108%nat ->
       tap_TLSPath c <> "" /\
       exists r,
         emitted t (snd (getTapClient w c t)) =
           [EvReadFile (tap_TLSPath c) r] /\
         r = os_ReadFile w (past t) (tap_TLSPath c) /\
         match r with
         | Err e => l = 76%nat /\ f = NoErrorFailed e
         | Ok pem =>
             pem_certificates w pem = [] /\ l = 80%nat /\ f = TrueFailed
         end))).
Proof.
  split; [|split; [|split; [|split]]].
  - intros Htls Hmac target.
    unfold getTapClient.
    rewrite Htls, Hmac. cbn [String.eqb negb].
    unfold bind, call, require_NoError, t_Cleanup, ret.
    fold default_options. fold target. cbn [past cleanups].
    destruct (grpc_DialContext w (past t) target default_options);
      reflexivity.
  - intros l f t' E.
    pose proof (getTapClient_shape c t) as H. rewrite E in H.
    cbn [fst snd] in H. inversion H; subst.
    + split; assumption.
    + split; intros _; repeat split; discriminate.
  - intros macBytes mac macCred Htls Hmac Hread Hdecode Hwrap
           target read opts.
    unfold getTapClient.
    rewrite Htls, (proj2 (String.eqb_neq _ "") Hmac).
    cbn [String.eqb negb].
    unfold bind, call, require_NoError, t_Cleanup, ret.
    cbn [past cleanups]. rewrite Hread. cbv beta iota.
    rewrite Hdecode, Hwrap. cbn [past cleanups app].
    fold target. fold read. fold opts.
    destruct (grpc_DialContext w (past t ++ [read]) target opts);
      unfold later, registered; cbn [past cleanups];
      rewrite <- ?app_assoc; reflexivity.
  - intros pem Hmac Htls Hread Hcerts target read opts.
    unfold getTapClient.
    rewrite Hmac, (proj2 (String.eqb_neq _ "") Htls).
    cbn [String.eqb negb].
    unfold bind, call, require_NoError, require_True, t_Cleanup, ret,
      AppendCertsFromPEM.
    cbn [past cleanups]. rewrite Hread. cbv beta iota.
    destruct (pem_certificates w pem) as [|cert certs] eqn:Ecerts;
      [now destruct Hcerts|].
    cbn [past cleanups app negb].
    fold target.
    destruct (grpc_DialContext w _ target _) eqn:Edial;
      unfold later, registered; cbn [past cleanups];
      subst read opts; rewrite ?Ecerts, ?Edial;
      rewrite <- ?app_assoc; reflexivity.
  - intros l f. tap_cases c t E.
    all: intros E0; inversion E0; subst; clear E0.
    all: split;
      [ intros Hl; try discriminate;
        first [ solve [ exists (@nil event); do 2 eexists;
                        repeat split; reflexivity ]
              | solve [ eexists (cons _ nil); do 2 eexists;
                        repeat split; reflexivity ]
              | solve [ eexists (cons _ (cons _ nil)); do 2 eexists;
                        repeat split; reflexivity ] ]
      | ].
    all: split; intros Hp; try congruence.
    all: (split; [cbn [In]; tauto|]).
    all: intros Hne; try congruence.
    all: split; [assumption|]; eexists.
    all: split; [reflexivity|]; split; [symmetry; eassumption|].
    all: cbv beta iota; unfold token_rejected; eauto 8.
Qed.


End Runs.

(** ** The theorems at work *)

Import Sample.

(** C1, as the specification words it, fails: on a fixture that returned,
    no registered cleanup both mines and closes a channel, whenever it is
    called; the cleanup [initClients] registers only mines.  The whole
    teardown is one mining and the close of the two channels: no call of
    it releases the chain client. *)
Lemma no_cleanup_mines_and_closes :
  outcome_of (test_run world_up config_secure [] []) =
    Done (alice_secure, bob_secure, chain_secure) /\
  ~ (exists f h,
       In f (cleanups (snd (initClients world_up config_secure fresh))) /\
       existsb is_mine (calls_of world_up f h) = true /\
       existsb is_close (calls_of world_up f h) = true) /\
  cleanups (snd (initClients world_up config_secure fresh)) =
    [ CloseConn (ClientConnAt 2); CloseConn (ClientConnAt 4);
      MineOnCleanup chain_secure ] /\
  teardown_of (test_run world_up config_secure [] []) =
    [ EvMineBlocks chain_secure 1 0 (Ok tt);
      EvClose (ClientConnAt 4) (Ok tt);
      EvClose (ClientConnAt 2) (Ok tt) ].
Proof.
  split; [reflexivity|]. split; [|split; reflexivity].
  intros [f [h [_ [Hmine Hclose]]]].
  rewrite calls_of_event in Hmine, Hclose.
  destruct f; simpl in *; discriminate.
Qed.

Lemma fixture_cleanups_witness :
  (outcome_of (test_run world_up config_secure [] []) =
     Done (alice_secure, bob_secure, chain_secure) /\
   exists connA connB r1 r2 r3,
     alice_secure = bundle (Tapd (Alice config_secure)) connA /\
     bob_secure = bundle (Tapd (Bob config_secure)) connB /\
     cleanups (snd (initClients world_up config_secure
                      {| past := []; cleanups := [] |})) =
       [ CloseConn connA; CloseConn connB; MineOnCleanup chain_secure ] /\
     teardown_of (test_run world_up config_secure [] []) =
       [ EvMineBlocks chain_secure 1 0 r1;
         EvClose connB r2;
         EvClose connA r3 ]) /\
  (fst (getTapClient world_deaf tap_secure fresh) =
     Done (bundle tap_secure (ClientConnAt 2)) /\
   cleanups (snd (getTapClient world_deaf tap_secure fresh)) =
     cleanups fresh ++ [CloseConn (ClientConnAt 2)]) /\
  (outcome_of (test_run world_deaf config_secure [] []) =
     Fatal 46 (NoErrorFailed unavailable) /\
   cleanups (snd (initClients world_deaf config_secure fresh)) =
     [CloseConn (ClientConnAt 2)] /\
   map cleanup_of_event (teardown_of (test_run world_deaf config_secure [] [])) =
     [Some (CloseConn (ClientConnAt 2))]).
Proof.
  destruct (fixture_cleanups world_up config_secure [] [])
    as [_ [_ [_ [_ [_ Hdone]]]]].
  destruct (fixture_cleanups world_deaf config_secure [] [])
    as [Htap [Hinit [_ [_ [Hdown _]]]]].
  split; [|split].
  - split; [reflexivity|].
    exact (Hdone alice_secure bob_secure chain_secure eq_refl).
  - destruct (proj2 (Htap tap_secure fresh) "alice.example:10029"
                [ grpc_WithTransportCredentials
                    (credentials_NewClientTLSFromCert
                       [DER [x2d; x2d; x42; x45]] "");
                  grpc_WithDefaultCallOptions [maxMsgRecvSize];
                  grpc_WithPerRPCCredentials
                    (MacaroonCredentialOf (MacaroonOf [x02; x01; x07])) ]
                (ClientConnAt 2))
      as [Hret [_ Hreg]].
    + right; right; left; reflexivity.
    + split; [exact Hret | exact Hreg].
  - split; [reflexivity|]. split; [exact (Hinit fresh) | exact Hdown].
Defined.

Lemma world_up_responsive : responsive world_up.
Proof.
  repeat split; intros; try reflexivity; eexists; reflexivity.
Defined.

Lemma fixture_mines_at_setup_and_at_teardown_witness :
  default_trust (Tapd (Alice config_plain)) /\
  default_trust (Tapd (Bob config_plain)) /\
  btc_TLSPath (Bitcoin config_plain) = "" /\
  responsive world_up /\
  (exists alice bob bitcoinClient,
     outcome_of (test_run world_up config_plain [] []) =
     Done (alice, bob, bitcoinClient)) /\
  count is_mine (setup_of (test_run world_up config_plain [] []) ++
                 teardown_of (test_run world_up config_plain [] [])) = 2%nat.
Proof.
  assert (HA : default_trust (Tapd (Alice config_plain)))
    by (split; reflexivity).
  assert (HB : default_trust (Tapd (Bob config_plain)))
    by (split; reflexivity).
  assert (HC : btc_TLSPath (Bitcoin config_plain) = "") by reflexivity.
  pose proof (fixture_mines_at_setup_and_at_teardown
                world_up config_plain [] [] HA HB HC) as [Hret Hrun].
  split; [exact HA|]. split; [exact HB|]. split; [exact HC|].
  split; [exact world_up_responsive|].
  split; [exact (Hret world_up_responsive)|].
  destruct (Hrun (bundle (tap_plain 10029) (ClientConnAt 0))
                 (bundle (tap_plain 10030) (ClientConnAt 2))
                 (ClientAt 4) eq_refl)
    as [connA [connB [r1 [r2 [r3 [_ [_ [_ [_ [_ [_ H]]]]]]]]]]].
  exact H.
Defined.

Lemma initClients_stops_at_failed_probe_witness :
  (getTapClient world_deaf tap_secure fresh =
     (Done alice_secure, snd (getTapClient world_deaf tap_secure fresh)) /\
   initClients world_deaf config_secure fresh =
     (Fatal 46 (NoErrorFailed unavailable),
      later (snd (getTapClient world_deaf tap_secure fresh))
        [EvGetInfo (rpc_TaprootAssetsClient alice_secure) (Err unavailable)]) /\
   count is_dial (emitted fresh (snd (initClients world_deaf config_secure fresh)))
     = 1%nat /\
   count is_new (emitted fresh (snd (initClients world_deaf config_secure fresh)))
     = 0%nat /\
   count is_mine (emitted fresh (snd (initClients world_deaf config_secure fresh)))
     = 0%nat) /\
  (initClients world_half config_secure fresh =
     (Fatal 51 (NoErrorFailed unavailable),
      snd (initClients world_half config_secure fresh)) /\
   count is_new (emitted fresh (snd (initClients world_half config_secure fresh)))
     = 0%nat /\
   count is_mine (emitted fresh (snd (initClients world_half config_secure fresh)))
     = 0%nat).
Proof.
  split.
  - assert (Hget : getTapClient world_deaf (Tapd (Alice config_secure)) fresh =
              (Done alice_secure,
               snd (getTapClient world_deaf tap_secure fresh)))
      by reflexivity.
    destruct (proj1 (initClients_stops_at_failed_probe
                       world_deaf config_secure fresh)
                alice_secure _ unavailable Hget eq_refl)
      as [Hrun [_ [Hdial [_ [Hnew Hmine]]]]].
    split; [exact Hget|]. split; [exact Hrun|].
    split; [exact Hdial|]. split; [exact Hnew | exact Hmine].
  - assert (HgetA : getTapClient world_half (Tapd (Alice config_secure)) fresh =
              (Done alice_secure,
               snd (getTapClient world_half tap_secure fresh)))
      by reflexivity.
    assert (HgetB :
              getTapClient world_half (Tapd (Bob config_secure))
                (later (snd (getTapClient world_half tap_secure fresh))
                   [EvGetInfo (rpc_TaprootAssetsClient alice_secure) (Ok tt)]) =
              (Done bob_secure,
               snd (getTapClient world_half (tap_plain 10030)
                      (later (snd (getTapClient world_half tap_secure fresh))
                         [EvGetInfo (rpc_TaprootAssetsClient alice_secure)
                            (Ok tt)]))))
      by reflexivity.
    destruct (proj2 (initClients_stops_at_failed_probe
                       world_half config_secure fresh)
                alice_secure _ tt bob_secure _ unavailable
                HgetA eq_refl HgetB eq_refl)
      as [Hrun [_ [Hnew Hmine]]].
    split; [exact Hrun|]. split; [exact Hnew | exact Hmine].
Defined.

Lemma getTapClient_empty_pool_is_fatal_before_dial_witness :
  tap_TLSPath tap_empty_pool <> "" /\
  os_ReadFile world_up (past fresh) (tap_TLSPath tap_empty_pool) = Ok [x0a] /\
  pem_certificates world_up [x0a] = [] /\
  getTapClient world_up tap_empty_pool fresh =
    (Fatal 80 TrueFailed,
     later fresh [EvReadFile (tap_TLSPath tap_empty_pool) (Ok [x0a])]) /\
  count is_dial (emitted fresh (snd (getTapClient world_up tap_empty_pool fresh)))
    = 0%nat.
Proof.
  assert (H1 : tap_TLSPath tap_empty_pool <> "") by discriminate.
  split; [exact H1|]. split; [reflexivity|]. split; [reflexivity|].
  exact (getTapClient_empty_pool_is_fatal_before_dial
           world_up tap_empty_pool fresh [x0a] H1 eq_refl eq_refl).
Defined.

Lemma getTapClient_bad_token_is_fatal_before_dial_witness :
  tap_MacPath tap_bad_token <> "" /\
  file_holds world_up (tap_MacPath tap_bad_token) [xff; x00] /\
  token_rejected world_up [xff; x00] /\
  exists l f reads,
    getTapClient world_up tap_bad_token fresh = (Fatal l f, later fresh reads) /\
    forallb is_read reads = true /\
    count is_dial (emitted fresh (snd (getTapClient world_up tap_bad_token fresh)))
      = 0%nat /\
    In l [76; 80; 98; 101]%nat /\
    (tap_TLSPath tap_bad_token = "" ->
     reads = [EvReadFile (tap_MacPath tap_bad_token) (Ok [xff; x00])] /\
     ((exists e, macaroon_UnmarshalBinary world_up [xff; x00] = Err e /\
                 l = 98%nat /\ f = NoErrorFailed e) \/
      (exists mac e, macaroon_UnmarshalBinary world_up [xff; x00] = Ok mac /\
                     macaroons_NewMacaroonCredential world_up mac = Err e /\
                     l = 101%nat /\ f = NoErrorFailed e))).
Proof.
  assert (H1 : tap_MacPath tap_bad_token <> "") by discriminate.
  assert (H2 : file_holds world_up (tap_MacPath tap_bad_token) [xff; x00])
    by (intros h; reflexivity).
  assert (H3 : token_rejected world_up [xff; x00])
    by (left; eexists; reflexivity).
  split; [exact H1|]. split; [exact H2|]. split; [exact H3|].
  exact (getTapClient_bad_token_is_fatal_before_dial
           world_up tap_bad_token fresh [xff; x00] H1 H2 H3).
Defined.

Lemma getTapClient_without_credentials_witness :
  getTapClient world_up (tap_plain 10029) fresh =
    (Done (bundle (tap_plain 10029) (ClientConnAt 0)),
     registered
       (later fresh [EvDial "localhost:10029" default_options
                       (Ok (ClientConnAt 0))])
       [CloseConn (ClientConnAt 0)]) /\
  getTapClient world_up tap_token_only fresh =
    (Done (bundle tap_token_only (ClientConnAt 1)),
     registered
       (later fresh
          [ EvReadFile "/tapd/admin.macaroon" (Ok [x02; x01; x07]);
            EvDial "alice.example:10029" token_only_options
              (Ok (ClientConnAt 1)) ])
       [CloseConn (ClientConnAt 1)]) /\
  getTapClient world_up tap_cert_only fresh =
    (Done (bundle tap_cert_only (ClientConnAt 1)),
     registered
       (later fresh
          [ EvReadFile "/tapd/tls.cert" (Ok [x2d; x2d; x42; x45]);
            EvDial "bob.example:10030" cert_only_options
              (Ok (ClientConnAt 1)) ])
       [CloseConn (ClientConnAt 1)]) /\
  (fst (getTapClient world_up tap_bad_token fresh) =
     Fatal 98 (NoErrorFailed "unsupported macaroon version") /\
   emitted fresh (snd (getTapClient world_up tap_bad_token fresh)) =
     [EvReadFile "/tapd/garbage.macaroon" (Ok [xff; x00])] /\
   token_rejected world_up [xff; x00]) /\
  (fst (getTapClient world_up tap_no_token fresh) = Fatal 80 TrueFailed /\
   emitted fresh (snd (getTapClient world_up tap_no_token fresh)) =
     [EvReadFile "/tapd/empty.pem" (Ok [x0a])] /\
   pem_certificates world_up [x0a] = []).
Proof.
  split; [|split; [|split; [|split]]].
  - exact (proj1 (getTapClient_without_credentials
                    world_up (tap_plain 10029) fresh) eq_refl eq_refl).
  - assert (Hmac : tap_MacPath tap_token_only <> "") by discriminate.
    exact (proj1 (proj2 (proj2 (getTapClient_without_credentials
                                  world_up tap_token_only fresh)))
             [x02; x01; x07] (MacaroonOf [x02; x01; x07])
             (MacaroonCredentialOf (MacaroonOf [x02; x01; x07]))
             eq_refl Hmac eq_refl eq_refl eq_refl).
  - assert (Htls : tap_TLSPath tap_cert_only <> "") by discriminate.
    assert (Hcerts : pem_certificates world_up [x2d; x2d; x42; x45] <> [])
      by discriminate.
    exact (proj1 (proj2 (proj2 (proj2 (getTapClient_without_credentials
                                         world_up tap_cert_only fresh))))
             [x2d; x2d; x42; x45] eq_refl Htls eq_refl Hcerts).
  - split; [reflexivity|].
    assert (Hne : 98%nat <> 108%nat) by discriminate.
    destruct (proj2 (proj1 (proj2 (proj2 (proj2 (proj2 (proj2
                (getTapClient_without_credentials
                   world_up tap_bad_token fresh))))
                98%nat (NoErrorFailed "unsupported macaroon version")
                eq_refl)) eq_refl) Hne)
      as [_ [r [Hcalls [Hr Hwhy]]]].
    subst r. split; [exact Hcalls | exact (proj1 Hwhy)].
  - split; [reflexivity|].
    assert (Hne : 80%nat <> 108%nat) by discriminate.
    destruct (proj2 (proj2 (proj2 (proj2 (proj2 (proj2 (proj2
                (getTapClient_without_credentials
                   world_up tap_no_token fresh))))
                80%nat TrueFailed eq_refl)) eq_refl) Hne)
      as [_ [r [Hcalls [Hr Hwhy]]]].
    subst r. split; [exact Hcalls | exact (proj1 Hwhy)].
Defined.

Lemma getTapClient_dial_options_witness :
  exists opts,
    In (EvDial "alice.example:10029" opts (Ok (ClientConnAt 2)))
       (emitted fresh (snd (getTapClient world_up tap_secure fresh))) /\
    In (grpc_WithDefaultCallOptions [maxMsgRecvSize]) opts /\
    exists creds percall,
      opts = grpc_WithTransportCredentials creds
             :: grpc_WithDefaultCallOptions [maxMsgRecvSize]
             :: percall /\
      (tap_MacPath tap_secure = "" -> percall = []) /\
      (tap_MacPath tap_secure <> "" ->
       exists macCred, percall = [grpc_WithPerRPCCredentials macCred]).
Proof.
  eexists. 
  assert (Hin : In (EvDial "alice.example:10029"
                      [ grpc_WithTransportCredentials
                          (credentials_NewClientTLSFromCert
                             [DER [x2d; x2d; x42; x45]] "");
                        grpc_WithDefaultCallOptions [maxMsgRecvSize];
                        grpc_WithPerRPCCredentials
                          (MacaroonCredentialOf (MacaroonOf [x02; x01; x07])) ]
                      (Ok (ClientConnAt 2)))
                   (emitted fresh (snd (getTapClient world_up tap_secure fresh))))
    by (right; right; left; reflexivity).
  split; [exact Hin|].
  exact (proj2 (getTapClient_dial_options world_up tap_secure fresh _ _ _ Hin)).
Defined.

Lemma getBitcoinConn_tls_witness :
  (exists config r,
     emitted fresh (snd (getBitcoinConn world_up btc_plain fresh)) =
       [EvNew config r] /\
     cc_DisableTLS config = true /\ cc_Certificates config = []) /\
  ((exists e,
      os_ReadFile world_up (past fresh) (btc_TLSPath btc_secure) = Err e /\
      getBitcoinConn world_up btc_secure fresh =
        (Fatal 143 (NoErrorFailed e),
         later fresh [EvReadFile (btc_TLSPath btc_secure) (Err e)])) \/
   (exists rpcCert config r,
      os_ReadFile world_up (past fresh) (btc_TLSPath btc_secure) = Ok rpcCert /\
      emitted fresh (snd (getBitcoinConn world_up btc_secure fresh)) =
        [EvReadFile (btc_TLSPath btc_secure) (Ok rpcCert); EvNew config r] /\
      cc_DisableTLS config = false /\ cc_Certificates config = rpcCert)) /\
  (cc_DisableTLS (chain_config btc_secure [x2d; x2d; x43]) = true <->
   btc_TLSPath btc_secure = "").
Proof.
  split; [|split].
  - exact (proj1 (proj2 (getBitcoinConn_tls world_up btc_plain fresh)) eq_refl).
  - assert (Hne : btc_TLSPath btc_secure <> "") by discriminate.
    exact (proj2 (proj2 (getBitcoinConn_tls world_up btc_secure fresh)) Hne).
  - apply (proj1 (getBitcoinConn_tls world_up btc_secure fresh)
             _ (Ok (ClientAt 1))).
    right; left; reflexivity.
Defined.

Lemma dialed_channels_are_closed_at_test_end_witness :
  (exists conn,
     alice_secure = bundle tap_secure conn /\
     cleanups (snd (getTapClient world_deaf tap_secure fresh)) =
       cleanups fresh ++ [CloseConn conn] /\
     count is_probe
       (emitted fresh (snd (getTapClient world_deaf tap_secure fresh))) = 0%nat) /\
  In (CloseConn (ClientConnAt 2))
     (cleanups (snd (initClients world_deaf config_secure fresh))) /\
  (exists r,
     In (EvClose (ClientConnAt 2) r)
        (teardown_of (test_run world_deaf config_secure [] []))).
Proof.
  pose proof (dialed_channels_are_closed_at_test_end world_deaf)
    as [Hreg [Hcov Hclose]].
  split; [|split].
  - apply (Hreg tap_secure fresh). reflexivity.
  - apply (Hcov config_secure fresh "alice.example:10029"
             [ grpc_WithTransportCredentials
                 (credentials_NewClientTLSFromCert
                    [DER [x2d; x2d; x42; x45]] "");
               grpc_WithDefaultCallOptions [maxMsgRecvSize];
               grpc_WithPerRPCCredentials
                 (MacaroonCredentialOf (MacaroonOf [x02; x01; x07])) ]).
    right; right; left; reflexivity.
  - apply (Hclose config_secure [] [] "alice.example:10029"
             [ grpc_WithTransportCredentials
                 (credentials_NewClientTLSFromCert
                    [DER [x2d; x2d; x42; x45]] "");
               grpc_WithDefaultCallOptions [maxMsgRecvSize];
               grpc_WithPerRPCCredentials
                 (MacaroonCredentialOf (MacaroonOf [x02; x01; x07])) ]).
    right; right; left; reflexivity.
Defined.

Lemma initClients_steps_in_order_witness :
  walk config_both (Credentials PartyA)
    (emitted fresh (snd (initClients world_up config_both fresh))) =
    Some Mined /\
  (exists s,
     walk config_both (Credentials PartyA)
       (emitted fresh (snd (initClients world_half config_both fresh))) =
       Some s /\
     s <> Mined /\
     ends_at world_half config_both
       (emitted fresh (snd (initClients world_half config_both fresh)))
       (@Fatal (rpcClient * rpcClient * Client) 51
          (NoErrorFailed unavailable)) s).
Proof.
  split.
  - destruct (initClients_steps_in_order world_up config_both fresh)
      as [s [W [Hiff _]]].
    rewrite W. f_equal. apply Hiff. eexists. reflexivity.
  - destruct (initClients_steps_in_order world_half config_both fresh)
      as [s [W [Hiff [K _]]]].
    exists s. split; [exact W|]. split; [|exact K].
    intros Hs. apply Hiff in Hs. destruct Hs as [v Hv]. discriminate.
Defined.

(** A run on [config_both] that is stopped at B's probe stands at
    [Stopped]; one that returns stands at [Mined]; one stopped on a
    token that does not decode stands in A's credential stage. *)
Example steps_in_order_stopped :
  walk config_both (Credentials PartyA)
       (emitted fresh (snd (initClients world_half config_both fresh))) =
  Some Stopped.
Proof. reflexivity. Qed.

Example steps_in_order_returned :
  walk config_both (Credentials PartyA)
       (emitted fresh (snd (initClients world_up config_both fresh))) =
  Some Mined.
Proof. reflexivity. Qed.

Example steps_in_order_rejected :
  walk config_bad_token (Credentials PartyA)
       (emitted fresh (snd (initClients world_up config_bad_token fresh))) =
  Some (Credentials PartyA).
Proof. reflexivity. Qed.

(** The order is not vacuous.  The calls of a run that sets up the two
    participants of [config_both] in the other order are no walk; nor
    are B's dial before A's probe, or a chain client built before B is
    set up. *)
Example steps_participants_exchanged :
  walk config_both (Credentials PartyA)
       (emitted fresh (snd (initClients world_up config_swapped fresh))) =
  None.
Proof. reflexivity. Qed.

Example steps_out_of_order :
  walk config_both (Credentials PartyA)
       [ EvReadFile "/tapd/admin.macaroon" (Ok [x02; x01; x07]);
         EvDial "alice.example:10029" token_only_options
           (Ok (ClientConnAt 1));
         EvReadFile "/tapd/tls.cert" (Ok [x2d; x2d; x42; x45]) ] = None.
Proof. reflexivity. Qed.

Example steps_chain_too_early :
  walk config_both (Credentials PartyA)
       [ EvReadFile "/tapd/admin.macaroon" (Ok [x02; x01; x07]);
         EvDial "alice.example:10029" token_only_options
           (Ok (ClientConnAt 1));
         EvGetInfo (taprpc_NewTaprootAssetsClient (ClientConnAt 1)) (Ok tt);
         EvReadFile "/btcd/rpc.cert" (Ok [x2d; x2d; x43]) ] = None.
Proof. reflexivity. Qed.

(** ** The further facts at work *)

Import MoreSamples.

Lemma secure_dial :
  In (EvDial "alice.example:10029" secure_options (Ok (ClientConnAt 2)))
     (emitted fresh (snd (getTapClient world_up tap_secure fresh))).
Proof. right; right; left; reflexivity. Defined.

Lemma getTapClient_opens_at_most_one_channel_witness :
  is_Done (fst (getTapClient world_up tap_empty_pool fresh)) = false /\
  dialed (emitted fresh (snd (getTapClient world_up tap_empty_pool fresh))) = [] /\
  cleanups (snd (getTapClient world_up tap_empty_pool fresh)) = cleanups fresh.
Proof.
  split; [reflexivity|].
  exact (proj2 (proj2 (getTapClient_opens_at_most_one_channel
                         world_up tap_empty_pool fresh)) eq_refl).
Defined.


Lemma getTapClient_stops_at_failed_read_witness :
  In (EvReadFile "/tapd/missing.macaroon" (Err no_such_file))
     (emitted fresh (snd (getTapClient world_up tap_missing_token fresh))) /\
  exists before,
    emitted fresh (snd (getTapClient world_up tap_missing_token fresh)) =
      before ++ [EvReadFile "/tapd/missing.macaroon" (Err no_such_file)] /\
    forallb is_read before = true /\
    cleanups (snd (getTapClient world_up tap_missing_token fresh)) =
      cleanups fresh /\
    ((fst (getTapClient world_up tap_missing_token fresh) =
        Fatal 76 (NoErrorFailed no_such_file) /\
      "/tapd/missing.macaroon" = tap_TLSPath tap_missing_token /\
      before = []) \/
     (fst (getTapClient world_up tap_missing_token fresh) =
        Fatal 94 (NoErrorFailed no_such_file) /\
      "/tapd/missing.macaroon" = tap_MacPath tap_missing_token)).
Proof.
  assert (Hin : In (EvReadFile "/tapd/missing.macaroon" (Err no_such_file))
                   (emitted fresh
                      (snd (getTapClient world_up tap_missing_token fresh))))
    by (right; left; reflexivity).
  split; [exact Hin|].
  exact (getTapClient_stops_at_failed_read
           world_up tap_missing_token fresh _ _ Hin).
Defined.

Lemma getTapClient_trusts_the_certificate_file_witness :
  tap_TLSPath tap_secure <> "" /\
  os_ReadFile world_up (past fresh) (tap_TLSPath tap_secure) =
    Ok [x2d; x2d; x42; x45] /\
  pem_certificates world_up [x2d; x2d; x42; x45] <> [] /\
  hd_error secure_options =
    Some (grpc_WithTransportCredentials
            (credentials_NewTLS
               {| ServerName := "";
                  RootCAs := Some (pem_certificates world_up
                                     [x2d; x2d; x42; x45]) |})).
Proof.
  assert (Hne : tap_TLSPath tap_secure <> "") by discriminate.
  split; [exact Hne|]. split; [reflexivity|].
  exact (getTapClient_trusts_the_certificate_file
           world_up tap_secure fresh [x2d; x2d; x42; x45] _ _ _
           Hne eq_refl secure_dial).
Defined.

Lemma getTapClient_attaches_the_token_witness :
  tap_MacPath tap_secure <> "" /\
  exists macBytes mac macCred,
    In (EvReadFile (tap_MacPath tap_secure) (Ok macBytes))
       (emitted fresh (snd (getTapClient world_up tap_secure fresh))) /\
    macaroon_UnmarshalBinary world_up macBytes = Ok mac /\
    macaroons_NewMacaroonCredential world_up mac = Ok macCred /\
    nth_error secure_options 2 = Some (grpc_WithPerRPCCredentials macCred) /\
    List.length secure_options = 3%nat.
Proof.
  assert (Hne : tap_MacPath tap_secure <> "") by discriminate.
  split; [exact Hne|].
  exact (getTapClient_attaches_the_token
           world_up tap_secure fresh _ _ _ Hne secure_dial).
Defined.

Lemma getTapClient_bundle_shares_one_channel_witness :
  fst (getTapClient world_up tap_secure fresh) = Done alice_secure /\
  cfg alice_secure = tap_secure /\
  exists conn,
    dialed (emitted fresh (snd (getTapClient world_up tap_secure fresh))) =
      [conn] /\
    rpc_TaprootAssetsClient alice_secure = taprpc_NewTaprootAssetsClient conn /\
    rpc_UniverseClient alice_secure = universerpc_NewUniverseClient conn /\
    rpc_MintClient alice_secure = mintrpc_NewMintClient conn /\
    rpc_AssetWalletClient alice_secure =
      assetwalletrpc_NewAssetWalletClient conn /\
    cleanups (snd (getTapClient world_up tap_secure fresh)) =
      cleanups fresh ++ [CloseConn conn].
Proof.
  split; [reflexivity|].
  exact (getTapClient_bundle_shares_one_channel
           world_up tap_secure fresh alice_secure eq_refl).
Defined.

Lemma getBitcoinConn_connection_config_witness :
  In (EvNew (chain_config btc_secure [x2d; x2d; x43]) (Ok (ClientAt 1)))
     (emitted fresh (snd (getBitcoinConn world_up btc_secure fresh))) /\
  cc_Host (chain_config btc_secure [x2d; x2d; x43]) = "localhost:18443" /\
  cc_User (chain_config btc_secure [x2d; x2d; x43]) = "lightning" /\
  cc_Pass (chain_config btc_secure [x2d; x2d; x43]) = "lightning" /\
  cc_HTTPPostMode (chain_config btc_secure [x2d; x2d; x43]) = true.
Proof.
  assert (Hin : In (EvNew (chain_config btc_secure [x2d; x2d; x43])
                      (Ok (ClientAt 1)))
                   (emitted fresh
                      (snd (getBitcoinConn world_up btc_secure fresh))))
    by (right; left; reflexivity).
  split; [exact Hin|].
  exact (getBitcoinConn_connection_config
           world_up btc_secure fresh _ _ Hin).
Defined.

Lemma getBitcoinConn_constructs_once_witness :
  fst (getBitcoinConn world_no_chain btc_plain fresh) =
    Fatal 157 (NoErrorFailed "rpcclient: invalid configuration") /\
  exists config,
    In (EvNew config (Ok (ClientAt 1)))
       (emitted fresh (snd (getBitcoinConn world_up btc_secure fresh))).
Proof.
  split.
  - apply (proj2 (proj2 (proj2 (proj2 (proj2
             (getBitcoinConn_constructs_once world_no_chain btc_plain fresh)))))
             (chain_config btc_plain [])).
    left; reflexivity.
  - apply (proj1 (proj2 (proj2 (proj2 (proj2
             (getBitcoinConn_constructs_once world_up btc_secure fresh)))))).
    reflexivity.
Defined.

Lemma initClients_returns_what_it_built_witness :
  fst (initClients world_up config_secure fresh) =
    Done (alice_secure, bob_secure, chain_secure) /\
  exists connA connB config,
    dialed (emitted fresh (snd (initClients world_up config_secure fresh))) =
      [connA; connB] /\
    alice_secure = bundle (Tapd (Alice config_secure)) connA /\
    bob_secure = bundle (Tapd (Bob config_secure)) connB /\
    In (EvNew config (Ok chain_secure))
       (emitted fresh (snd (initClients world_up config_secure fresh))).
Proof.
  split; [reflexivity|].
  exact (initClients_returns_what_it_built
           world_up config_secure fresh _ _ _ eq_refl).
Defined.

Lemma Sprintf_s_d_inj_witness :
  Sprintf_s_d "localhost" 10029 = Sprintf_s_d "localhost" 10029 /\
  "localhost" = "localhost" /\ 10029%Z = 10029%Z.
Proof.
  split; [reflexivity|].
  exact (Sprintf_s_d_inj "localhost" "localhost" 10029 10029 eq_refl).
Defined.

Lemma initClients_stops_at_first_failure_witness :
  (is_Done (fst (initClients world_up config_secure fresh)) = true /\
   existsb failed (emitted fresh (snd (initClients world_up config_secure fresh)))
     = false) /\
  (In (EvMineBlocks (ClientAt 4) 1 0 (Err "generate: no wallet"))
      (emitted fresh (snd (initClients world_no_block config_plain fresh))) /\
   exists before l err,
     emitted fresh (snd (initClients world_no_block config_plain fresh)) =
       before ++ [EvMineBlocks (ClientAt 4) 1 0 (Err "generate: no wallet")] /\
     existsb failed before = false /\
     error_of (EvMineBlocks (ClientAt 4) 1 0 (Err "generate: no wallet")) =
       Some err /\
     fst (initClients world_no_block config_plain fresh) =
       Fatal l (NoErrorFailed err)).
Proof.
  split.
  - split; [reflexivity|].
    exact (proj1 (initClients_stops_at_first_failure
                    world_up config_secure fresh) eq_refl).
  - assert (Hin : In (EvMineBlocks (ClientAt 4) 1 0 (Err "generate: no wallet"))
                     (emitted fresh
                        (snd (initClients world_no_block config_plain fresh))))
      by (do 5 right; left; reflexivity).
    split; [exact Hin|].
    exact (proj2 (initClients_stops_at_first_failure
                    world_no_block config_plain fresh) _ Hin eq_refl).
Defined.

Lemma getTapClient_returns_when_credentials_load_witness :
  exists conn,
    fst (getTapClient world_up tap_secure fresh) = Done (bundle tap_secure conn).
Proof.
  apply (getTapClient_returns_when_credentials_load world_up tap_secure fresh).
  - right. exists [x2d; x2d; x42; x45]. split; [reflexivity | discriminate].
  - right. exists [x02; x01; x07]. do 2 eexists.
    split; [intros h; reflexivity|]. split; reflexivity.
  - intros h opts. eexists. reflexivity.
Defined.

Lemma cleanup_pass_reports_failures_witness :
  (In (Fatal 125 (NoErrorFailed "rpc error: code = Canceled"))
      (fst (runCleanup world_bad_close
              (snd (initClients world_bad_close config_plain fresh)))) /\
   exists e,
     NoErrorFailed "rpc error: code = Canceled" = NoErrorFailed e /\
     ((125%nat = 125%nat /\
       exists conn,
         In (EvClose conn (Err e))
            (emitted (snd (initClients world_bad_close config_plain fresh))
               (snd (runCleanup world_bad_close
                       (snd (initClients world_bad_close config_plain
                               fresh)))))) \/
      (125%nat = 63%nat /\
       exists bitcoinClient,
         In (EvMineBlocks bitcoinClient 1 0 (Err e))
            (emitted (snd (initClients world_bad_close config_plain fresh))
               (snd (runCleanup world_bad_close
                       (snd (initClients world_bad_close config_plain
                               fresh)))))))) /\
  map cleanup_of_event
    (emitted (snd (initClients world_bad_close config_plain fresh))
       (snd (runCleanup world_bad_close
               (snd (initClients world_bad_close config_plain fresh))))) =
    [ Some (MineOnCleanup (ClientAt 4));
      Some (CloseConn (ClientConnAt 2));
      Some (CloseConn (ClientConnAt 0)) ] /\
  fst (runCleanup world_bad_close
         (snd (initClients world_bad_close config_plain fresh))) =
    [ Done tt; Fatal 125 (NoErrorFailed "rpc error: code = Canceled");
      Done tt ].
Proof.
  assert (Hin : In (Fatal 125 (NoErrorFailed "rpc error: code = Canceled"))
                   (fst (runCleanup world_bad_close
                           (snd (initClients world_bad_close config_plain
                                   fresh)))))
    by (right; left; reflexivity).
  destruct (cleanup_pass_reports_failures world_bad_close
              (snd (initClients world_bad_close config_plain fresh)))
    as [_ [_ [_ [Hfail [Horder [_ [Hout _]]]]]]].
  split; [|split].
  - split; [exact Hin | exact (Hfail _ _ Hin)].
  - exact Horder.
  - exact Hout.
Defined.

(** A fixture stopped by its own first mining does not mine at teardown;
    it closes the two channels it had opened, the last opened first. *)
Example stopped_fixture_teardown :
  outcome_of (test_run world_no_block config_plain [] []) =
    Fatal 57 (NoErrorFailed "generate: no wallet") /\
  teardown_of (test_run world_no_block config_plain [] []) =
    [EvClose (ClientConnAt 2) (Ok tt); EvClose (ClientConnAt 0) (Ok tt)].
Proof. split; reflexivity. Qed.

(** A close that fails is reported, and the last cleanup still runs. *)
Example failed_close_is_reported :
  fst (runCleanup world_bad_close
         (snd (initClients world_bad_close config_plain fresh))) =
  [Done tt; Fatal 125 (NoErrorFailed "rpc error: code = Canceled"); Done tt].
Proof. reflexivity. Qed.
